(** * PACaccounting-API: the time-ledger reconciliation engine

    A shallow embedding of the timesheet import pipeline of [timings.py]
    (duration parsing, technician resolution, sheet parsing, in-batch
    deduplication, the "replace this month" merge into the ledger, the
    guarded save) and of the company matcher of [relacao_tecnicos.py],
    followed by the properties proved about them.

    Conventions of the embedding.
    - Python [int] is [Z]; [str] is [string], the bytes of the text in
      UTF-8; [None] is the [None] of an [option].
    - A Python [dict] whose iteration order is observed by the code (the
      per-year company map) is an association list in insertion order; a
      [dict] or [set] that is only looked up, inserted into and deleted from
      is a [gmap] or [gset].
    - The in-memory ledger is typed: every path that builds it
      ([_normalizar_dados_timings_brutos], [_migrar_de_legacy_dict],
      [_adicionar_tempo_empresa], the manual endpoints) stores integer
      minutes under the keys ["meses"], ["extra_mensal"], ["apagado"] and,
      optionally, ["por_tecnico"].
    - The functions whose definition rests on the Unicode character database
      ([unicodedata.normalize], [str.casefold]) are parameters of the
      development: every theorem holds for any such normaliser.  ASCII
      renderings of them are given for the worked examples. *)

From stdpp Require Import gmap strings list fin_maps pretty sorting.
From Stdlib Require Import ZArith Lia Ascii String Floats.SpecFloat.

Local Open Scope string_scope.
Local Open Scope list_scope.
Local Open Scope Z_scope.

(** ** Python dictionaries that are iterated: insertion-ordered association lists *)

Section pydict.
Context {K V : Type} `{EqDecision K}.

(** [d.get(k)] *)
Fixpoint pd_get (k : K) (d : list (K * V)) : option V :=
  match d with
  | [] => None
  | (k', v) :: d' => if decide (k' = k) then Some v else pd_get k d'
  end.

(** In-place mutation of the value stored under [k]; nothing happens when
    the key is absent. *)
Fixpoint pd_alter (f : V → V) (k : K) (d : list (K * V)) : list (K * V) :=
  match d with
  | [] => []
  | (k', v) :: d' =>
      if decide (k' = k) then (k', f v) :: d' else (k', v) :: pd_alter f k d'
  end.

(** [d[k] = v]: an existing key keeps its position, a new key goes last. *)
Definition pd_set (k : K) (v : V) (d : list (K * V)) : list (K * V) :=
  match pd_get k d with
  | Some _ => pd_alter (λ _, v) k d
  | None => d ++ [(k, v)]
  end.

(** [x = d.setdefault(k, dflt)] followed by the in-place mutation [f] of [x]. *)
Definition pd_upsert (k : K) (dflt : V) (f : V → V) (d : list (K * V)) : list (K * V) :=
  match pd_get k d with
  | Some _ => pd_alter f k d
  | None => d ++ [(k, f dflt)]
  end.

(** [d.pop(k, None)] *)
Fixpoint pd_pop (k : K) (d : list (K * V)) : list (K * V) :=
  match d with
  | [] => []
  | (k', v) :: d' => if decide (k' = k) then d' else (k', v) :: pd_pop k d'
  end.

End pydict.

(** ** Python built-ins on text *)

Module Py.

Definition truthy (s : string) : bool := negb (String.eqb s "").

(** [a or b] on optional strings. *)
Definition or_ (a b : option string) : option string :=
  match a with
  | Some s => if truthy s then a else b
  | None => b
  end.

(** [str.isspace] on a character of one byte: TAB..CR, FS..US and the
    blank. *)
Definition isspace (c : ascii) : bool :=
  let n := nat_of_ascii c in
  ((9 <=? n)%nat && (n <=? 13)%nat) || ((28 <=? n)%nat && (n <=? 32)%nat).

(** [str.isspace] on the characters that UTF-8 writes in two bytes: U+0085
    and U+00A0. *)
Definition isspace2 (c b : ascii) : bool :=
  let n := nat_of_ascii c in
  let m := nat_of_ascii b in
  (n =? 194)%nat && ((m =? 133)%nat || (m =? 160)%nat).

(** [str.isspace] on the characters that UTF-8 writes in three bytes:
    U+1680, U+2000..U+200A, U+2028, U+2029, U+202F, U+205F and U+3000.  No
    character of four bytes is a blank. *)
Definition isspace3 (c b d : ascii) : bool :=
  let n := nat_of_ascii c in
  let m := nat_of_ascii b in
  let k := nat_of_ascii d in
  ((n =? 225)%nat && ((m =? 154)%nat && (k =? 128)%nat))
  || ((n =? 226)%nat
      && (((m =? 128)%nat
           && (((128 <=? k)%nat && (k <=? 138)%nat)
               || (k =? 168)%nat || (k =? 169)%nat || (k =? 175)%nat))
          || ((m =? 129)%nat && (k =? 159)%nat)))
  || ((n =? 227)%nat && ((m =? 128)%nat && (k =? 128)%nat)).

(** The text without the blank characters at its head; [um], [dois] and
    [tres] tell which characters of one, two and three bytes are blank. *)
Fixpoint lstrip_com (um : ascii → bool) (dois : ascii → ascii → bool)
    (tres : ascii → ascii → ascii → bool) (l : list ascii) : list ascii :=
  match l with
  | c :: l1 =>
      if um c then lstrip_com um dois tres l1
      else
        match l1 with
        | b :: l2 =>
            if dois c b then lstrip_com um dois tres l2
            else
              match l2 with
              | d :: l3 => if tres c b d then lstrip_com um dois tres l3 else l
              | [] => l
              end
        | [] => l
        end
  | [] => []
  end.

(** [s.lstrip()], and [\s*] at the head of a text *)
Definition lstrip_l (l : list ascii) : list ascii :=
  lstrip_com isspace isspace2 isspace3 l.

(** [s.rstrip()] on the reversed text: the bytes of a character come last
    byte first. *)
Definition rstrip_r (l : list ascii) : list ascii :=
  lstrip_com isspace (λ b c, isspace2 c b) (λ d b c, isspace3 c b d) l.

Definition strip_l (l : list ascii) : list ascii :=
  rev (rstrip_r (rev (lstrip_l l))).

(** [s.strip()] *)
Definition strip (s : string) : string :=
  string_of_list_ascii (strip_l (list_ascii_of_string s)).

End Py.

(** ** Exceptions *)

Inductive Excecao := OverflowError | ValueError | HTTPException (status_code : Z).

Inductive Resultado (A : Type) :=
  | Retorna (a : A)
  | Levanta (e : Excecao).
Arguments Retorna {A} a.
Arguments Levanta {A} e.

#[global] Instance Resultado_ret : MRet Resultado := @Retorna.
#[global] Instance Resultado_bind : MBind Resultado := λ A B f m,
  match m with
  | Retorna a => f a
  | Levanta e => Levanta e
  end.

(** [try: r  except ValueError: h] *)
Definition except_ValueError {A} (r : Resultado A) (h : Resultado A) : Resultado A :=
  match r with
  | Levanta ValueError => h
  | _ => r
  end.

(** ** Python floats (IEEE 754 binary64) *)

Module Float64.

Abbreviation float := spec_float.

Definition of_int (n : Z) : float := binary_normalize 53 1024 n 0 false.

(** The double nearest to [n * 10^k] ([n ≥ 0], sign given apart), as the
    correctly rounded [float(str)] gives it. *)
Definition of_decimal (neg : bool) (n k : Z) : float :=
  match n with
  | Zpos p =>
      if 0 <=? k then binary_normalize 53 1024 (cond_Zopp neg (Zpos p * 10 ^ k)) 0 neg
      else
        let '(q, e, l) := SFdiv_core_binary 53 1024 (Zpos p) 0 (10 ^ (- k)) 0 in
        binary_round_aux 53 1024 neg q e l
  | _ => S754_zero neg
  end.

Definition mul (x y : float) : float := SFmul 53 1024 x y.

Definition div (x y : float) : float := SFdiv 53 1024 x y.

Definition sub (x y : float) : float := SFsub 53 1024 x y.

(** [x < y], [x <= y] and [x == y]; each is false when an operand is a NaN. *)
Definition ltb (x y : float) : bool := SFltb x y.
Definition leb (x y : float) : bool := SFleb x y.
Definition eqb (x y : float) : bool := SFeqb x y.

Definition isnan (x : float) : bool :=
  match x with
  | S754_nan => true
  | _ => false
  end.

(** The place of a float in the order of the numbers: class, exponent and
    mantissa, compared from left to right by [antes]. *)
Definition ordem (x : float) : Z * Z * Z :=
  match x with
  | S754_nan | S754_zero _ => (0, 0, 0)
  | S754_infinity s => (if s then -2 else 2, 0, 0)
  | S754_finite s m e => if s then (-1, - e, Z.neg m) else (1, e, Z.pos m)
  end.

Definition antes (a b : Z * Z * Z) : Prop :=
  a.1.1 < b.1.1 ∨ (a.1.1 = b.1.1 ∧ (a.1.2 < b.1.2 ∨ (a.1.2 = b.1.2 ∧ a.2 < b.2))).

(** [abs(x) <= y] *)
Definition abs_le (x y : float) : bool := SFleb (SFabs x) y.

(** [m * 2^e] rounded to the nearest integer, ties to the even one. *)
Definition round_half_even (m : positive) (e : Z) : Z :=
  if 0 <=? e then Zpos m * 2 ^ e
  else
    let d := 2 ^ (- e) in
    let q := Zpos m / d in
    let r := Zpos m mod d in
    if 2 * r <? d then q
    else if d <? 2 * r then q + 1
    else if Z.even q then q else q + 1.

(** [float(n)] as the arithmetic of an [int] with a [float] takes it:
    OverflowError when [n] is too large for a float. *)
Definition of_int_py (n : Z) : Resultado float :=
  match of_int n with
  | S754_infinity _ => Levanta OverflowError
  | x => Retorna x
  end.

(** [n < x] for an [int] and a [float]: the two numbers are compared
    exactly, without rounding the integer. *)
Definition int_ltb (n : Z) (x : float) : bool :=
  match x with
  | S754_nan => false
  | S754_infinity s => negb s
  | S754_zero _ => n <? 0
  | S754_finite s m e =>
      if 0 <=? e then n <? cond_Zopp s (Zpos m * 2 ^ e)
      else n * 2 ^ (- e) <? cond_Zopp s (Zpos m)
  end.

(** [int(round(x))] *)
Definition round (x : float) : Resultado Z :=
  match x with
  | S754_nan => Levanta ValueError
  | S754_infinity _ => Levanta OverflowError
  | S754_zero _ => Retorna 0
  | S754_finite s m e => Retorna (cond_Zopp s (round_half_even m e))
  end.

End Float64.

(** ** More text built-ins: case, search, [int()] and [float()] of text *)

Module PyTxt.

Definition isdigit (c : ascii) : bool :=
  let n := nat_of_ascii c in (48 <=? n)%nat && (n <=? 57)%nat.

Definition lower_c (c : ascii) : ascii :=
  let n := nat_of_ascii c in
  if (65 <=? n)%nat && (n <=? 90)%nat then ascii_of_nat (n + 32) else c.

Definition upper_c (c : ascii) : ascii :=
  let n := nat_of_ascii c in
  if (97 <=? n)%nat && (n <=? 122)%nat then ascii_of_nat (n - 32) else c.

Definition lower (s : string) : string :=
  string_of_list_ascii (map lower_c (list_ascii_of_string s)).

Definition upper (s : string) : string :=
  string_of_list_ascii (map upper_c (list_ascii_of_string s)).

(** [s.replace(a, b)] for single characters *)
Definition replace_c (a b : ascii) (s : string) : string :=
  string_of_list_ascii
    (map (λ c, if Ascii.eqb c a then b else c) (list_ascii_of_string s)).

(** [c in s] for a single character *)
Definition contains_c (c : ascii) (s : string) : bool :=
  existsb (Ascii.eqb c) (list_ascii_of_string s).

(** [s.startswith(p)] *)
Definition startswith (p s : string) : bool := String.prefix p s.

(** [sub in s] *)
Fixpoint contains (sub s : string) : bool :=
  String.prefix sub s ||
  match s with
  | String _ s' => contains sub s'
  | EmptyString => false
  end.

(** The longest run of digits at the head, and what follows. *)
Fixpoint span_digits (l : list ascii) : list ascii * list ascii :=
  match l with
  | c :: l' =>
      if isdigit c then let '(d, r) := span_digits l' in (c :: d, r) else ([], l)
  | [] => ([], [])
  end.

(** [int(d)] for a run of digits *)
Definition int_of_digits (d : list ascii) : Z :=
  fold_left (λ acc c, 10 * acc + Z.of_nat (nat_of_ascii c - 48)) d 0.

(** [float()]'s digitpart: digits, single underscores allowed between them. *)
Fixpoint digitpart_cont (l : list ascii) : list ascii * list ascii :=
  match l with
  | c :: l' =>
      if isdigit c then let '(d, r) := digitpart_cont l' in (c :: d, r)
      else if Ascii.eqb c "_" then
        match l' with
        | c2 :: l'' =>
            if isdigit c2 then let '(d, r) := digitpart_cont l'' in (c2 :: d, r)
            else ([], l)
        | [] => ([], l)
        end
      else ([], l)
  | [] => ([], [])
  end.

Definition digitpart (l : list ascii) : list ascii * list ascii :=
  match l with
  | c :: l' =>
      if isdigit c then let '(d, r) := digitpart_cont l' in (c :: d, r) else ([], l)
  | [] => ([], [])
  end.

Definition sign (l : list ascii) : bool * list ascii :=
  match l with
  | c :: l' =>
      if Ascii.eqb c "-" then (true, l')
      else if Ascii.eqb c "+" then (false, l') else (false, l)
  | [] => (false, [])
  end.

(** The optional exponent of a float literal: its value and what follows. *)
Definition exponent (l : list ascii) : Z * list ascii :=
  match l with
  | c :: l' =>
      if Ascii.eqb (lower_c c) "e" then
        let '(neg, l1) := sign l' in
        match digitpart l1 with
        | ([], _) => (0, l)
        | (d, r) => (cond_Zopp neg (int_of_digits d), r)
        end
      else (0, l)
  | [] => (0, [])
  end.

(** The blanks that [float()] drops at both ends of its text: TAB..CR and
    the space, and the blank characters beyond ASCII, which it first turns
    into spaces; FS..US stay. *)
Definition isspace_c (c : ascii) : bool :=
  let n := nat_of_ascii c in
  ((9 <=? n)%nat && (n <=? 13)%nat) || (n =? 32)%nat.

Definition float_strip (l : list ascii) : list ascii :=
  rev (Py.lstrip_com isspace_c (λ b c, Py.isspace2 c b) (λ d b c, Py.isspace3 c b d)
         (rev (Py.lstrip_com isspace_c Py.isspace2 Py.isspace3 l))).

(** [float(s)] *)
Definition float (s : string) : Resultado Float64.float :=
  let '(neg, l) := sign (float_strip (list_ascii_of_string s)) in
  let w := string_of_list_ascii (map lower_c l) in
  if String.eqb w "inf" || String.eqb w "infinity" then Retorna (S754_infinity neg)
  else if String.eqb w "nan" then Retorna S754_nan
  else
    let '(ip, l1) := digitpart l in
    let '(fp, l2) :=
      match l1 with
      | c :: l1' => if Ascii.eqb c "." then digitpart l1' else ([], l1)
      | [] => ([], l1)
      end in
    match (ip ++ fp)%list with
    | [] => Levanta ValueError
    | ds =>
        let '(ex, l3) := exponent l2 in
        match l3 with
        | [] =>
            Retorna (Float64.of_decimal neg (int_of_digits ds) (ex - Z.of_nat (List.length fp)))
        | _ => Levanta ValueError
        end
    end.

End PyTxt.

(** ** Duration parsing ([_parse_duracao_para_minutos]) *)

(** One attempt of [([0-9]+(?:[.,][0-9]+)?)\s*h] at the head of [l]: the
    captured group.  Backtracking cannot succeed where the greedy attempt
    fails: a shorter run of digits is followed by a digit. *)
Definition re_match_h (l : list ascii) : option (list ascii) :=
  match PyTxt.span_digits l with
  | ([], _) => None
  | (d1, r1) =>
      let '(g, r2) :=
        match r1 with
        | c :: r1' =>
            if Ascii.eqb c "." || Ascii.eqb c "," then
              match PyTxt.span_digits r1' with
              | ([], _) => (d1, r1)
              | (d2, r2) => ((d1 ++ c :: d2)%list, r2)
              end
            else (d1, r1)
        | [] => (d1, r1)
        end in
      match Py.lstrip_l r2 with
      | c :: _ => if Ascii.eqb c "h" then Some g else None
      | [] => None
      end
  end.

(** One attempt of [([0-9]+)\s*m] at the head of [l]. *)
Definition re_match_m (l : list ascii) : option (list ascii) :=
  match PyTxt.span_digits l with
  | ([], _) => None
  | (d1, r1) =>
      match Py.lstrip_l r1 with
      | c :: _ => if Ascii.eqb c "m" then Some d1 else None
      | [] => None
      end
  end.

(** [re.search]: the leftmost position where an attempt succeeds. *)
Fixpoint re_search (at_head : list ascii → option (list ascii)) (l : list ascii)
  : option (list ascii) :=
  match at_head l with
  | Some g => Some g
  | None => match l with
            | _ :: l' => re_search at_head l'
            | [] => None
            end
  end.

Definition sessenta : Float64.float := Float64.of_int 60.
Definition vinte_e_quatro : Float64.float := Float64.of_int 24.

(** [valor] is [None] or the text [str(valor)] of the cell or stored value. *)
Definition _parse_duracao_para_minutos (valor : option string) : Resultado Z :=
  match valor with
  | None => Retorna 0
  | Some v =>
      let s := Py.strip v in
      if negb (Py.truthy s) then Retorna 0
      else
        let s_lower := list_ascii_of_string (PyTxt.lower s) in
        let match_h := re_search re_match_h s_lower in
        let match_m := re_search re_match_m s_lower in
        match match_h, match_m with
        | None, None =>
            let normalizado := PyTxt.replace_c "," "." s in
            if PyTxt.contains_c "." normalizado then
              match PyTxt.float normalizado with
              | Levanta ValueError => Retorna 0
              | Levanta e => Levanta e
              | Retorna horas =>
                  if Float64.abs_le horas vinte_e_quatro then
                    n ← Float64.round (Float64.mul horas sessenta); Retorna (Z.max 0 n)
                  else
                    n ← Float64.round horas; Retorna (Z.max 0 n)
              end
            else
              except_ValueError
                (horas ← PyTxt.float normalizado;
                 minutos ← Float64.round horas;
                 Retorna (Z.max 0 minutos))
                (Retorna 0)
        | _, _ =>
            horas_float ←
              match match_h with
              | Some g =>
                  except_ValueError
                    (PyTxt.float (PyTxt.replace_c "," "." (string_of_list_ascii g)))
                    (Retorna (S754_zero false))
              | None => Retorna (S754_zero false)
              end;
            let minutos_int :=
              match match_m with
              | Some g => PyTxt.int_of_digits g
              | None => 0
              end in
            n ← Float64.round (Float64.mul horas_float sessenta);
            Retorna (Z.max 0 (n + Z.max 0 minutos_int))
        end
  end.

(** [_parse_tempo_para_minutos]: the legacy name of the same function. *)
Definition _parse_tempo_para_minutos (valor : option string) : Resultado Z :=
  _parse_duracao_para_minutos valor.

(** ** The ledger (the [timings_dados] global) *)

(** A month key is an [int] in ["meses"] and a [str] in the per-technician
    maps; the import defensively removes both spellings, so both are kept:
    [inl m] is the integer key [m], [inr s] the text key [s]. *)
Abbreviation Tempos := (gmap (Z + string) Z).

(** One company of one year *)
Record RegistoEmpresa := {
  meses : Tempos;
  extra_mensal : Z;
  apagado : bool;
  por_tecnico : option (gmap string Tempos)
}.

(** The company map of one year, in insertion order. *)
Abbreviation AnoDict := (list (string * RegistoEmpresa)).

(** [timings_dados]: year (as text) to company map. *)
Abbreviation Ledger := (gmap string AnoDict).

(** [str(n)] for an integer *)
Definition str_int (n : Z) : string := pretty n.

(** A fact handed by [_importar_excel_timings] to the import
    (the dictionaries with keys empresa, empresa_norm, tipo, canonico, minutos). *)
Record Registo := {
  empresa : string;
  empresa_norm : string;
  tipo : string;
  canonico : option string;
  minutos : Z
}.

(** A worksheet as [iter_rows(values_only=True)] yields it: a cell is [None]
    or a value, of which the code only ever takes [str(value)]. *)
Abbreviation Celula := (option string).
Abbreviation Linha := (list Celula).
Abbreviation Folha := (list Linha).

(** A detail row read from a sheet: (empresa, tipo, canonico, minutos). *)
Abbreviation Detalhe := (string * string * option string * Z)%type.

(** The three diagnostic dictionaries threaded through the sheet readers. *)
Record Diag := {
  invalidos : gmap string Z;
  ignorados_por_empresa : gmap string Z;
  resumos_ignorados_por_empresa : gmap string Z
}.

Definition diag_vazio : Diag :=
  {| invalidos := ∅; ignorados_por_empresa := ∅; resumos_ignorados_por_empresa := ∅ |}.

(** [d[k] = d.get(k, 0) + n] *)
Definition acumular (k : string) (n : Z) (d : gmap string Z) : gmap string Z :=
  <[k := default 0 (d !! k) + n]> d.

(** The same on a dictionary whose order is observed. *)
Definition pd_acumular (k : string) (n : Z) (d : list (string * Z)) : list (string * Z) :=
  pd_set k (default 0 (pd_get k d) + n) d.

(** The accumulators of the deduplication loop of [importar_timings]. *)
Record Lote := {
  registos_unicos : list Registo;
  seen_registos : gset (string * string * Z * Z);
  empresa_display_por_norm : gmap string string;
  empresas_afetadas_norm : gset string;
  duplicados_por_empresa : gmap string Z;
  total_minutos_deduplicados : Z
}.

Definition lote_vazio : Lote :=
  {| registos_unicos := []; seen_registos := ∅; empresa_display_por_norm := ∅;
     empresas_afetadas_norm := ∅; duplicados_por_empresa := ∅;
     total_minutos_deduplicados := 0 |}.

(** The import report written to [timings_import_report.json] (the list of
    file names apart). *)
Record Relatorio := {
  rel_invalidos : gmap string Z;
  rel_ignorados_por_empresa : gmap string Z;
  rel_minutos_ignorados_resumo_por_empresa : gmap string Z;
  rel_duplicados_por_empresa : gmap string Z;
  rel_total_minutos_deduplicados : Z;
  rel_armando_sem_inferido : gmap string Z
}.

(** An entry of the client registry [estado["clientes"]]. *)
Record Cliente := {
  cli_nome : option string;
  cli_cliente : option string;
  cli_empresa : option string;
  cli_designacao : option string;
  cli_tecnico : option string;
  cli_carteira : option string
}.

(** ** Renderings of the normalisers on ASCII and accented Latin-1 text

    [unicodedata.normalize("NFD", s)] followed by the removal of the
    combining marks turns an accented Latin-1 letter into its base letter and
    leaves ASCII alone; on such text the definitions below are the source's.
    They instantiate the parameters of the engine in the worked examples. *)

Module Latin1.

(** The base letter of the Latin-1 letter encoded as the bytes C3 [b]. *)
Definition base_de (b : nat) : option ascii :=
  if (128 <=? b)%nat && (b <=? 133)%nat then Some "A"%char
  else if (b =? 135)%nat then Some "C"%char
  else if (136 <=? b)%nat && (b <=? 139)%nat then Some "E"%char
  else if (140 <=? b)%nat && (b <=? 143)%nat then Some "I"%char
  else if (b =? 145)%nat then Some "N"%char
  else if (146 <=? b)%nat && (b <=? 150)%nat then Some "O"%char
  else if (153 <=? b)%nat && (b <=? 156)%nat then Some "U"%char
  else if (b =? 157)%nat then Some "Y"%char
  else if (160 <=? b)%nat && (b <=? 165)%nat then Some "a"%char
  else if (b =? 167)%nat then Some "c"%char
  else if (168 <=? b)%nat && (b <=? 171)%nat then Some "e"%char
  else if (172 <=? b)%nat && (b <=? 175)%nat then Some "i"%char
  else if (b =? 177)%nat then Some "n"%char
  else if (178 <=? b)%nat && (b <=? 182)%nat then Some "o"%char
  else if (185 <=? b)%nat && (b <=? 188)%nat then Some "u"%char
  else if (b =? 189)%nat || (b =? 191)%nat then Some "y"%char
  else None.

(** NFD, then the combining marks dropped. *)
Fixpoint sem_acentos (l : list ascii) : list ascii :=
  match l with
  | c :: l' =>
      if (nat_of_ascii c =? 195)%nat then
        match l' with
        | b :: l'' =>
            match base_de (nat_of_ascii b) with
            | Some x => x :: sem_acentos l''
            | None => c :: b :: sem_acentos l''
            end
        | [] => [c]
        end
      else c :: sem_acentos l'
  | [] => []
  end.

(** [s.split()] and [re.split(r"\s+", s)] without the empty pieces: the
    text is cut at every blank character, of one, two or three bytes. *)
Fixpoint palavras_go (atual : list ascii) (l : list ascii) : list (list ascii) :=
  match l with
  | c :: l1 =>
      if Py.isspace c then
        match atual with
        | [] => palavras_go [] l1
        | _ => rev atual :: palavras_go [] l1
        end
      else
        match l1 with
        | b :: l2 =>
            if Py.isspace2 c b then
              match atual with
              | [] => palavras_go [] l2
              | _ => rev atual :: palavras_go [] l2
              end
            else
              match l2 with
              | d :: l3 =>
                  if Py.isspace3 c b d then
                    match atual with
                    | [] => palavras_go [] l3
                    | _ => rev atual :: palavras_go [] l3
                    end
                  else palavras_go (c :: atual) l1
              | [] => palavras_go (c :: atual) l1
              end
        | [] => palavras_go (c :: atual) l1
        end
  | [] => match atual with [] => [] | _ => [rev atual] end
  end.

Definition palavras (l : list ascii) : list (list ascii) := palavras_go [] l.

(** [" ".join(tokens)] *)
Fixpoint juntar (tokens : list (list ascii)) : list ascii :=
  match tokens with
  | [] => []
  | [t] => t
  | t :: resto => (t ++ " "%char :: juntar resto)%list
  end.

(** [re.sub(r"\s+", " ", txt).strip()] *)
Definition comprimir (l : list ascii) : list ascii := juntar (palavras l).

Definition _norm_nome_forte (s : string) : string :=
  let l := map PyTxt.upper_c (sem_acentos (Py.strip_l (list_ascii_of_string s))) in
  let stopwords := ["DE"; "DA"; "DO"; "DOS"; "DAS"; "E"] in
  string_of_list_ascii
    (juntar (filter (λ t, negb (existsb (String.eqb (string_of_list_ascii t)) stopwords))
                    (palavras l))).

(** [\w]: letters, digits, the underscore, and the bytes of non-ASCII letters. *)
Definition isword (c : ascii) : bool :=
  let n := nat_of_ascii c in
  PyTxt.isdigit c || ((65 <=? n)%nat && (n <=? 90)%nat)
  || ((97 <=? n)%nat && (n <=? 122)%nat) || (n =? 95)%nat || (128 <=? n)%nat.

Fixpoint prefixo (p l : list ascii) : option (list ascii) :=
  match p, l with
  | [], _ => Some l
  | a :: p', b :: l' => if Ascii.eqb a b then prefixo p' l' else None
  | _ :: _, [] => None
  end.

Definition fim_de_palavra (l : list ascii) : bool :=
  match l with
  | c :: _ => negb (isword c)
  | [] => true
  end.

(** One attempt of [(?:lda|ltda|unipessoal|sociedade|por|quotas?|sa|s\s+a)\b]
    at the head of [l]: what follows the match. *)
Definition sufixo_legal (l : list ascii) : option (list ascii) :=
  let literal (w : string) :=
    match prefixo (list_ascii_of_string w) l with
    | Some r => if fim_de_palavra r then Some r else None
    | None => None
    end in
  let s_a :=
    match l with
    | c :: l' =>
        if Ascii.eqb c "s" then
          match l' with
          | e :: _ =>
              if Py.isspace e then
                match Py.lstrip_l l' with
                | a :: r => if Ascii.eqb a "a" && fim_de_palavra r then Some r else None
                | [] => None
                end
              else None
          | [] => None
          end
        else None
    | [] => None
    end in
  foldr (λ w resto, match literal w with Some r => Some r | None => resto end) s_a
        ["lda"; "ltda"; "unipessoal"; "sociedade"; "por"; "quotas"; "quota"; "sa"].

(** [LEGAL_SUFFIX_PATTERN.sub(" ", txt)]; [antes] tells whether the previous
    character is a word character. *)
Fixpoint sem_sufixos (n : nat) (antes : bool) (l : list ascii) : list ascii :=
  match n with
  | O => l
  | S n' =>
      match l with
      | [] => []
      | c :: l' =>
          match (if antes then None else sufixo_legal l) with
          | Some r => " "%char :: sem_sufixos n' true r
          | None => c :: sem_sufixos n' (isword c) l'
          end
      end
  end.

Definition pontuacao : list ascii :=
  list_ascii_of_string ".,;:-_/()[]{}&'+" ++ [ascii_of_nat 34].

Definition _norm_empresa_forte (s : string) : string :=
  let txt := map PyTxt.lower_c (sem_acentos (Py.strip_l (list_ascii_of_string s))) in
  let txt := map (λ c, if existsb (Ascii.eqb c) pontuacao then " "%char else c) txt in
  let original_txt := comprimir txt in
  let txt := comprimir (sem_sufixos (List.length original_txt) false original_txt) in
  string_of_list_ascii (match txt with [] => original_txt | _ => txt end).

Definition _normalize_header (value : option string) : string :=
  match value with
  | None => ""
  | Some v =>
      let l := map PyTxt.lower_c (sem_acentos (Py.strip_l (list_ascii_of_string v))) in
      let l := map (λ c, let n := nat_of_ascii c in
                         if PyTxt.isdigit c || ((97 <=? n)%nat && (n <=? 122)%nat)
                         then c else " "%char) l in
      string_of_list_ascii (comprimir l)
  end.

(** [normalizar_nome] of [relacao_tecnicos.py] *)
Definition normalizar_nome (valor : string) : string :=
  let l := map PyTxt.upper_c (sem_acentos (Py.strip_l (list_ascii_of_string valor))) in
  let l := map (λ c, let n := nat_of_ascii c in
                     if PyTxt.isdigit c || ((65 <=? n)%nat && (n <=? 90)%nat)
                     then c else " "%char) l in
  string_of_list_ascii (comprimir l).

End Latin1.

(** ** Persistence of the ledger *)

(** Run [f] on the company map of year [ano], creating the map when the year
    is new: [_obter_ano_dict(ano)] followed by in-place mutation. *)
Definition no_ano (ano : Z) (f : AnoDict → AnoDict) (td : Ledger) : Ledger :=
  <[str_int ano := f (default [] (td !! str_int ano))]> td.

(** [_extra_mes]: the stored extra is an integer. *)
Definition _extra_mes (rec : RegistoEmpresa) : Z := extra_mensal rec.

(** The sum of [_parse_duracao_para_minutos(valor)] over the values of a
    month map; a stored integer is parsed through its text. *)
Definition total_de_tempos (tempos : Tempos) : Resultado Z :=
  map_fold (λ _ valor acc,
              total ← acc;
              n ← _parse_duracao_para_minutos (Some (str_int valor));
              Retorna (total + n))
           (Retorna 0) tempos.

Definition total_de_ano (ano_val : AnoDict) : Resultado Z :=
  foldl (λ acc e,
           total ← acc;
           n ← total_de_tempos (meses (snd e));
           Retorna (total + n + _extra_mes (snd e) * 12))
        (Retorna 0) ano_val.

Definition _total_minutos_timings (data : Ledger) : Resultado Z :=
  map_fold (λ _ ano_val acc,
              total ← acc;
              n ← total_de_ano ano_val;
              Retorna (total + n))
           (Retorna 0) data.

(** What a file of the ledger holds: the JSON text of some ledger data, or
    bytes that [json.load] rejects. *)
Inductive Conteudo :=
  | JsonDe (dados : Ledger)
  | Corrompido.

(** The process: the global [timings_dados], the files it owns and the flag
    that asks for a backup before the next save. *)
Record Processo := {
  timings_dados : Ledger;
  TIMINGS_FILE : option Conteudo;
  ficheiro_tmp : option Conteudo;
  copias_bak : list Conteudo;
  _PRECISA_BACKUP_TIMINGS : bool
}.

(** What the file system answers to this request: whether writing the
    temporary file, renaming it, removing it and copying the backup succeed.
    When the write fails, [escrita_parcial] is what it leaves: [None] when
    the temporary file could not be opened (it stays as it was), [Some c]
    when it was opened and holds the text [c] as the exception is raised. *)
Record Ambiente := {
  escrita_ok : bool;
  escrita_parcial : option Conteudo;
  replace_ok : bool;
  remove_ok : bool;
  copia_ok : bool
}.

Definition com_ficheiros (p : Processo) (f tmp : option Conteudo) : Processo :=
  {| timings_dados := timings_dados p; TIMINGS_FILE := f; ficheiro_tmp := tmp;
     copias_bak := copias_bak p;
     _PRECISA_BACKUP_TIMINGS := _PRECISA_BACKUP_TIMINGS p |}.

(** [json.dump(timings_dados, f)] on the temporary file *)
Definition escrever_tmp (p : Processo) : Processo :=
  com_ficheiros p (TIMINGS_FILE p) (Some (JsonDe (timings_dados p))).

(** [os.replace(tmp, TIMINGS_FILE)] *)
Definition os_replace (p : Processo) : Processo :=
  com_ficheiros p (ficheiro_tmp p) None.

(** The temporary file after a write that raised. *)
Definition escrita_falhada (amb : Ambiente) (p : Processo) : Processo :=
  match escrita_parcial amb with
  | Some c => com_ficheiros p (TIMINGS_FILE p) (Some c)
  | None => p
  end.

(** [if os.path.exists(tmp): try: os.remove(tmp) except Exception: pass] *)
Definition remover_tmp (amb : Ambiente) (p : Processo) : Processo :=
  match ficheiro_tmp p with
  | Some _ => if remove_ok amb then com_ficheiros p (TIMINGS_FILE p) None else p
  | None => p
  end.

(** [total_anterior]: the total of the file on disk, [None] when the file
    is missing, unreadable, or its total cannot be computed. *)
Definition total_anterior_de (p : Processo) : option Z :=
  match TIMINGS_FILE p with
  | Some (JsonDe antigo) =>
      match _total_minutos_timings antigo with
      | Retorna t => Some t
      | Levanta _ => None
      end
  | _ => None
  end.

Definition meio : Float64.float := Float64.of_decimal false 5 (-1).

(** [total_anterior and total_anterior > 0 and novo_total < total_anterior
    * 0.5]: the previous total is turned into a float, which raises
    OverflowError when it is too large, and halved; the new total is
    compared with the product as an integer. *)
Definition reducao_suspeita (novo_total : Z) (total_anterior : option Z) : Resultado bool :=
  match total_anterior with
  | Some t =>
      if negb (t =? 0) && (0 <? t) then
        x ← Float64.of_int_py t;
        Retorna (Float64.int_ltb novo_total (Float64.mul x meio))
      else Retorna false
  | None => Retorna false
  end.

Definition _guardar_timings_para_ficheiro (amb : Ambiente) (p : Processo)
  : Processo * Resultado bool :=
  match _total_minutos_timings (timings_dados p) with
  | Levanta e => (p, Levanta e)
  | Retorna novo_total =>
      match reducao_suspeita novo_total (total_anterior_de p) with
      | Levanta e => (p, Levanta e)
      | Retorna true => (p, Retorna false)
      | Retorna false =>
          if negb (escrita_ok amb) then (remover_tmp amb (escrita_falhada amb p), Retorna false)
          else if negb (replace_ok amb) then (remover_tmp amb (escrever_tmp p), Retorna false)
          else (os_replace (escrever_tmp p), Retorna true)
      end
  end.

(** The backup taken before the save when the flag is up and the file exists. *)
Definition copiar_bak (amb : Ambiente) (p : Processo) : Processo :=
  match _PRECISA_BACKUP_TIMINGS p, TIMINGS_FILE p with
  | true, Some c =>
      if copia_ok amb then
        {| timings_dados := timings_dados p; TIMINGS_FILE := TIMINGS_FILE p;
           ficheiro_tmp := ficheiro_tmp p; copias_bak := (copias_bak p ++ [c])%list;
           _PRECISA_BACKUP_TIMINGS := false |}
      else p
  | _, _ => p
  end.

(** [_persistir_timings]; the copy of the ledger into [dados.json] that
    follows a successful save belongs to another module.  The source
    returns nothing: the second component is what the call of
    [_guardar_timings_para_ficheiro] inside it answered or raised. *)
Definition _persistir_timings (amb : Ambiente) (p : Processo) : Processo * Resultado bool :=
  _guardar_timings_para_ficheiro amb (copiar_bak amb p).

Definition com_dados (p : Processo) (td : Ledger) : Processo :=
  {| timings_dados := td; TIMINGS_FILE := TIMINGS_FILE p;
     ficheiro_tmp := ficheiro_tmp p; copias_bak := copias_bak p;
     _PRECISA_BACKUP_TIMINGS := _PRECISA_BACKUP_TIMINGS p |}.

(** The endpoint [/timings/limpar]: the process after the request and what
    the save answered. *)
Definition limpar_timings (amb : Ambiente) (confirm_limpar : string) (p : Processo)
  : Processo * Resultado bool :=
  if negb (String.eqb confirm_limpar "APAGAR") then (p, Levanta (HTTPException 400))
  else _persistir_timings amb (com_dados p ∅).

(** The endpoint [/timings/excluir]: the soft delete of a company. *)
Definition marcar_apagado (rec : option RegistoEmpresa) : RegistoEmpresa :=
  match rec with
  | None => {| meses := ∅; extra_mensal := 0; apagado := true; por_tecnico := None |}
  | Some r =>
      {| meses := meses r; extra_mensal := _extra_mes r; apagado := true;
         por_tecnico := por_tecnico r |}
  end.

Definition excluir_timing_empresa (amb : Ambiente) (ano : Z) (empresa : string)
    (p : Processo) : Processo * Resultado bool :=
  _persistir_timings amb
    (com_dados p
       (no_ano ano (λ ano_dict, pd_set empresa (marcar_apagado (pd_get empresa ano_dict)) ano_dict)
               (timings_dados p))).


(** ** Sorting and [max] as Python runs them *)

Section ordenacao.
Context {A : Type}.

(** [x] put into a descending list, before the first element that is not
    above it. *)
Fixpoint inserir_desc (menor : A → A → bool) (x : A) (l : list A) : list A :=
  match l with
  | [] => [x]
  | y :: l' => if menor x y then y :: inserir_desc menor x l' else x :: l
  end.

(** [sorted(l, reverse=True)]: descending, elements that compare equal stay
    in their order; [menor] is the [<] of the elements (or of their keys). *)
Definition sorted_reverse (menor : A → A → bool) (l : list A) : list A :=
  foldr (inserir_desc menor) [] l.

(** [max(x0 :: l, key=...)]: the first of the greatest elements; [maior] is
    the [>] of the keys. *)
Definition py_max (maior : A → A → bool) (x0 : A) (l : list A) : A :=
  foldl (λ best x, if maior x best then x else best) x0 l.

End ordenacao.

(** ** [difflib]

    Modelled from the library's documentation: [SequenceMatcher(None, a, b)]
    on texts whose characters are single bytes and with [b] shorter than 200
    characters (no element is then set aside as popular). *)

Module Difflib.

(** The length of the longest common prefix *)
Fixpoint comum (a b : list ascii) : nat :=
  match a, b with
  | x :: a', y :: b' => if Ascii.eqb x y then S (comum a' b') else O
  | _, _ => O
  end.

(** For a block starting at the head of [a]: the start [j] in [b] (counted
    from [j0]) and the length of the longest one, the earliest start among
    the longest. *)
Fixpoint melhor_em_b (a b : list ascii) (j0 : nat) (best : nat * nat) : nat * nat :=
  match b with
  | [] => best
  | _ :: b' =>
      let k := comum a b in
      melhor_em_b a b' (S j0) (if (best.2 <? k)%nat then (j0, k) else best)
  end.

Fixpoint find_longest_match_de (a b : list ascii) (i0 : nat) (best : nat * nat * nat)
  : nat * nat * nat :=
  match a with
  | [] => best
  | _ :: a' =>
      let '(j, k) := melhor_em_b a b O (O, O) in
      find_longest_match_de a' b (S i0) (if (best.2 <? k)%nat then (i0, j, k) else best)
  end.

(** [find_longest_match]: [(i, j, k)] with [a[i:i+k] == b[j:j+k]], [k]
    greatest, then [i] least, then [j] least; [(0, 0, 0)] without a match. *)
Definition find_longest_match (a b : list ascii) : nat * nat * nat :=
  find_longest_match_de a b O (O, O, O).

(** The total size of [get_matching_blocks()]: the longest block, then the
    same to its left and to its right. *)
Fixpoint matches (n : nat) (a b : list ascii) : nat :=
  match n with
  | O => O
  | S n' =>
      let '(i, j, k) := find_longest_match a b in
      if (k =? 0)%nat then O
      else (matches n' (take i a) (take j b) + k
            + matches n' (drop (i + k) a) (drop (j + k) b))%nat
  end.

(** [_calculate_ratio]: [2.0 * matches / length], and [1.0] for no length *)
Definition _calculate_ratio (matches length : nat) : Float64.float :=
  if (length =? 0)%nat then Float64.of_int 1
  else Float64.div (Float64.mul (Float64.of_int 2) (Float64.of_int (Z.of_nat matches)))
                   (Float64.of_int (Z.of_nat length)).

(** [SequenceMatcher(None, a, b).ratio()] *)
Definition ratio (a b : string) : Float64.float :=
  let la := list_ascii_of_string a in
  let lb := list_ascii_of_string b in
  _calculate_ratio (matches (List.length la) la lb) (List.length la + List.length lb).

End Difflib.

(** ** Data of the worked examples *)

Module Exemplos.

(** A client registry with one company and its technician *)
Definition clientes : list Cliente :=
  [ {| cli_nome := Some "Gama, Lda"; cli_cliente := None; cli_empresa := None;
       cli_designacao := None; cli_tecnico := Some "Ana Rodrigues";
       cli_carteira := None |} ].

(** A sheet in the legacy layout and a sheet in the tabular layout *)
Definition folha1 : Folha :=
  [ [Some "Acme Lda"; Some "100"];
    [Some "    Pedro Fernandes"; Some "60"];
    [Some "    Zed"; Some "30"];
    [Some "Beta"; Some "2h"];
    [Some "Gama"; None];
    [Some "    Armando Dias"; Some "1.5"];
    [Some "Delta"; None];
    [Some "    Armando Dias"; Some "10m"] ].

Definition folha2 : Folha :=
  [ [Some "Cliente"; Some "Tecnico"; Some "Tempo"];
    [Some "Acme"; Some "Pedro Miguel da Silva Fernandes"; Some "60"];
    [Some "Acme"; Some "Ana Rodrigues"; Some "15"];
    [Some "Beta"; None; Some "abc"] ].

Definition ficheiros : list (list Folha) := [[folha1; folha2]].

Definition registo_de (minutos_de_marco : Z) (apagada : bool) : RegistoEmpresa :=
  {| meses := {[ inl 3 := minutos_de_marco ]}; extra_mensal := 0; apagado := apagada;
     por_tecnico := None |}.

(** A ledger whose only company of 2025 is deleted *)
Definition td0 : Ledger := {[ "2025" := [("Acme Lda", registo_de 45 true)] ]}.

(** The ledger on disk (100 minutes) and the ledger in memory (40 minutes) *)
Definition antigo : Ledger := {[ "2025" := [("Acme Lda", registo_de 100 false)] ]}.
Definition novo : Ledger := {[ "2025" := [("Acme Lda", registo_de 40 false)] ]}.


(** Totals beyond the integers that a float holds exactly: 2^53 + 1 minutes
    on disk (a month and twelve times the extra) against 2^52 in memory;
    and a file whose total no float holds *)
Definition antigo_grande : Ledger :=
  {[ "2025" := [("Acme Lda",
                 {| meses := {[ inl 3 := 2 ^ 51 + 1 ]}; extra_mensal := 2 ^ 49;
                    apagado := false; por_tecnico := None |})] ]}.
Definition novo_grande : Ledger := {[ "2025" := [("Acme Lda", registo_de (2 ^ 52) false)] ]}.

Definition p_grande : Processo :=
  {| timings_dados := novo_grande; TIMINGS_FILE := Some (JsonDe antigo_grande);
     ficheiro_tmp := None; copias_bak := []; _PRECISA_BACKUP_TIMINGS := false |}.

Definition antigo_enorme : Ledger :=
  {[ "2025" := [("Acme Lda",
                 {| meses := ∅; extra_mensal := 2 ^ 1021; apagado := false;
                    por_tecnico := None |})] ]}.

Definition p_enorme : Processo :=
  {| timings_dados := novo; TIMINGS_FILE := Some (JsonDe antigo_enorme);
     ficheiro_tmp := None; copias_bak := []; _PRECISA_BACKUP_TIMINGS := false |}.

Definition amb0 : Ambiente :=
  {| escrita_ok := true; escrita_parcial := None; replace_ok := true; remove_ok := true;
     copia_ok := true |}.


(** Company maps for the matcher *)
Definition ano_inclusao : AnoDict :=
  [("Aa", registo_de 1 false); ("Aa, Me", registo_de 2 false)].

Definition ano_so_sufixos : AnoDict :=
  [("Sociedade Lda", registo_de 2 false); ("Beta", registo_de 1 false)].

Definition ano_fuzzy : AnoDict :=
  [("Transportes Silvo", registo_de 2 false); ("Beta", registo_de 1 false)].

Definition ano_empate : AnoDict :=
  [("Transportes Silvo", registo_de 2 false); ("Transportes Silve", registo_de 1 false)].

End Exemplos.

(** ** More data for the worked examples *)

Module ExemplosFormularios.


(** Two uploads of one small sheet: the second repeats the first *)
Definition folha4 : Folha :=
  [ [Some "Cliente"; Some "Tecnico"; Some "Tempo"];
    [Some "Acme"; Some "Pedro Fernandes"; Some "60"] ].

Definition ficheiros2 : list (list Folha) := [[folha4]; [folha4]].

(** A tabular sheet that ends with a line of totals *)
Definition folha5 : Folha :=
  [ [Some "Cliente"; Some "Tecnico"; Some "Tempo"];
    [Some "Acme"; None; Some "60"];
    [Some "Total"; None; Some "60"] ].

(** The fields of the forms: names, and the text typed beside each *)
Definition nomes : list string := ["Acme Lda"; ""; "Nova"; "Acme Lda"].
Definition campos : list string := ["1h30m"; "x"; "45"; "2h"].

(** A process whose ledger holds Acme Lda with 40 minutes in March and an
    extra of 7 minutes, and no file yet *)
Definition td1 : Ledger :=
  {[ "2025" := [("Acme Lda",
                 {| meses := {[ inl 3 := 40 ]}; extra_mensal := 7; apagado := true;
                    por_tecnico := None |})] ]}.

Definition p1 : Processo :=
  {| timings_dados := td1; TIMINGS_FILE := None; ficheiro_tmp := None;
     copias_bak := []; _PRECISA_BACKUP_TIMINGS := false |}.

End ExemplosFormularios.
(** ** The import engine of [timings.py] *)

Section Programa.

(** [_norm_empresa_forte]: the strong company-name normaliser.  It returns the
    empty key on the empty name (its first statement). *)
Variable _norm_empresa_forte : string → string.
Hypothesis _norm_empresa_forte_vazio : _norm_empresa_forte "" = "".

(** [_norm_nome_forte]: the normaliser of technician names. *)
Variable _norm_nome_forte : string → string.

(** [_normalize_header]: the normaliser of header cells ([None] gives [""]). *)
Variable _normalize_header : option string → string.

(** The client registry [estado["clientes"]]. *)
Variable clientes : list Cliente.

(** *** Technician resolution *)

(** The calls of [registrar] in [_build_aliases_canonicos], in order: the
    canonical name first, then its variants. *)
Definition registos_de_aliases : list (string * list string) :=
  [ ("Pedro Fernandes",
     ["Pedro Miguel da Silva Fernandes"; "Pedro Fernandes"]);
    ("Ana Rodrigues",
     ["Ana Catarina Lourenço Rodrigues"; "Ana Catarina Lorenco Rodrigues";
      "Ana Rodrigues"]);
    ("Daniela Fernandes",
     ["Marta Daniela Francisco Fernandes"; "Daniela Francisco Fernandes"]);
    ("Celine Santos",
     ["Celine"; "Celine Rodrigues dos Santos"; "Celine Santos";
      "ANTONIO CANDIDO GONÇALVES DIAS"; "ANTONIO CANDIDO GONCALVES DIAS"]);
    ("M Albertina Alves",
     ["Maria Albertina Pereira Alves"; "M Albertina Alves"]);
    ("M Luzia Moreira",
     ["Luzia Maria Gonçalves Moreira"; "Luzia Maria Goncalves Moreira";
      "M Luzia Moreira"]);
    ("João Pedro Alves",
     ["João Pedro Gonçalves Alves"; "Joao Pedro Goncalves Alves";
      "João Pedro Alves"; "Joao Pedro Alves"]) ].

Definition registrar (alias_map : gmap string string) (r : string * list string)
  : gmap string string :=
  let '(canonico, variantes) := r in
  foldl (λ m nome,
           let norm := _norm_nome_forte nome in
           if Py.truthy norm then <[norm := canonico]> m else m)
        alias_map (canonico :: variantes).

Definition ALIASES_CANONICOS : gmap string string :=
  foldl registrar ∅ registos_de_aliases.

Definition ARMANDO_NORMS : gset string :=
  {[ _norm_nome_forte "Armando Palhão Dias";
     _norm_nome_forte "Armando Palhao Dias";
     _norm_nome_forte "Armando Dias" ]}.

Definition _resolver_tecnico (nome_excel : option string) : string * option string :=
  match nome_excel with
  | None => ("desconhecido", None)
  | Some nome =>
      if negb (Py.truthy nome) then ("desconhecido", None)
      else
        let norm_forte := _norm_nome_forte nome in
        if negb (Py.truthy norm_forte) then ("desconhecido", None)
        else if bool_decide (norm_forte ∈ ARMANDO_NORMS) then ("armando", None)
        else
          match ALIASES_CANONICOS !! norm_forte with
          | Some canonico =>
              if Py.truthy canonico then ("canonico", Some canonico)
              else ("desconhecido", None)
          | None => ("desconhecido", None)
          end
  end.

Definition sem_tecnico : string := "Sem técnico".

Definition falsy (o : option string) : bool :=
  match o with
  | Some s => negb (Py.truthy s)
  | None => true
  end.

Definition _canonical_tecnico_nome (s : option string) : string :=
  if falsy s then sem_tecnico
  else
    let '(tipo, canonico) := _resolver_tecnico s in
    if String.eqb tipo "canonico" && negb (falsy canonico) then default "" canonico
    else if String.eqb tipo "armando" then sem_tecnico
    else
      let s' := Py.strip (default "" s) in
      if Py.truthy s' then s' else sem_tecnico.

(** [cli.get("nome") or cli.get("cliente") or cli.get("empresa") or
    cli.get("designacao")] *)
Definition nome_do_cliente (cli : Cliente) : option string :=
  Py.or_ (cli_nome cli)
    (Py.or_ (cli_cliente cli) (Py.or_ (cli_empresa cli) (cli_designacao cli))).

(** The loop of [_tecnico_inferido_empresa] over the registry. *)
Fixpoint inferir_em (alvo_norm : string) (cls : list Cliente) : option string :=
  match cls with
  | [] => None
  | cli :: resto =>
      let nome_cli := nome_do_cliente cli in
      if falsy nome_cli then inferir_em alvo_norm resto
      else if negb (String.eqb (_norm_empresa_forte (default "" nome_cli)) alvo_norm)
      then inferir_em alvo_norm resto
      else
        let tecnico_raw := Py.or_ (cli_tecnico cli) (cli_carteira cli) in
        if falsy tecnico_raw then None
        else
          let '(tipo, canonico) := _resolver_tecnico tecnico_raw in
          if String.eqb tipo "canonico" && negb (falsy canonico) then canonico
          else
            let tecnico_str := Py.strip (default "" tecnico_raw) in
            if Py.truthy tecnico_str then Some tecnico_str else None
  end.

Definition _tecnico_inferido_empresa (empresa_norm : string) : option string :=
  if negb (Py.truthy empresa_norm) then None
  else
    let alvo_norm := _norm_empresa_forte empresa_norm in
    if negb (Py.truthy alvo_norm) then None
    else inferir_em alvo_norm clientes.

(** *** Ledger operations *)

(** The record [_adicionar_tempo_empresa] gives to a company it creates. *)
Definition registo_novo : RegistoEmpresa :=
  {| meses := ∅; extra_mensal := 0; apagado := false; por_tecnico := Some ∅ |}.

(** The mutation of the company record by [_adicionar_tempo_empresa]. *)
Definition somar_minutos (mes minutos : Z) (tecnico : option string)
    (emp_dict : RegistoEmpresa) : RegistoEmpresa :=
  let atual := default 0 (meses emp_dict !! inl mes) in
  {| meses := <[inl mes := atual + minutos]> (meses emp_dict);
     extra_mensal := extra_mensal emp_dict;
     apagado := false;
     por_tecnico :=
       if falsy tecnico then por_tecnico emp_dict
       else
         let tecnico_norm := _canonical_tecnico_nome tecnico in
         let tec_dict := default ∅ (por_tecnico emp_dict) in
         let tec_registos := default ∅ (tec_dict !! tecnico_norm) in
         let mes_key := inr (str_int mes) in
         let atual_tec := default 0 (tec_registos !! mes_key) in
         Some (<[tecnico_norm := <[mes_key := atual_tec + minutos]> tec_registos]> tec_dict) |}.

Definition _adicionar_tempo_empresa (ano mes : Z) (empresa : string) (minutos : Z)
    (tecnico : option string) (td : Ledger) : Ledger :=
  if minutos <=? 0 then td
  else no_ano ano (pd_upsert empresa registo_novo (somar_minutos mes minutos tecnico)) td.

Definition _encontrar_empresa_existente_por_norm (ano_dict : AnoDict)
    (empresa_norm : string) : option string :=
  fst <$> List.find (λ e, String.eqb (_norm_empresa_forte (fst e)) empresa_norm) ano_dict.


(** *** Reading a sheet in the legacy (indented workload) layout *)

Definition _is_linha_total (texto : string) : bool :=
  if negb (Py.truthy texto) then false
  else
    let norm := _normalize_header (Some texto) in
    if negb (Py.truthy norm) then false
    else
      existsb (λ kw, PyTxt.contains kw norm)
        ["total"; "subtotal"; "grand total"; "soma"; "sum"].

(** The local state of [_processar_sheet_workload]. *)
Record EstadoWorkload := {
  w_registos : list Detalhe;
  w_totais_fallback : list (string * Z);
  w_empresa_atual : option string;
  w_resumo_atual_min : Z;
  w_registos_empresa : list Detalhe;
  w_diag : Diag
}.

Definition finalizar_empresa (st : EstadoWorkload) : EstadoWorkload :=
  match w_empresa_atual st with
  | None => st
  | Some empresa_atual =>
      if negb (Py.truthy empresa_atual) then st
      else
        let resumo := w_resumo_atual_min st in
        match w_registos_empresa st with
        | _ :: _ =>
            let d := w_diag st in
            let d' :=
              if 0 <? resumo then
                {| invalidos := invalidos d;
                   ignorados_por_empresa :=
                     acumular empresa_atual resumo (ignorados_por_empresa d);
                   resumos_ignorados_por_empresa :=
                     acumular empresa_atual resumo (resumos_ignorados_por_empresa d) |}
              else d in
            {| w_registos := (w_registos st ++ w_registos_empresa st)%list;
               w_totais_fallback := w_totais_fallback st;
               w_empresa_atual := None;
               w_resumo_atual_min := 0;
               w_registos_empresa := [];
               w_diag := d' |}
        | [] =>
            {| w_registos := w_registos st;
               w_totais_fallback :=
                 if 0 <? resumo
                 then pd_acumular empresa_atual resumo (w_totais_fallback st)
                 else w_totais_fallback st;
               w_empresa_atual := None;
               w_resumo_atual_min := 0;
               w_registos_empresa := [];
               w_diag := w_diag st |}
        end
  end.

(** The body of the loop over the rows. *)
Definition linha_workload (st : EstadoWorkload) (row : Linha) : Resultado EstadoWorkload :=
  match row with
  | [] => Retorna st
  | None :: _ => Retorna st
  | Some texto :: cauda =>
      let col2 := match cauda with c :: _ => c | [] => None end in
      let texto_strip := Py.strip texto in
      if negb (Py.truthy texto_strip) then Retorna st
      else if existsb (String.eqb (PyTxt.upper texto_strip)) ["EMPRESA"; "TOTAL"]
              || _is_linha_total texto_strip then Retorna st
      else if PyTxt.contains "MAPA DE TEMPO TRABALHADO" (PyTxt.upper texto_strip)
      then Retorna st
      else if PyTxt.startswith "    " texto then
        match w_empresa_atual st with
        | None => Retorna st
        | Some empresa_atual =>
            if negb (Py.truthy empresa_atual) then Retorna st
            else
              minutos ← _parse_tempo_para_minutos col2;
              if minutos <=? 0 then Retorna st
              else
                let '(tipo, canonico) := _resolver_tecnico (Some texto_strip) in
                if String.eqb tipo "desconhecido" then
                  let d := w_diag st in
                  Retorna
                    {| w_registos := w_registos st;
                       w_totais_fallback := w_totais_fallback st;
                       w_empresa_atual := w_empresa_atual st;
                       w_resumo_atual_min := w_resumo_atual_min st;
                       w_registos_empresa := w_registos_empresa st;
                       w_diag :=
                         {| invalidos := acumular texto_strip minutos (invalidos d);
                            ignorados_por_empresa :=
                              acumular empresa_atual minutos (ignorados_por_empresa d);
                            resumos_ignorados_por_empresa :=
                              resumos_ignorados_por_empresa d |} |}
                else
                  Retorna
                    {| w_registos := w_registos st;
                       w_totais_fallback := w_totais_fallback st;
                       w_empresa_atual := w_empresa_atual st;
                       w_resumo_atual_min := w_resumo_atual_min st;
                       w_registos_empresa :=
                         (w_registos_empresa st
                            ++ [(empresa_atual, tipo, canonico, minutos)])%list;
                       w_diag := w_diag st |}
        end
      else
        let st' := finalizar_empresa st in
        resumo ← _parse_tempo_para_minutos col2;
        Retorna
          {| w_registos := w_registos st';
             w_totais_fallback := w_totais_fallback st';
             w_empresa_atual := Some texto_strip;
             w_resumo_atual_min := resumo;
             w_registos_empresa := w_registos_empresa st';
             w_diag := w_diag st' |}
  end.

(** A loop whose body may raise. *)
Fixpoint para_cada {S X : Type} (corpo : S → X → Resultado S) (st : S) (l : list X)
  : Resultado S :=
  match l with
  | [] => Retorna st
  | x :: l' => st' ← corpo st x; para_cada corpo st' l'
  end.

Definition _processar_sheet_workload (sheet : Folha) (d : Diag)
  : Resultado (list Detalhe * list (string * Z) * Diag) :=
  st ← para_cada linha_workload
         {| w_registos := []; w_totais_fallback := []; w_empresa_atual := None;
            w_resumo_atual_min := 0; w_registos_empresa := []; w_diag := d |}
         sheet;
  let st' := finalizar_empresa st in
  Retorna (w_registos st', w_totais_fallback st', w_diag st').


(** *** Reading a sheet in the tabular layout *)

Definition EMPRESA_HEADER_NAMES : list string :=
  ["empresa"; "cliente"; "cliente empresa"; "empresa cliente"; "designacao";
   "designacao social"; "nome cliente"; "cliente nome"].

Definition TECNICO_HEADER_NAMES : list string :=
  ["tecnico"; "tecnico responsavel"; "responsavel"; "responsavel tecnico";
   "colaborador"; "tecnica"].

Definition TEMPO_HEADER_NAMES : list string :=
  ["tempo"; "horas"; "horas totais"; "tempo m"; "tempo min"; "tempo minutos";
   "minutos"; "total minutos"; "duracao"; "duracao minutos"; "duracao m"].

Definition pertence (x : string) (l : list string) : bool := existsb (String.eqb x) l.

(** The inner loop over the normalised cells of a candidate header row. *)
Fixpoint marcar_colunas (valores_norm : list string) (idx : nat)
    (ids : option nat * option nat * option nat) : option nat * option nat * option nat :=
  match valores_norm with
  | [] => ids
  | nome :: resto =>
      let '(idx_empresa, idx_tecnico, idx_tempo) := ids in
      let ids' :=
        if negb (Py.truthy nome) then ids
        else
          (if is_Some_dec idx_empresa then idx_empresa
           else if pertence nome EMPRESA_HEADER_NAMES then Some idx else None,
           if is_Some_dec idx_tecnico then idx_tecnico
           else if pertence nome TECNICO_HEADER_NAMES then Some idx else None,
           if is_Some_dec idx_tempo then idx_tempo
           else if pertence nome TEMPO_HEADER_NAMES then Some idx else None) in
      marcar_colunas resto (S idx) ids'
  end.

(** The search of the header row: the column indexes and the rows below it. *)
Fixpoint procurar_cabecalho (linhas : list Linha)
    (ids : option nat * option nat * option nat) : option (nat * nat * nat * list Linha) :=
  match linhas with
  | [] => None
  | row :: resto =>
      let valores_norm := map _normalize_header row in
      if negb (existsb Py.truthy valores_norm) then procurar_cabecalho resto ids
      else
        match marcar_colunas valores_norm 0 ids with
        | (Some ie, Some it, Some im) => Some (ie, it, im, resto)
        | ids' => procurar_cabecalho resto ids'
        end
  end.

(** The local state of the loop over the data rows. *)
Record EstadoColunas := {
  c_registos_por_empresa : list (string * list (string * option string * Z));
  c_resumos_por_empresa : list (string * Z);
  c_diag : Diag
}.

Definition linha_colunas (ie it im : nat) (st : EstadoColunas) (row : Linha)
  : Resultado EstadoColunas :=
  match row !! ie, row !! it, row !! im with
  | Some empresa_val, Some tecnico_val, Some tempo_val =>
      match empresa_val with
      | None => Retorna st
      | Some ev =>
          let empresa := Py.strip ev in
          if negb (Py.truthy empresa) then Retorna st
          else if _is_linha_total empresa then Retorna st
          else
            minutos ← _parse_tempo_para_minutos tempo_val;
            if minutos <=? 0 then Retorna st
            else
              let tecnico := match tecnico_val with Some t => Py.strip t | None => "" end in
              if negb (Py.truthy tecnico) then
                Retorna
                  {| c_registos_por_empresa := c_registos_por_empresa st;
                     c_resumos_por_empresa :=
                       pd_acumular empresa minutos (c_resumos_por_empresa st);
                     c_diag := c_diag st |}
              else
                let '(tipo, canonico) := _resolver_tecnico (Some tecnico) in
                if String.eqb tipo "desconhecido" then
                  if negb (_is_linha_total tecnico) then
                    let d := c_diag st in
                    Retorna
                      {| c_registos_por_empresa := c_registos_por_empresa st;
                         c_resumos_por_empresa := c_resumos_por_empresa st;
                         c_diag :=
                           {| invalidos := acumular tecnico minutos (invalidos d);
                              ignorados_por_empresa :=
                                acumular empresa minutos (ignorados_por_empresa d);
                              resumos_ignorados_por_empresa :=
                                resumos_ignorados_por_empresa d |} |}
                  else Retorna st
                else
                  Retorna
                    {| c_registos_por_empresa :=
                         pd_upsert empresa []
                           (λ registos, (registos ++ [(tipo, canonico, minutos)])%list)
                           (c_registos_por_empresa st);
                       c_resumos_por_empresa := c_resumos_por_empresa st;
                       c_diag := c_diag st |}
      end
  | _, _, _ => Retorna st
  end.

Definition tem_tipo_detalhe (tipo : string) : bool :=
  String.eqb tipo "canonico" || String.eqb tipo "armando".

(** The state of the loop that turns the grouped rows into results. *)
Record EstadoFecho := {
  f_resultados : list Detalhe;
  f_totais_fallback : list (string * Z);
  f_resumos_por_empresa : list (string * Z);
  f_diag : Diag
}.

Definition fechar_empresa (st : EstadoFecho)
    (e : string * list (string * option string * Z)) : EstadoFecho :=
  let '(empresa, detalhes) := e in
  let tem_detalhe := existsb (λ d, tem_tipo_detalhe (fst (fst d))) detalhes in
  let resumo := default 0 (pd_get empresa (f_resumos_por_empresa st)) in
  let resumos' := pd_pop empresa (f_resumos_por_empresa st) in
  if tem_detalhe then
    let d := f_diag st in
    {| f_resultados :=
         (f_resultados st
            ++ omap (λ '(tipo, canonico, minutos),
                       if tem_tipo_detalhe tipo && (0 <? minutos)
                       then Some (empresa, tipo, canonico, minutos) else None)
                    detalhes)%list;
       f_totais_fallback := f_totais_fallback st;
       f_resumos_por_empresa := resumos';
       f_diag :=
         if 0 <? resumo then
           {| invalidos := invalidos d;
              ignorados_por_empresa := acumular empresa resumo (ignorados_por_empresa d);
              resumos_ignorados_por_empresa :=
                acumular empresa resumo (resumos_ignorados_por_empresa d) |}
         else d |}
  else
    let total := resumo + foldr Z.add 0 (map snd detalhes) in
    {| f_resultados := f_resultados st;
       f_totais_fallback :=
         if 0 <? total then pd_acumular empresa total (f_totais_fallback st)
         else f_totais_fallback st;
       f_resumos_por_empresa := resumos';
       f_diag := f_diag st |}.

Definition _processar_sheet_colunas (sheet : Folha) (d : Diag)
  : Resultado (option (list Detalhe * list (string * Z) * Diag)) :=
  match procurar_cabecalho sheet (None, None, None) with
  | None => Retorna None
  | Some (ie, it, im, dados) =>
      st ← para_cada (linha_colunas ie it im)
             {| c_registos_por_empresa := []; c_resumos_por_empresa := []; c_diag := d |}
             dados;
      let fe :=
        foldl fechar_empresa
          {| f_resultados := []; f_totais_fallback := [];
             f_resumos_por_empresa := c_resumos_por_empresa st; f_diag := c_diag st |}
          (c_registos_por_empresa st) in
      let totais :=
        foldl (λ tf '(empresa, minutos),
                 if 0 <? minutos then pd_acumular empresa minutos tf else tf)
              (f_totais_fallback fe) (f_resumos_por_empresa fe) in
      Retorna (Some (f_resultados fe, totais, f_diag fe))
  end.

(** *** Reading a workbook *)

(** The two loops of [_importar_excel_timings] that turn the rows of a sheet
    into the facts of the batch. *)
Definition registos_da_folha (registos_sheet : list Detalhe)
    (totais_sheet : list (string * Z)) : list Registo :=
  (omap (λ '(empresa, tipo, canonico, minutos),
           if minutos <=? 0 then None
           else
             let empresa_norm := _norm_empresa_forte empresa in
             if negb (Py.truthy empresa_norm) then None
             else Some {| empresa := empresa; empresa_norm := empresa_norm;
                          tipo := tipo; canonico := canonico; minutos := minutos |})
        registos_sheet
   ++
   omap (λ '(empresa, minutos),
           if minutos <=? 0 then None
           else
             let empresa_norm := _norm_empresa_forte empresa in
             if negb (Py.truthy empresa_norm) then None
             else Some {| empresa := empresa; empresa_norm := empresa_norm;
                          tipo := "resumo"; canonico := None; minutos := minutos |})
        totais_sheet)%list.

Definition folha_excel (st : list Registo * Diag) (sh : Folha)
  : Resultado (list Registo * Diag) :=
  let '(registos_validos, d) := st in
  resultado_tabular ← _processar_sheet_colunas sh d;
  '(registos_sheet, totais_sheet, d') ←
    match resultado_tabular with
    | Some r => Retorna r
    | None => _processar_sheet_workload sh d
    end;
  Retorna ((registos_validos ++ registos_da_folha registos_sheet totais_sheet)%list, d').

(** The workbook is the list of its sheets, in the order of [wb.sheetnames]. *)
Definition _importar_excel_timings (folhas : list Folha) : Resultado (list Registo * Diag) :=
  para_cada folha_excel ([], diag_vazio) folhas.


(** *** Deduplication inside a batch *)

(** [a or b] on text *)
Definition ou (a b : string) : string := if Py.truthy a then a else b.

(** The technician part of the identity of a fact; [None] when the fact is
    skipped (a "canonico" fact without its canonical name). *)
Definition tecnico_chave_de (registo : Registo) : option string :=
  let tipo := ou (tipo registo) "resumo" in
  if String.eqb tipo "canonico" then
    match canonico registo with
    | Some c => if Py.truthy c then Some (_norm_nome_forte c) else None
    | None => None
    end
  else if String.eqb tipo "armando" then Some "__ARMANDO__"
  else Some "__RESUMO__".

(** The body of the loop over the facts of a file. *)
Definition dedup_registo (mes : Z) (lt : Lote) (registo : Registo) : Lote :=
  let minutos := minutos registo in
  if minutos <=? 0 then lt
  else
    let empresa_norm := empresa_norm registo in
    if negb (Py.truthy empresa_norm) then lt
    else
      let empresa_display := ou (empresa registo) empresa_norm in
      let displays :=
        match empresa_display_por_norm lt !! empresa_norm with
        | Some _ => empresa_display_por_norm lt
        | None => <[empresa_norm := empresa_display]> (empresa_display_por_norm lt)
        end in
      match tecnico_chave_de registo with
      | None =>
          {| registos_unicos := registos_unicos lt;
             seen_registos := seen_registos lt;
             empresa_display_por_norm := displays;
             empresas_afetadas_norm := empresas_afetadas_norm lt;
             duplicados_por_empresa := duplicados_por_empresa lt;
             total_minutos_deduplicados := total_minutos_deduplicados lt |}
      | Some tecnico_chave =>
          let chave_registo := (empresa_norm, tecnico_chave, mes, minutos) in
          if bool_decide (chave_registo ∈ seen_registos lt) then
            let empresa_repr := default empresa_display (displays !! empresa_norm) in
            {| registos_unicos := registos_unicos lt;
               seen_registos := seen_registos lt;
               empresa_display_por_norm := displays;
               empresas_afetadas_norm := empresas_afetadas_norm lt;
               duplicados_por_empresa :=
                 acumular empresa_repr minutos (duplicados_por_empresa lt);
               total_minutos_deduplicados := total_minutos_deduplicados lt + minutos |}
          else
            {| registos_unicos := (registos_unicos lt ++ [registo])%list;
               seen_registos := seen_registos lt ∪ {[chave_registo]};
               empresa_display_por_norm := displays;
               empresas_afetadas_norm := empresas_afetadas_norm lt ∪ {[empresa_norm]};
               duplicados_por_empresa := duplicados_por_empresa lt;
               total_minutos_deduplicados := total_minutos_deduplicados lt |}
      end.

(** [for k, v in d.items(): agregados[k] = agregados.get(k, 0) + v] *)
Definition agregar (agregados d : gmap string Z) : gmap string Z :=
  map_fold acumular agregados d.

(** The body of the loop over the uploaded workbooks. *)
Definition ler_ficheiro (mes : Z) (st : Lote * Diag) (folhas : list Folha)
  : Resultado (Lote * Diag) :=
  let '(lt, ag) := st in
  '(registos, d) ← _importar_excel_timings folhas;
  Retorna
    (foldl (dedup_registo mes) lt registos,
     {| invalidos := agregar (invalidos ag) (invalidos d);
        ignorados_por_empresa :=
          agregar (ignorados_por_empresa ag) (ignorados_por_empresa d);
        resumos_ignorados_por_empresa :=
          agregar (resumos_ignorados_por_empresa ag) (resumos_ignorados_por_empresa d) |}).

(** *** Applying a batch to the ledger *)

(** [empresa_nome_para_inserir]: for each touched company key, the ledger name
    that receives its minutes. *)
Definition nome_para_inserir (ano_dict : AnoDict) (lt : Lote) (empresa_norm : string)
  : string :=
  let display := default empresa_norm (empresa_display_por_norm lt !! empresa_norm) in
  match _encontrar_empresa_existente_por_norm ano_dict empresa_norm with
  | Some existente => if Py.truthy existente then existente else display
  | None => display
  end.

Definition empresa_nome_para_inserir (ano_dict : AnoDict) (lt : Lote)
  : list (string * string) :=
  (λ empresa_norm, (empresa_norm, nome_para_inserir ano_dict lt empresa_norm))
    <$> elements (empresas_afetadas_norm lt).

(** The month is emptied under both spellings of its key. *)
Definition sem_mes (mes : Z) (tempos : Tempos) : Tempos :=
  delete (inl mes) (delete (inr (str_int mes)) tempos).

(** The loop over the technicians of a company. *)
Definition sem_mes_por_tecnico (mes : Z) (por_tecnico_dict : gmap string Tempos)
  : gmap string Tempos :=
  sem_mes mes <$> por_tecnico_dict.

Definition zerar_mes (mes : Z) (rec : RegistoEmpresa) : RegistoEmpresa :=
  {| meses := <[inl mes := 0]> (sem_mes mes (meses rec));
     extra_mensal := extra_mensal rec;
     apagado := apagado rec;
     por_tecnico := sem_mes_por_tecnico mes <$> por_tecnico rec |}.

Definition zerar_empresas (mes : Z) (nomes : list (string * string)) (ano_dict : AnoDict)
  : AnoDict :=
  foldl (λ ad e, pd_alter (zerar_mes mes) (snd e) ad) ano_dict nomes.

(** The technician that receives the minutes of a fact, and whether the
    special-case marker stayed without inference. *)
Definition tecnico_final_de (registo : Registo) : option string * bool :=
  let tipo := ou (tipo registo) "resumo" in
  if String.eqb tipo "canonico" then (canonico registo, false)
  else if String.eqb tipo "armando" then
    let inferido := _tecnico_inferido_empresa (empresa_norm registo) in
    if falsy inferido then (None, true) else (inferido, false)
  else (None, false).

(** The body of the loop over [registos_unicos]. *)
Definition aplicar_registo (ano mes : Z) (nomes : list (string * string))
    (st : Ledger * gmap string Z) (registo : Registo) : Ledger * gmap string Z :=
  let '(td, armando_sem_inferido) := st in
  let empresa_norm := empresa_norm registo in
  let empresa_display := ou (empresa registo) empresa_norm in
  let minutos := minutos registo in
  let empresa_nome := default empresa_display (pd_get empresa_norm nomes) in
  let '(tecnico_final, sem_inferido) := tecnico_final_de registo in
  (_adicionar_tempo_empresa ano mes empresa_nome minutos tecnico_final td,
   if sem_inferido then acumular empresa_display minutos armando_sem_inferido
   else armando_sem_inferido).

(** Lines 1774-1828 of [importar_timings]: resolve the names, empty the month
    of every touched company, add the deduplicated facts. *)
Definition aplicar_lote (ano mes : Z) (lt : Lote) (td : Ledger) : Ledger * gmap string Z :=
  let td1 := no_ano ano id td in
  let ano_dict := default [] (td1 !! str_int ano) in
  let nomes := empresa_nome_para_inserir ano_dict lt in
  let td2 := no_ano ano (zerar_empresas mes nomes) td1 in
  foldl (aplicar_registo ano mes nomes) (td2, ∅) (registos_unicos lt).

Definition dict_vazio (d : gmap string Z) : bool := bool_decide (d = ∅).

(** [importar_timings], up to the call of [_persistir_timings]: the new
    ledger, [houve_alteracoes] and the report (when one is written). *)
Definition importar_timings (ano mes : Z) (ficheiros : list (list Folha)) (td : Ledger)
  : Resultado (Ledger * bool * option Relatorio) :=
  '(lt, ag) ← para_cada (ler_ficheiro mes) (lote_vazio, diag_vazio) ficheiros;
  let sem_diagnostico :=
    dict_vazio (invalidos ag) && dict_vazio (ignorados_por_empresa ag)
    && dict_vazio (resumos_ignorados_por_empresa ag)
    && dict_vazio (duplicados_por_empresa lt) in
  match registos_unicos lt with
  | [] =>
      if sem_diagnostico then Retorna (td, false, None)
      else
        let '(td', armando_sem_inferido) := aplicar_lote ano mes lt td in
        Retorna
          (td', false,
           Some {| rel_invalidos := invalidos ag;
                   rel_ignorados_por_empresa := ignorados_por_empresa ag;
                   rel_minutos_ignorados_resumo_por_empresa :=
                     resumos_ignorados_por_empresa ag;
                   rel_duplicados_por_empresa := duplicados_por_empresa lt;
                   rel_total_minutos_deduplicados := total_minutos_deduplicados lt;
                   rel_armando_sem_inferido := armando_sem_inferido |})
  | _ :: _ =>
      let '(td', armando_sem_inferido) := aplicar_lote ano mes lt td in
      Retorna
        (td', true,
         if sem_diagnostico && dict_vazio armando_sem_inferido then None
         else
           Some {| rel_invalidos := invalidos ag;
                   rel_ignorados_por_empresa := ignorados_por_empresa ag;
                   rel_minutos_ignorados_resumo_por_empresa :=
                     resumos_ignorados_por_empresa ag;
                   rel_duplicados_por_empresa := duplicados_por_empresa lt;
                   rel_total_minutos_deduplicados := total_minutos_deduplicados lt;
                   rel_armando_sem_inferido := armando_sem_inferido |})
  end.


(** The endpoint [/timings/importar]: the import followed, when facts were
    applied, by [_persistir_timings].  A reader that raises leaves the
    process as it was. *)
Definition pedido_importar (amb : Ambiente) (ano mes : Z) (ficheiros : list (list Folha))
    (p : Processo) : Processo * Resultado (option Relatorio) :=
  match importar_timings ano mes ficheiros (timings_dados p) with
  | Levanta e => (p, Levanta e)
  | Retorna (td, houve_alteracoes, relatorio) =>
      if houve_alteracoes then
        let '(p', r) := _persistir_timings amb (com_dados p td) in
        (p', _ ← r; Retorna relatorio)
      else (com_dados p td, Retorna relatorio)
  end.


(** ** The company matcher of [relacao_tecnicos.py] *)

(** [normalizar_nome]: upper case, accents dropped, every run of other
    characters turned into one blank.  The empty name gives the empty key. *)
Variable normalizar_nome : string → string.
Hypothesis normalizar_nome_vazio : normalizar_nome "" = "".

(** [difflib.SequenceMatcher(None, a, b).ratio()] *)
Variable ratio : string → string → Float64.float.

(** [str.upper] *)
Variable str_upper : string → string.

Definition STOP_TOKENS : gset string :=
  list_to_set ["LDA"; "LTD"; "LTDA"; "SA"; "SOCIEDADE"; "UNIPESSOAL"; "UNIP"; "E"; "ME";
               "LDA."; "LDA,"; "LDA;"; "UNIPESSOAL,"; "UNIPESSOAL;"].

(** [s.split()] *)
Definition split (s : string) : list string :=
  map string_of_list_ascii (Latin1.palavras (list_ascii_of_string s)).

Definition tokens_relevantes (norm : string) : list string :=
  filter (λ t, Py.truthy t = true ∧ t ∉ STOP_TOKENS) (map Py.strip (split norm)).

(** The index of one year: [map_norm_to_originals] (its keys, in insertion
    order, are [norm_keys]), [original_para_registo] and [tokens_por_norm]. *)
Record Indice := {
  map_norm_to_originals : list (string * list string);
  original_para_registo : gmap string RegistoEmpresa;
  tokens_por_norm : gmap string (list string)
}.

Definition norm_keys (idx : Indice) : list string := (map_norm_to_originals idx).*1.

Definition indice_vazio : Indice :=
  {| map_norm_to_originals := []; original_para_registo := ∅; tokens_por_norm := ∅ |}.

(** One turn of the loop of [_construir_indice_timings] *)
Definition indexar (idx : Indice) (item : string * RegistoEmpresa) : Indice :=
  let '(empresa, rec) := item in
  if apagado rec then idx
  else
    let original := <[empresa := rec]> (original_para_registo idx) in
    let chave_norm := normalizar_nome empresa in
    if negb (Py.truthy chave_norm) then
      {| map_norm_to_originals := map_norm_to_originals idx;
         original_para_registo := original;
         tokens_por_norm := tokens_por_norm idx |}
    else
      {| map_norm_to_originals :=
           pd_upsert chave_norm [] (λ l, l ++ [empresa]) (map_norm_to_originals idx);
         original_para_registo := original;
         tokens_por_norm :=
           match tokens_por_norm idx !! chave_norm with
           | Some _ => tokens_por_norm idx
           | None => <[chave_norm := tokens_relevantes chave_norm]> (tokens_por_norm idx)
           end |}.

(** The index is built anew at each call here; the source keeps the last
    one built for the same dictionary object. *)
Definition _construir_indice_timings (ano_dict : AnoDict) : Indice :=
  foldl indexar indice_vazio ano_dict.

Definition _escolher_original (nome_cliente : string) (candidatos : list string)
  : option string :=
  match candidatos with
  | [] => None
  | [c] => Some c
  | c0 :: _ =>
      let alvo := str_upper (Py.strip nome_cliente) in
      Some (foldl (λ '(melhor, melhor_ratio) c,
                     let r := ratio alvo (str_upper (Py.strip c)) in
                     if Float64.ltb melhor_ratio r then (c, r) else (melhor, melhor_ratio))
                  (c0, Float64.of_int (-1)) candidatos).1
  end.

(** A suggestion of the diagnostics: a name and its score *)
Abbreviation Sugestao := (string * Float64.float)%type.

(** What [match_timings] returns: the record, the tier, the ledger name
    chosen and the diagnostics. *)
Abbreviation Resposta :=
  (option RegistoEmpresa * string * option string * list Sugestao)%type.

Definition sem_match (debug_top3 : list Sugestao) : Resposta :=
  (None, "none", None, debug_top3).

(** [if chosen and chosen in original_map:
       return original_map[chosen], tier, chosen, []] *)
Definition devolver (idx : Indice) (tier : string) (chosen : option string)
  : option Resposta :=
  match chosen with
  | Some c =>
      if Py.truthy c then
        match original_para_registo idx !! c with
        | Some rec => Some (Some rec, tier, Some c, [])
        | None => None
        end
      else None
  | None => None
  end.

(** [map_norm.get(k, [])] *)
Definition bucket_de (idx : Indice) (k : string) : list string :=
  default [] (pd_get k (map_norm_to_originals idx)).

(** Tier 1: the same normalised name *)
Definition exato (nome_original nome_norm : string) (idx : Indice) : option Resposta :=
  match bucket_de idx nome_norm with
  | [] => None
  | bucket => devolver idx "exact" (_escolher_original nome_original bucket)
  end.

(** Tier 2: [candidatos_inclusao], the triples (key, ratio, overlap) *)
Definition candidato_inclusao (nome_norm : string) (idx : Indice) (nome_tokens : gset string)
    (chave_norm : string) : option (string * Float64.float * nat) :=
  match default [] (tokens_por_norm idx !! chave_norm) with
  | [] => None
  | toks =>
      let chave_tokens : gset string := list_to_set toks in
      if bool_decide (nome_tokens ⊆ chave_tokens) || bool_decide (chave_tokens ⊆ nome_tokens)
      then Some (chave_norm, ratio nome_norm chave_norm, size (nome_tokens ∩ chave_tokens))
      else None
  end.

Definition candidatos_inclusao (nome_norm : string) (idx : Indice)
  : list (string * Float64.float * nat) :=
  let nome_tokens : gset string := list_to_set (tokens_relevantes nome_norm) in
  if bool_decide (nome_tokens = ∅) then []
  else omap (candidato_inclusao nome_norm idx nome_tokens) (norm_keys idx).

(** [(x[2], x[1], len(x[0]))] *)
Definition chave_de_inclusao (x : string * Float64.float * nat) : nat * Float64.float * nat :=
  (x.2, x.1.2, String.length x.1.1).

(** [a > b] on such keys: decided at the first component that differs *)
Definition chave_maior (a b : nat * Float64.float * nat) : bool :=
  if negb (a.1.1 =? b.1.1)%nat then (b.1.1 <? a.1.1)%nat
  else if negb (Float64.eqb a.1.2 b.1.2) then Float64.ltb b.1.2 a.1.2
  else (b.2 <? a.2)%nat.

Definition chave_escolhida (cands : list (string * Float64.float * nat)) : option string :=
  match cands with
  | [] => None
  | x0 :: resto =>
      Some (py_max (λ x y, chave_maior (chave_de_inclusao x) (chave_de_inclusao y))
                   x0 resto).1.1
  end.

Definition inclusao (nome_original nome_norm : string) (idx : Indice) : option Resposta :=
  match chave_escolhida (candidatos_inclusao nome_norm idx) with
  | Some k => devolver idx "inclusao" (_escolher_original nome_original (bucket_de idx k))
  | None => None
  end.

(** [difflib.get_close_matches(word, possibilities, n, cutoff)]: the [n]
    best of the possibilities that score at least [cutoff], best first,
    where [(score, x)] pairs are compared as tuples.  The two quick ratios
    that the library tries first are upper bounds of the ratio. *)
Definition par_menor (a b : Float64.float * string) : bool :=
  if negb (Float64.eqb a.1 b.1) then Float64.ltb a.1 b.1 else String.ltb a.2 b.2.

Definition get_close_matches (word : string) (possibilities : list string) (n : nat)
    (cutoff : Float64.float) : list string :=
  let result :=
    omap (λ x, let r := ratio x word in
               if Float64.leb cutoff r then Some (r, x) else None) possibilities in
  (take n (sorted_reverse par_menor result)).*2.

(** The literals [0.80], [0.92] and [0.03] *)
Definition cutoff_080 : Float64.float := Float64.of_decimal false 80 (-2).
Definition limiar_092 : Float64.float := Float64.of_decimal false 92 (-2).
Definition margem_003 : Float64.float := Float64.of_decimal false 3 (-2).

(** Tier 3: the keys that are scored *)
Definition candidatos_fuzzy (nome_norm : string) (idx : Indice) : list string :=
  match get_close_matches nome_norm (norm_keys idx) 20 cutoff_080 with
  | [] => take 200 (norm_keys idx)
  | close => close
  end.

(** [ratios], after [ratios.sort(key=lambda x: x[1], reverse=True)] *)
Definition ratios_fuzzy (nome_norm : string) (idx : Indice) : list Sugestao :=
  sorted_reverse (λ x y, Float64.ltb x.2 y.2)
                 (map (λ k, (k, ratio nome_norm k)) (candidatos_fuzzy nome_norm idx)).

(** An entry of [debug_top3]: the key shown under a ledger name *)
Definition sugestao (nome_original : string) (idx : Indice) (x : Sugestao) : Sugestao :=
  let '(k, sc) := x in
  let bucket_k := bucket_de idx k in
  (match Py.or_ (_escolher_original nome_original bucket_k) None with
   | Some chosen_k => chosen_k
   | None => match bucket_k with
             | c :: _ => c
             | [] => k
             end
   end, sc).

(** [best_sc >= 0.92 and (len(ratios) == 1 or (best_sc - second_sc) >= 0.03)] *)
Definition aceite (ratios : list Sugestao) : bool :=
  match ratios with
  | (_, best_sc) :: resto =>
      let second_sc :=
        match resto with
        | (_, sc) :: _ => sc
        | [] => S754_zero false
        end in
      Float64.leb limiar_092 best_sc
      && ((List.length ratios =? 1)%nat
          || Float64.leb margem_003 (Float64.sub best_sc second_sc))
  | [] => false
  end.

Definition fuzzy (nome_original nome_norm : string) (idx : Indice) : Resposta :=
  let ratios := ratios_fuzzy nome_norm idx in
  let debug_top3 := map (sugestao nome_original idx) (take 3 ratios) in
  match ratios with
  | (best_k, _) :: _ =>
      if aceite ratios then
        match devolver idx "fuzzy" (_escolher_original nome_original (bucket_de idx best_k)) with
        | Some r => r
        | None => sem_match debug_top3
        end
      else sem_match debug_top3
  | [] => sem_match debug_top3
  end.

(** [match_timings]: exact, then token inclusion, then bounded fuzzy *)
Definition match_timings (nome_cliente : string) (ano_dict : AnoDict) : Resposta :=
  match ano_dict with
  | [] => sem_match []
  | _ =>
      let nome_original := Py.strip nome_cliente in
      let nome_norm := normalizar_nome nome_original in
      if negb (Py.truthy nome_norm) then sem_match []
      else
        let idx := _construir_indice_timings ano_dict in
        match exato nome_original nome_norm idx with
        | Some r => r
        | None =>
            match inclusao nome_original nome_norm idx with
            | Some r => r
            | None => fuzzy nome_original nome_norm idx
            end
        end
  end.

(** ** Notions used to state the properties *)

(** What emptying the month leaves of an addition: the company is active and
    the technician has an entry. *)
Definition garantir (tecnico : option string) (emp : RegistoEmpresa) : RegistoEmpresa :=
  {| meses := meses emp;
     extra_mensal := extra_mensal emp;
     apagado := false;
     por_tecnico :=
       if falsy tecnico then por_tecnico emp
       else
         let tecnico_norm := _canonical_tecnico_nome tecnico in
         let tec_dict := default ∅ (por_tecnico emp) in
         Some (<[tecnico_norm := default ∅ (tec_dict !! tecnico_norm)]> tec_dict) |}.

(** The facts of one company, applied in order to its record. *)
Definition somar_todos (mes : Z) (x : RegistoEmpresa) (l : list (Z * option string))
  : RegistoEmpresa :=
  foldl (λ x e, somar_minutos mes (fst e) (snd e) x) x l.

Definition garantir_todos (x : RegistoEmpresa) (l : list (Z * option string))
  : RegistoEmpresa :=
  foldl (λ x e, garantir (snd e) x) x l.

(** A loop that, for each [r], takes the company [nm r] (inserting [dflt]
    when it is new) and applies [sm r] to its record. *)
Definition inserir_todos {X : Type} (nm : X → string) (dflt : RegistoEmpresa)
    (sm : X → RegistoEmpresa → RegistoEmpresa) (ad : AnoDict) (l : list X) : AnoDict :=
  foldl (λ ad r, pd_upsert (nm r) dflt (sm r) ad) ad l.

(** A fact as [_importar_excel_timings] builds it: its key is the normalised
    name it carries. *)
Definition registo_ok (r : Registo) : Prop :=
  empresa_norm r = _norm_empresa_forte (empresa r).

Record lote_ok (lt : Lote) : Prop := {
  lo_minutos : ∀ r, r ∈ registos_unicos lt → 0 < minutos r;
  lo_afetada : ∀ r, r ∈ registos_unicos lt → empresa_norm r ∈ empresas_afetadas_norm lt;
  lo_unico : ∀ n, n ∈ empresas_afetadas_norm lt →
             ∃ r, r ∈ registos_unicos lt ∧ empresa_norm r = n;
  lo_display : ∀ n D, empresa_display_por_norm lt !! n = Some D → _norm_empresa_forte D = n;
  lo_tem_display : ∀ n, n ∈ empresas_afetadas_norm lt →
                   is_Some (empresa_display_por_norm lt !! n)
}.

Definition nome_de (nomes : list (string * string)) (r : Registo) : string :=
  default (ou (empresa r) (empresa_norm r)) (pd_get (empresa_norm r) nomes).

Definition somar_de (mes : Z) (r : Registo) : RegistoEmpresa → RegistoEmpresa :=
  somar_minutos mes (minutos r) (tecnico_final_de r).1.

(** Lines 1774-1828 on the company map of the target year. *)
Definition aplicar_ano (mes : Z) (lt : Lote) (ad : AnoDict) : AnoDict :=
  let nomes := empresa_nome_para_inserir ad lt in
  inserir_todos (nome_de nomes) registo_novo (somar_de mes)
    (zerar_empresas mes nomes ad) (registos_unicos lt).

(** The ledger a request leaves behind: the new one when the import returns,
    the old one when a reader raised. *)
Definition ledger_apos (r : Resultado (Ledger * bool * option Relatorio)) (td : Ledger)
  : Ledger :=
  match r with
  | Retorna (td', _, _) => td'
  | Levanta _ => td
  end.

(** The identity of a fact in the words of the specification: (normalised
    company key, technician classification, month, minutes); the facts the
    loop skips (no minutes, no company key, a "canonico" fact without its
    name) have none. *)
Definition identidade (mes : Z) (r : Registo) : option (string * string * Z * Z) :=
  if minutos r <=? 0 then None
  else if negb (Py.truthy (empresa_norm r)) then None
  else (λ tc, (empresa_norm r, tc, mes, minutos r)) <$> tecnico_chave_de r.




(** The minutes of a month in the aggregate map, and in the map of a
    technician, of a company record. *)
Definition minutos_do_mes (mes : Z) (rec : RegistoEmpresa) : Z :=
  default 0 (meses rec !! inl mes).

Definition minutos_do_tecnico (mes : Z) (tecnico : string) (rec : RegistoEmpresa) : Z :=
  default 0 (pt ← por_tecnico rec; tempos ← pt !! tecnico; tempos !! inr (str_int mes)).

(** The rows the reader passes over whatever their indentation. *)
Definition linha_saltada (texto_strip : string) : bool :=
  negb (Py.truthy texto_strip)
  || (existsb (String.eqb (PyTxt.upper texto_strip)) ["EMPRESA"; "TOTAL"]
      || _is_linha_total texto_strip)
  || PyTxt.contains "MAPA DE TEMPO TRABALHADO" (PyTxt.upper texto_strip).

(** A row that opens a company block: the name of the company and the cell
    of its inline total. *)
Definition linha_de_empresa (row : Linha) : option (string * Celula) :=
  match row with
  | Some texto :: cauda =>
      if linha_saltada (Py.strip texto) || PyTxt.startswith "    " texto then None
      else Some (Py.strip texto, match cauda with c :: _ => c | [] => None end)
  | _ => None
  end.

(** The fact that a row below the company [c] yields: an indented row with
    positive minutes whose technician is recognised. *)
Definition detalhe_reconhecido (c : string) (row : Linha) : option Detalhe :=
  match row with
  | Some texto :: cauda =>
      if linha_saltada (Py.strip texto) || negb (PyTxt.startswith "    " texto) then None
      else
        match _parse_tempo_para_minutos (match cauda with c :: _ => c | [] => None end) with
        | Retorna minutos =>
            if minutos <=? 0 then None
            else
              let '(tipo, canonico) := _resolver_tecnico (Some (Py.strip texto)) in
              if String.eqb tipo "desconhecido" then None
              else Some (c, tipo, canonico, minutos)
        | Levanta _ => None
        end
  | _ => None
  end.

(** What [_construir_indice_timings] guarantees of the index it builds. *)
Record indice_ok (ano_dict : AnoDict) (idx : Indice) : Prop := {
  ok_bucket : ∀ k bucket,
    pd_get k (map_norm_to_originals idx) = Some bucket →
    bucket ≠ [] ∧ Py.truthy k = true ∧
    ∀ c, c ∈ bucket → normalizar_nome c = k ∧ is_Some (original_para_registo idx !! c);
  ok_tokens_de : ∀ k t, tokens_por_norm idx !! k = Some t → t = tokens_relevantes k;
  ok_tokens_em : ∀ k, k ∈ norm_keys idx → is_Some (tokens_por_norm idx !! k);
  ok_original : ∀ c rec,
    original_para_registo idx !! c = Some rec → (c, rec) ∈ ano_dict ∧ apagado rec = false
}.

(** ** The manual endpoints of [timings.py] *)

(** A loop whose body may raise after earlier turns have changed the state
    in place: the state reached, and the exception when there is one. *)
Fixpoint para_cada_ate {S X : Type} (corpo : S → X → Resultado S) (st : S) (l : list X)
  : S * option Excecao :=
  match l with
  | [] => (st, None)
  | x :: l' =>
      match corpo st x with
      | Retorna st' => para_cada_ate corpo st' l'
      | Levanta e => (st, Some e)
      end
  end.

(** [enumerate(l)] *)
Definition enumerate {X : Type} (l : list X) : list (nat * X) := imap (λ i x, (i, x)) l.

Definition MESES_LABELS : list (Z * string) :=
  [(1, "Jan"); (2, "Fev"); (3, "Mar"); (4, "Abr"); (5, "Mai"); (6, "Jun");
   (7, "Jul"); (8, "Ago"); (9, "Set"); (10, "Out"); (11, "Nov"); (12, "Dez")].

(** [{num_mes: valor for num_mes, _ in MESES_LABELS}] *)
Definition meses_todos (valor : Z) : Tempos :=
  foldl (λ d e, <[inl (fst e) := valor]> d) ∅ MESES_LABELS.

(** *** [/timings/guardar-media] *)

(** The record written for a client whose January field holds [minutos]. *)
Definition registo_media (minutos extra_mensal_antigo : Z) : RegistoEmpresa :=
  {| meses := meses_todos minutos; extra_mensal := extra_mensal_antigo; apagado := false;
     por_tecnico := Some ∅ |}.

(** The body of the loop over the clients of the form. *)
Definition linha_media (jan_medias : list string) (ano_dict : AnoDict) (e : nat * string)
  : Resultado AnoDict :=
  let '(idx, nome_cli) := e in
  if negb (Py.truthy nome_cli) then Retorna ano_dict
  else
    let jan_val := default "" (jan_medias !! idx) in
    minutos ← _parse_tempo_para_minutos (Some jan_val);
    if minutos <=? 0 then Retorna ano_dict
    else
      let extra_mensal_antigo :=
        match pd_get nome_cli ano_dict with
        | Some rec_existente => _extra_mes rec_existente
        | None => 0
        end in
      Retorna (pd_set nome_cli (registo_media minutos extra_mensal_antigo) ano_dict).

(** The endpoint: the process after the request and what the save answered;
    an exception of the parser leaves in memory the records written before
    it and saves nothing. *)
Definition guardar_timings_media (amb : Ambiente) (ano : Z)
    (cliente_media jan_media : list string) (p : Processo) : Processo * Resultado bool :=
  let td := no_ano ano id (timings_dados p) in
  let ano_dict := default [] (td !! str_int ano) in
  let '(ano_dict', exc) := para_cada_ate (linha_media jan_media) ano_dict
                                         (enumerate cliente_media) in
  let td' := <[str_int ano := ano_dict']> td in
  match exc with
  | Some e => (com_dados p td', Levanta e)
  | None => _persistir_timings amb (com_dados p td')
  end.

(** *** [/timings/guardar] *)

Definition linha_extra (extras_txt : list string) (ano_dict : AnoDict) (e : nat * string)
  : Resultado AnoDict :=
  let '(idx, nome_emp) := e in
  if negb (Py.truthy nome_emp) then Retorna ano_dict
  else
    let rec_antigo := default registo_novo (pd_get nome_emp ano_dict) in
    let meses_novos := meses rec_antigo in
    let por_tecnico_novo := default ∅ (por_tecnico rec_antigo) in
    let apagado_antigo := apagado rec_antigo in
    let extra_str := default "" (extras_txt !! idx) in
    minutos_extra ← _parse_tempo_para_minutos (Some extra_str);
    Retorna (pd_set nome_emp
               {| meses := meses_novos; extra_mensal := minutos_extra;
                  apagado := apagado_antigo; por_tecnico := Some por_tecnico_novo |}
               ano_dict).

Definition guardar_timings_extras (amb : Ambiente) (ano : Z)
    (empresas extras_txt : list string) (p : Processo) : Processo * Resultado bool :=
  let td := no_ano ano id (timings_dados p) in
  let ano_dict := default [] (td !! str_int ano) in
  let '(ano_dict', exc) := para_cada_ate (linha_extra extras_txt) ano_dict
                                         (enumerate empresas) in
  let td' := <[str_int ano := ano_dict']> td in
  match exc with
  | Some e => (com_dados p td', Levanta e)
  | None => _persistir_timings amb (com_dados p td')
  end.

(** *** [/timings/sincronizar-clientes] *)

(** [normas_existentes], as the first loop builds it: the normalised key of
    each company of the year, with the first name that has it. *)
Definition normas_das_chaves (ano_dict : AnoDict) : gmap string string :=
  foldl (λ normas empresa_existente,
           let norm := _norm_empresa_forte empresa_existente in
           if Py.truthy norm && negb (bool_decide (is_Some (normas !! norm)))
           then <[norm := empresa_existente]> normas else normas)
        ∅ ano_dict.*1.

(** The record given to a client that the year does not have yet. *)
Definition registo_sincronizado : RegistoEmpresa :=
  {| meses := meses_todos 0; extra_mensal := 0; apagado := false; por_tecnico := Some ∅ |}.

(** The body of the loop over the client registry. *)
Definition sincronizar_cliente (st : AnoDict * gmap string string * Z) (cli : Cliente)
  : AnoDict * gmap string string * Z :=
  let '(ano_dict, normas_existentes, adicionados) := st in
  let nome_cli := nome_do_cliente cli in
  if falsy nome_cli then st
  else
    let empresa_display := Py.strip (default "" nome_cli) in
    if negb (Py.truthy empresa_display) then st
    else
      let norm_cli := _norm_empresa_forte empresa_display in
      if negb (Py.truthy norm_cli) then st
      else if bool_decide (is_Some (normas_existentes !! norm_cli)) then st
      else (pd_set empresa_display registo_sincronizado ano_dict,
            <[norm_cli := empresa_display]> normas_existentes,
            adicionados + 1).

(** The company map of the year after the two loops. *)
Definition sincronizar_ano (ano_dict : AnoDict) : AnoDict :=
  (foldl sincronizar_cliente (ano_dict, normas_das_chaves ano_dict, 0) clientes).1.1.

Definition sincronizar_clientes (amb : Ambiente) (ano : Z) (p : Processo)
  : Processo * Resultado bool :=
  let td := no_ano ano id (timings_dados p) in
  let ano_dict := default [] (td !! str_int ano) in
  _persistir_timings amb (com_dados p (<[str_int ano := sincronizar_ano ano_dict]> td)).

(** ** Formatting of durations *)

(** [f"{mins:02d}"] for a number that is not negative *)
Definition dois_digitos (mins : Z) : string :=
  if mins <? 10 then "0" ++ str_int mins else str_int mins.

(** [_format_minutos] of [timings.py], on an integer *)
Definition _format_minutos (minutos : Z) : string :=
  let horas := minutos / 60 in
  let mins := minutos mod 60 in
  str_int horas ++ "h" ++ dois_digitos mins ++ "m".

(** ** Notions used to state the further properties *)

(** The technician part of a detail row that the readers keep: the
    special-case marker without a name, or one of the canonical names. *)
Definition tecnico_reconhecido (tipo : string) (canonico : option string) : Prop :=
  (tipo = "armando" ∧ canonico = None)
  ∨ (tipo = "canonico"
     ∧ ∃ c, canonico = Some c ∧ Py.truthy c = true ∧ c ∈ registos_de_aliases.*1).

Definition detalhe_ok (x : Detalhe) : Prop :=
  0 < x.2 ∧ tecnico_reconhecido x.1.1.2 x.1.2.

(** The sum of the minutes of a list of facts, and of a report. *)
Definition minutos_de (rs : list Registo) : Z := foldr Z.add 0 (minutos <$> rs).

Definition soma_de (d : gmap string Z) : Z := map_fold (λ _ v acc, v + acc) 0 d.

(** The rows grouped by [_processar_sheet_colunas]: every group holds
    rows with positive minutes and a recognised technician. *)
Definition grupos_ok (g : list (string * list (string * option string * Z))) : Prop :=
  Forall (λ e, Forall (λ x : string * option string * Z,
                         0 < x.2 ∧ tecnico_reconhecido x.1.1 x.1.2) e.2) g.

(** The normalised key under which the synchronisation looks for a client
    of the registry; [None] for the entries it passes over. *)
Definition norma_do_cliente (cli : Cliente) : option string :=
  let nome_cli := nome_do_cliente cli in
  if falsy nome_cli then None
  else
    let empresa_display := Py.strip (default "" nome_cli) in
    if negb (Py.truthy empresa_display) then None
    else
      let norm_cli := _norm_empresa_forte empresa_display in
      if negb (Py.truthy norm_cli) then None else Some norm_cli.

(** [normas] holds exactly the non-empty normalised keys of the names of
    the company map. *)
Definition normas_de (ano_dict : AnoDict) (normas : gmap string string) : Prop :=
  ∀ n, is_Some (normas !! n)
       ↔ Py.truthy n = true ∧ ∃ K, K ∈ ano_dict.*1 ∧ _norm_empresa_forte K = n.

(** A run of decimal digits and the number it writes. *)
Definition digitos (d : list ascii) (n : Z) : Prop :=
  d ≠ [] ∧ Forall (λ c, PyTxt.isdigit c = true) d ∧ PyTxt.int_of_digits d = n.

(** The binary64 form of a positive integer below [2^53]: a mantissa of
    53 bits. *)
Definition canon (n : Z) : Float64.float :=
  S754_finite false (Z.to_pos (n * 2 ^ (52 - Z.log2 n))) (Z.log2 n - 52).

(** The minutes a ledger holds: the months of every company plus twelve
    times its monthly extra. *)
Definition soma_dos_tempos (tempos : Tempos) : Z :=
  map_fold (λ _ v acc, acc + v) 0 tempos.

Definition soma_do_ano (ano_val : AnoDict) : Z :=
  foldr (λ e acc, soma_dos_tempos (meses e.2) + extra_mensal e.2 * 12 + acc) 0 ano_val.

Definition soma_do_ledger (data : Ledger) : Z :=
  map_fold (λ _ ano_val acc, acc + soma_do_ano ano_val) 0 data.

(** Every month of the ledger holds a number of minutes that is not
    negative and that a binary64 float represents exactly. *)
Definition tempos_exatos (tempos : Tempos) : Prop :=
  map_Forall (λ _ v, 0 ≤ v < 2 ^ 53) tempos.

Definition meses_exatos (data : Ledger) : Prop :=
  map_Forall (λ _ ano_val, Forall (λ e : string * RegistoEmpresa, tempos_exatos (meses e.2))
                                  ano_val) data.

(** A text that the readers take for the name of a company: not empty and
    not a line of totals. *)
Definition nome_aceite (e : string) : Prop :=
  Py.truthy e = true ∧ _is_linha_total e = false.

(** The invariant of the loop of [_processar_sheet_workload]. *)
Definition nomes_workload (st : EstadoWorkload) : Prop :=
  Forall (λ x : Detalhe, nome_aceite x.1.1.1) (w_registos st)
  ∧ Forall (λ x : Detalhe, nome_aceite x.1.1.1) (w_registos_empresa st)
  ∧ Forall nome_aceite (w_totais_fallback st).*1
  ∧ ∀ e, w_empresa_atual st = Some e → nome_aceite e.

(** The invariant of the loop that closes the companies of a tabular sheet. *)
Definition nomes_fecho (st : EstadoFecho) : Prop :=
  Forall (λ x : Detalhe, nome_aceite x.1.1.1) (f_resultados st)
  ∧ Forall nome_aceite (f_totais_fallback st).*1
  ∧ Forall nome_aceite (f_resumos_por_empresa st).*1.


(** * Properties *)

(** ** Association lists *)

Section pydict_lemmas.
Context {K V : Type} `{EqDecision K}.
Implicit Types (d : list (K * V)) (k : K).

Lemma pd_get_None d k : pd_get k d = None ↔ k ∉ d.*1.
Proof.
  induction d as [|[k' v] d IH]; simpl.
  - split; [intros _; apply not_elem_of_nil | done].
  - rewrite not_elem_of_cons. destruct (decide (k' = k)) as [->|Hne].
    + split; [done | intros [? _]; done].
    + rewrite IH. split; [intros ?; split; [congruence | done] | intros [_ ?]; done].
Qed.

Lemma pd_get_Some_elem d k v : pd_get k d = Some v → k ∈ d.*1.
Proof.
  intros Hg. destruct (decide (k ∈ d.*1)) as [|Hn]; [done|].
  apply pd_get_None in Hn. congruence.
Qed.

Lemma pd_get_is_Some d k : is_Some (pd_get k d) ↔ k ∈ d.*1.
Proof.
  split.
  - intros [v Hv]. by eapply pd_get_Some_elem.
  - intros Hin. destruct (pd_get k d) eqn:E; [eauto|].
    apply pd_get_None in E. done.
Qed.

Lemma pd_get_app d1 d2 k :
  pd_get k (d1 ++ d2) =
  match pd_get k d1 with Some v => Some v | None => pd_get k d2 end.
Proof.
  induction d1 as [|[k' v] d1 IH]; simpl; [done|].
  destruct (decide (k' = k)); done.
Qed.

Lemma pd_alter_keys f k d : (pd_alter f k d).*1 = d.*1.
Proof.
  induction d as [|[k' v] d IH]; simpl; [done|].
  destruct (decide (k' = k)); csimpl; [done | by rewrite IH].
Qed.

Lemma pd_get_alter f k k' d :
  pd_get k' (pd_alter f k d) =
  if decide (k = k') then f <$> pd_get k' d else pd_get k' d.
Proof.
  induction d as [|[k0 v] d IH]; simpl.
  - by destruct (decide (k = k')).
  - destruct (decide (k0 = k)) as [->|Hne]; simpl.
    + destruct (decide (k = k')); done.
    + destruct (decide (k0 = k')) as [->|Hne'].
      * destruct (decide (k = k')); [congruence | done].
      * done.
Qed.

Lemma pd_upsert_keys k dflt f d :
  (pd_upsert k dflt f d).*1 = if decide (k ∈ d.*1) then d.*1 else d.*1 ++ [k].
Proof.
  unfold pd_upsert. destruct (pd_get k d) eqn:E.
  - apply pd_get_Some_elem in E. rewrite decide_True by done. apply pd_alter_keys.
  - apply pd_get_None in E. rewrite decide_False by done. by rewrite fmap_app.
Qed.

Lemma pd_get_upsert k k' dflt f d :
  pd_get k' (pd_upsert k dflt f d) =
  if decide (k = k') then Some (f (default dflt (pd_get k' d))) else pd_get k' d.
Proof.
  unfold pd_upsert. destruct (pd_get k d) eqn:E.
  - rewrite pd_get_alter. destruct (decide (k = k')) as [<-|]; [|done].
    by rewrite E.
  - rewrite pd_get_app. simpl. destruct (decide (k = k')) as [<-|].
    + by rewrite E.
    + by destruct (pd_get k' d).
Qed.

(** Two dictionaries with the same keys in the same order and the same
    value under every key are equal. *)
Lemma pd_ext d1 d2 :
  NoDup d1.*1 → d1.*1 = d2.*1 → (∀ k, pd_get k d1 = pd_get k d2) → d1 = d2.
Proof.
  revert d2. induction d1 as [|[k v] d1 IH]; intros [|[k2 v2] d2] Hnd Hk Hg;
    csimpl in *; try done.
  injection Hk as -> Hk. apply NoDup_cons in Hnd as [Hnin Hnd].
  pose proof (Hg k2) as Hh. rewrite !decide_True in Hh by done.
  injection Hh as ->. f_equal. apply IH; [done..|].
  intros k. pose proof (Hg k) as Hgk.
  destruct (decide (k2 = k)) as [->|]; [|done].
  assert (pd_get k d1 = None) as -> by by apply pd_get_None.
  symmetry. apply pd_get_None. by rewrite <- Hk.
Qed.

End pydict_lemmas.

(** ** The record of a company under the import *)

Lemma sem_mes_insert_str (mes v : Z) (t : Tempos) :
  sem_mes mes (<[inr (str_int mes) := v]> t) = sem_mes mes t.
Proof. unfold sem_mes. by rewrite delete_insert_eq. Qed.

Lemma sem_mes_insert_int (mes v : Z) (t : Tempos) :
  sem_mes mes (<[inl mes := v]> t) = sem_mes mes t.
Proof.
  unfold sem_mes. rewrite delete_insert_ne by done. by rewrite delete_insert_eq.
Qed.

Lemma sem_mes_idemp (mes : Z) (t : Tempos) : sem_mes mes (sem_mes mes t) = sem_mes mes t.
Proof.
  unfold sem_mes. apply map_eq. intros k.
  rewrite !lookup_delete. repeat case_decide; done.
Qed.

Lemma sem_mes_empty (mes : Z) : sem_mes mes ∅ = ∅.
Proof. unfold sem_mes. by rewrite !delete_empty. Qed.

Lemma zerar_somar (mes m : Z) (t : option string) (x : RegistoEmpresa) :
  zerar_mes mes (somar_minutos mes m t x) = garantir t (zerar_mes mes x).
Proof.
  unfold zerar_mes, somar_minutos, garantir. simpl. f_equal.
  - by rewrite sem_mes_insert_int.
  - destruct (falsy t); [done|]. simpl.
    destruct (por_tecnico x) as [td|]; simpl; f_equal.
    + unfold sem_mes_por_tecnico. rewrite fmap_insert, sem_mes_insert_str.
      f_equal. rewrite lookup_fmap.
      destruct (td !! _); simpl; [done | by rewrite sem_mes_empty].
    + unfold sem_mes_por_tecnico. rewrite fmap_insert, sem_mes_insert_str.
      by rewrite fmap_empty, !lookup_empty.
Qed.

Lemma somar_garantir (mes m : Z) (t : option string) (y : RegistoEmpresa) :
  somar_minutos mes m t (garantir t y) = somar_minutos mes m t y.
Proof.
  unfold somar_minutos, garantir. simpl. f_equal.
  destruct (falsy t); [done|]. simpl. f_equal.
  rewrite lookup_insert_eq. simpl. by rewrite insert_insert_eq.
Qed.

Lemma somar_garantir_comm (mes m : Z) (t t' : option string) (y : RegistoEmpresa) :
  somar_minutos mes m t (garantir t' y) = garantir t' (somar_minutos mes m t y).
Proof.
  unfold somar_minutos, garantir. simpl. f_equal.
  destruct (falsy t) eqn:Et, (falsy t') eqn:Et'; simpl; try done.
  f_equal.
  destruct (decide (_canonical_tecnico_nome t = _canonical_tecnico_nome t')) as [->|Hne].
  - rewrite !lookup_insert_eq. simpl. by rewrite !insert_insert_eq.
  - rewrite !lookup_insert_ne by done. by rewrite insert_insert_ne.
Qed.

Lemma garantir_comm (t t' : option string) (y : RegistoEmpresa) :
  garantir t (garantir t' y) = garantir t' (garantir t y).
Proof.
  unfold garantir. simpl. f_equal.
  destruct (falsy t) eqn:Et, (falsy t') eqn:Et'; simpl; try done.
  f_equal.
  destruct (decide (_canonical_tecnico_nome t = _canonical_tecnico_nome t')) as [->|Hne].
  - done.
  - rewrite !lookup_insert_ne by done. by rewrite insert_insert_ne.
Qed.

Lemma zerar_zerar (mes : Z) (x : RegistoEmpresa) :
  zerar_mes mes (zerar_mes mes x) = zerar_mes mes x.
Proof.
  unfold zerar_mes. simpl. f_equal.
  - rewrite sem_mes_insert_int. by rewrite sem_mes_idemp.
  - destruct (por_tecnico x) as [td|]; simpl; [|done]. f_equal.
    unfold sem_mes_por_tecnico. rewrite <- map_fmap_compose.
    apply map_fmap_ext. intros ? ? _. apply sem_mes_idemp.
Qed.

Lemma somar_zerar_novo (mes m : Z) (t : option string) :
  somar_minutos mes m t (zerar_mes mes registo_novo) = somar_minutos mes m t registo_novo.
Proof.
  unfold somar_minutos, zerar_mes, registo_novo. simpl. f_equal.
  rewrite sem_mes_empty, lookup_insert_eq, lookup_empty. simpl.
  by rewrite insert_insert_eq.
Qed.

Lemma zerar_somar_todos (mes : Z) (l : list (Z * option string)) (x : RegistoEmpresa) :
  zerar_mes mes (somar_todos mes x l) = garantir_todos (zerar_mes mes x) l.
Proof.
  revert x. induction l as [|[m t] l IH]; intros x; simpl; [done|].
  unfold somar_todos, garantir_todos in *. simpl.
  by rewrite IH, zerar_somar.
Qed.

Lemma garantir_todos_garantir (l : list (Z * option string)) t (y : RegistoEmpresa) :
  garantir_todos (garantir t y) l = garantir t (garantir_todos y l).
Proof.
  revert y. induction l as [|[m t'] l IH]; intros y; [done|].
  unfold garantir_todos in *. simpl. by rewrite garantir_comm, IH.
Qed.

Lemma somar_garantir_todos (mes m : Z) t (l : list (Z * option string)) (y : RegistoEmpresa) :
  somar_minutos mes m t (garantir_todos y l) = garantir_todos (somar_minutos mes m t y) l.
Proof.
  revert y. induction l as [|[m' t'] l IH]; intros y; [done|].
  unfold garantir_todos in *. simpl. by rewrite IH, somar_garantir_comm.
Qed.

Lemma somar_todos_garantir_todos (mes : Z) (l : list (Z * option string))
    (y : RegistoEmpresa) :
  somar_todos mes (garantir_todos y l) l = somar_todos mes y l.
Proof.
  revert y. induction l as [|[m t] l IH]; intros y; [done|].
  unfold somar_todos in *. simpl.
  change (foldl (λ x e, garantir e.2 x) (garantir t y) l)
    with (garantir_todos (garantir t y) l).
  rewrite garantir_todos_garantir, somar_garantir, somar_garantir_todos.
  apply IH.
Qed.

(** Emptying the month and adding the same facts again gives the same
    record, whether the record was new or had its month emptied before. *)
Lemma somar_todos_de_novo (mes : Z) (l : list (Z * option string)) (o : option RegistoEmpresa) :
  l ≠ [] →
  let x := default registo_novo (zerar_mes mes <$> o) in
  somar_todos mes (zerar_mes mes (somar_todos mes x l)) l = somar_todos mes x l.
Proof.
  intros Hl x.
  rewrite zerar_somar_todos, somar_todos_garantir_todos.
  subst x. destruct o as [y|]; simpl.
  - by rewrite zerar_zerar.
  - destruct l as [|[m t] l]; [done|]. unfold somar_todos. simpl.
    by rewrite somar_zerar_novo.
Qed.

(** ** Loops of insertions and of in-place updates over a company map *)

Section lacos.
Context {X : Type} (nm : X → string) (dflt : RegistoEmpresa)
        (sm : X → RegistoEmpresa → RegistoEmpresa).

Lemma get_inserir_todos (k : string) (l : list X) (ad : AnoDict) :
  pd_get k (inserir_todos nm dflt sm ad l) =
  match filter (λ r, nm r = k) l with
  | [] => pd_get k ad
  | lk => Some (foldl (λ x r, sm r x) (default dflt (pd_get k ad)) lk)
  end.
Proof.
  revert ad. induction l as [|r l IH]; intros ad; [done|].
  unfold inserir_todos in *. simpl. rewrite IH, pd_get_upsert.
  rewrite filter_cons. destruct (decide (nm r = k)) as [Heq|Hne].
  - simpl. by destruct (filter _ l).
  - done.
Qed.

Lemma keys_inserir_todos (l : list X) (ad : AnoDict) :
  ∃ novos : list string,
    (inserir_todos nm dflt sm ad l).*1 = ad.*1 ++ novos
    ∧ (∀ k, k ∈ novos → k ∈ nm <$> l)
    ∧ (NoDup ad.*1 → NoDup (ad.*1 ++ novos))
    ∧ (∀ r, r ∈ l → nm r ∈ ad.*1 ++ novos).
Proof.
  revert ad. induction l as [|r l IH]; intros ad.
  - exists []. rewrite app_nil_r. split_and!; [done| |done|].
    + intros k Hk. by apply elem_of_nil in Hk.
    + intros r Hr. by apply elem_of_nil in Hr.
  - destruct (IH (pd_upsert (nm r) dflt (sm r) ad)) as (novos & Hk & Hin & Hnd & Hall).
    rewrite pd_upsert_keys in Hk, Hnd, Hall.
    destruct (decide (nm r ∈ ad.*1)) as [Hr|Hr].
    + exists novos. split_and!; [done| |done|].
      * intros k Hk'. rewrite fmap_cons. apply elem_of_cons. right. by apply Hin.
      * intros r' [->|Hr']%elem_of_cons; [|by apply Hall].
        apply elem_of_app. by left.
    + exists (nm r :: novos).
      replace (ad.*1 ++ nm r :: novos) with ((ad.*1 ++ [nm r]) ++ novos)
        by by rewrite <- app_assoc.
      split_and!; [done| | |].
      * intros k [->|Hk']%elem_of_cons; rewrite fmap_cons; apply elem_of_cons;
          [by left | right; by apply Hin].
      * intros Hnd0. apply Hnd. apply NoDup_app. split_and!; [done| |apply NoDup_singleton].
        intros x Hx ->%list_elem_of_singleton. done.
      * intros r' [->|Hr']%elem_of_cons; [|by apply Hall].
        apply elem_of_app. left. apply elem_of_app. right. by apply list_elem_of_singleton.
Qed.

Lemma keys_inserir_todos_presentes (l : list X) (ad : AnoDict) :
  (∀ r, r ∈ l → nm r ∈ ad.*1) → (inserir_todos nm dflt sm ad l).*1 = ad.*1.
Proof.
  revert ad. induction l as [|r l IH]; intros ad Hall; [done|].
  unfold inserir_todos in *. simpl.
  assert (Hr : nm r ∈ ad.*1) by (apply Hall; by left).
  assert (Hk : (pd_upsert (nm r) dflt (sm r) ad).*1 = ad.*1).
  { rewrite pd_upsert_keys. by rewrite decide_True. }
  rewrite IH; [done|]. intros r' Hr'. rewrite Hk. apply Hall. by right.
Qed.

End lacos.

Lemma keys_zerar_empresas (mes : Z) (nomes : list (string * string)) (ad : AnoDict) :
  (zerar_empresas mes nomes ad).*1 = ad.*1.
Proof.
  revert ad. induction nomes as [|e nomes IH]; intros ad; [done|].
  unfold zerar_empresas in *. simpl. by rewrite IH, pd_alter_keys.
Qed.

Lemma get_zerar_empresas (mes : Z) (k : string) (nomes : list (string * string))
    (ad : AnoDict) :
  pd_get k (zerar_empresas mes nomes ad) =
  if decide (k ∈ nomes.*2) then zerar_mes mes <$> pd_get k ad else pd_get k ad.
Proof.
  revert ad. induction nomes as [|e nomes IH]; intros ad.
  - destruct (decide (k ∈ [].*2)) as [Hk|]; [by apply elem_of_nil in Hk | done].
  - unfold zerar_empresas in *. csimpl. rewrite IH, pd_get_alter.
    destruct (decide (e.2 = k)) as [<-|Hne].
    + rewrite (decide_True (P := e.2 ∈ e.2 :: nomes.*2)) by by left.
      destruct (decide (e.2 ∈ nomes.*2)); [|done].
      destruct (pd_get e.2 ad); simpl; [|done]. by rewrite zerar_zerar.
    + destruct (decide (k ∈ nomes.*2)) as [Hin|Hnin].
      * rewrite decide_True; [done | by right].
      * rewrite decide_False; [done|].
        intros [?|?]%elem_of_cons; congruence.
Qed.

(** ** The batch after deduplication *)

Lemma truthy_false (s : string) : Py.truthy s = false → s = "".
Proof.
  unfold Py.truthy. intros H. apply negb_false_iff in H. by apply String.eqb_eq.
Qed.

Lemma truthy_true (s : string) : Py.truthy s = true → s ≠ "".
Proof.
  unfold Py.truthy. intros H ->. done.
Qed.

Lemma lote_ok_vazio : lote_ok lote_vazio.
Proof.
  split; simpl.
  - intros r Hr. by apply elem_of_nil in Hr.
  - intros r Hr. by apply elem_of_nil in Hr.
  - intros n Hn. by apply elem_of_empty in Hn.
  - intros n D. by rewrite lookup_empty.
  - intros n Hn. by apply elem_of_empty in Hn.
Qed.

Lemma display_ok (r : Registo) :
  registo_ok r → Py.truthy (empresa_norm r) = true →
  _norm_empresa_forte (ou (empresa r) (empresa_norm r)) = empresa_norm r.
Proof.
  intros Hok Hn. unfold ou. destruct (Py.truthy (empresa r)) eqn:E; [done|].
  apply truthy_false in E. apply truthy_true in Hn.
  rewrite Hok, E, _norm_empresa_forte_vazio in Hn. done.
Qed.

Lemma lote_ok_dedup (mes : Z) (lt : Lote) (r : Registo) :
  registo_ok r → lote_ok lt → lote_ok (dedup_registo mes lt r).
Proof.
  intros Hr [H1 H2 H3 H4 H5]. unfold dedup_registo.
  destruct (minutos r <=? 0) eqn:Em; [by split|].
  apply Z.leb_gt in Em.
  destruct (Py.truthy (empresa_norm r)) eqn:En; simpl; [|by split].
  set (displays := match empresa_display_por_norm lt !! empresa_norm r with
                   | Some _ => empresa_display_por_norm lt
                   | None => _ end).
  assert (Hd : ∀ n D, displays !! n = Some D → _norm_empresa_forte D = n).
  { intros n D. subst displays.
    destruct (empresa_display_por_norm lt !! empresa_norm r) eqn:E; [apply H4|].
    rewrite lookup_insert. case_decide as Hc; [|apply H4].
    intros [= <-]. subst n. by apply display_ok. }
  assert (Hs : ∀ n, is_Some (empresa_display_por_norm lt !! n) → is_Some (displays !! n)).
  { intros n Hn. subst displays.
    destruct (empresa_display_por_norm lt !! empresa_norm r) eqn:E; [done|].
    rewrite lookup_insert. by case_decide. }
  assert (Hn : is_Some (displays !! empresa_norm r)).
  { subst displays.
    destruct (empresa_display_por_norm lt !! empresa_norm r) eqn:E; [by rewrite E|].
    by rewrite lookup_insert_eq. }
  destruct (tecnico_chave_de r) as [tc|]; [|split; simpl; eauto].
  case_bool_decide; split; simpl; eauto.
  - intros r' [Hr'| ->%list_elem_of_singleton]%elem_of_app; [by apply H1 | done].
  - intros r' [Hr'| ->%list_elem_of_singleton]%elem_of_app;
      apply elem_of_union; [left; by apply H2 | right; by apply elem_of_singleton].
  - intros n [Hn'| ->%elem_of_singleton]%elem_of_union.
    + destruct (H3 n Hn') as (r' & Hr' & <-). exists r'. split; [|done].
      apply elem_of_app. by left.
    + exists r. split; [|done]. apply elem_of_app. right. by apply list_elem_of_singleton.
  - intros n [Hn'| ->%elem_of_singleton]%elem_of_union; [apply Hs; by apply H5 | done].
Qed.

Lemma lote_ok_foldl (mes : Z) (rs : list Registo) (lt : Lote) :
  Forall registo_ok rs → lote_ok lt → lote_ok (foldl (dedup_registo mes) lt rs).
Proof.
  revert lt. induction rs as [|r rs IH]; intros lt Hrs Hlt; [done|].
  apply Forall_cons in Hrs as [Hr Hrs]. simpl. apply IH; [done|].
  by apply lote_ok_dedup.
Qed.

(** ** The import on the company map of the year *)

Lemma find_app_list {A} (f : A → bool) (l1 l2 : list A) :
  List.find f (l1 ++ l2) =
  match List.find f l1 with Some x => Some x | None => List.find f l2 end.
Proof.
  induction l1 as [|x l1 IH]; simpl; [done|]. by destruct (f x).
Qed.

Lemma find_Some_list {A} (f : A → bool) (l : list A) (x : A) :
  List.find f l = Some x → x ∈ l ∧ f x = true.
Proof.
  intros H. apply find_some in H as [Hin Hf]. split; [|done].
  by apply list_elem_of_In.
Qed.

Lemma find_None_list {A} (f : A → bool) (l : list A) (x : A) :
  List.find f l = None → x ∈ l → f x = false.
Proof.
  intros H Hin. eapply find_none; [done|]. by apply list_elem_of_In.
Qed.

Lemma encontrar_pelas_chaves (ad : AnoDict) (n : string) :
  _encontrar_empresa_existente_por_norm ad n =
  List.find (λ K, String.eqb (_norm_empresa_forte K) n) ad.*1.
Proof.
  unfold _encontrar_empresa_existente_por_norm.
  induction ad as [|[K v] ad IH]; csimpl; [done|].
  destruct (String.eqb (_norm_empresa_forte K) n); [done | apply IH].
Qed.

Lemma pd_get_pares (f : string → string) (l : list string) (n : string) :
  pd_get n ((λ x, (x, f x)) <$> l) = if decide (n ∈ l) then Some (f n) else None.
Proof.
  induction l as [|x l IH]; csimpl.
  - destruct (decide (n ∈ [])) as [H|]; [by apply elem_of_nil in H | done].
  - destruct (decide (x = n)) as [->|Hne].
    + rewrite decide_True; [done | by left].
    + rewrite IH. destruct (decide (n ∈ l)).
      * rewrite decide_True; [done | by right].
      * rewrite decide_False; [done|]. intros [?|?]%elem_of_cons; congruence.
Qed.

Section ano.
Context (mes : Z) (lt : Lote) (Hlt : lote_ok lt).

Lemma nome_de_afetada (ad : AnoDict) (r : Registo) :
  r ∈ registos_unicos lt →
  nome_de (empresa_nome_para_inserir ad lt) r = nome_para_inserir ad lt (empresa_norm r).
Proof.
  intros Hr. unfold nome_de, empresa_nome_para_inserir.
  rewrite (pd_get_pares (nome_para_inserir ad lt)).
  rewrite decide_True; [done|]. apply elem_of_elements. by apply (lo_afetada _ Hlt).
Qed.

Lemma segundos_nomes (ad : AnoDict) (k : string) :
  k ∈ (empresa_nome_para_inserir ad lt).*2 ↔
  ∃ n, n ∈ empresas_afetadas_norm lt ∧ k = nome_para_inserir ad lt n.
Proof.
  unfold empresa_nome_para_inserir. rewrite <- list_fmap_compose.
  rewrite list_elem_of_fmap. split.
  - intros (n & -> & Hn). exists n. split; [by apply elem_of_elements | done].
  - intros (n & Hn & ->). exists n. split; [done | by apply elem_of_elements].
Qed.

Lemma norm_nome_para_inserir (ad : AnoDict) (n : string) :
  n ∈ empresas_afetadas_norm lt →
  _norm_empresa_forte (nome_para_inserir ad lt n) = n.
Proof.
  intros Hn. unfold nome_para_inserir.
  destruct (lo_tem_display _ Hlt n Hn) as [D HD]. rewrite HD. simpl.
  pose proof (lo_display _ Hlt n D HD) as HnD.
  rewrite encontrar_pelas_chaves.
  destruct (List.find _ _) as [K|] eqn:E; [|done].
  destruct (Py.truthy K); [|done].
  apply find_Some_list in E as [_ E]. by apply String.eqb_eq in E.
Qed.

(** The name that receives a company does not change when the batch is
    applied. *)
Lemma nome_estavel (ad : AnoDict) (n : string) :
  n ∈ empresas_afetadas_norm lt →
  nome_para_inserir (aplicar_ano mes lt ad) lt n = nome_para_inserir ad lt n.
Proof.
  intros Hn.
  destruct (keys_inserir_todos (nome_de (empresa_nome_para_inserir ad lt)) registo_novo
              (somar_de mes) (registos_unicos lt)
              (zerar_empresas mes (empresa_nome_para_inserir ad lt) ad))
    as (novos & Hk & Hnov & _ & Hall).
  rewrite keys_zerar_empresas in Hk, Hall.
  fold (aplicar_ano mes lt ad) in Hk.
  unfold nome_para_inserir. rewrite !encontrar_pelas_chaves, Hk, find_app_list.
  destruct (List.find _ ad.*1) as [K|] eqn:E; [done|].
  destruct (lo_tem_display _ Hlt n Hn) as [D HD]. rewrite HD. simpl.
  assert (HnomeD : nome_para_inserir ad lt n = D).
  { unfold nome_para_inserir. by rewrite encontrar_pelas_chaves, E, HD. }
  destruct (lo_unico _ Hlt n Hn) as (r & Hr & Hrn).
  assert (HDin : D ∈ novos).
  { pose proof (Hall r Hr) as Hin. rewrite nome_de_afetada, Hrn, HnomeD in Hin by done.
    apply elem_of_app in Hin as [Hin|Hin]; [|done].
    pose proof (find_None_list _ _ D E Hin) as Hf. simpl in Hf.
    rewrite (lo_display _ Hlt n D HD) in Hf. by rewrite String.eqb_refl in Hf. }
  destruct (List.find _ novos) as [K|] eqn:E2.
  - apply find_Some_list in E2 as [HK HKn]. apply String.eqb_eq in HKn.
    apply Hnov, list_elem_of_fmap in HK as (r' & -> & Hr').
    rewrite nome_de_afetada in * by done.
    rewrite norm_nome_para_inserir in HKn by by apply (lo_afetada _ Hlt).
    rewrite HKn, HnomeD. by destruct (Py.truthy D).
  - pose proof (find_None_list _ _ D E2 HDin) as Hf. simpl in Hf.
    rewrite (lo_display _ Hlt n D HD) in Hf. by rewrite String.eqb_refl in Hf.
Qed.

Lemma nomes_estaveis (ad : AnoDict) :
  empresa_nome_para_inserir (aplicar_ano mes lt ad) lt = empresa_nome_para_inserir ad lt.
Proof.
  unfold empresa_nome_para_inserir. apply list_fmap_ext.
  intros i n Hn. f_equal. apply nome_estavel.
  apply elem_of_elements. by eapply list_elem_of_lookup_2.
Qed.

Lemma foldl_somar_de (l : list Registo) (x : RegistoEmpresa) :
  foldl (λ x r, somar_de mes r x) x l =
  somar_todos mes x ((λ r, (minutos r, (tecnico_final_de r).1)) <$> l).
Proof.
  revert x. induction l as [|r l IH]; intros x; [done|].
  unfold somar_todos in *. csimpl. by rewrite IH.
Qed.

Lemma nome_com_factos (ad : AnoDict) (k : string) :
  k ∈ (empresa_nome_para_inserir ad lt).*2 ↔
  filter (λ r, nome_de (empresa_nome_para_inserir ad lt) r = k) (registos_unicos lt) ≠ [].
Proof.
  split.
  - intros (n & Hn & ->)%segundos_nomes Hf.
    destruct (lo_unico _ Hlt n Hn) as (r & Hr & <-).
    assert (r ∈ filter (λ r', nome_de (empresa_nome_para_inserir ad lt) r'
                              = nome_para_inserir ad lt (empresa_norm r))
                  (registos_unicos lt)) as Hin.
    { apply list_elem_of_filter. split; [|done]. by apply nome_de_afetada. }
    rewrite Hf in Hin. by apply elem_of_nil in Hin.
  - intros Hf.
    destruct (filter _ _) as [|r0 lk] eqn:Ef; [done|].
    assert (r0 ∈ filter (λ r, nome_de (empresa_nome_para_inserir ad lt) r = k)
                   (registos_unicos lt)) as Hin by (rewrite Ef; by left).
    apply list_elem_of_filter in Hin as [Hnm Hr0].
    apply segundos_nomes. exists (empresa_norm r0).
    split; [by apply (lo_afetada _ Hlt) |].
    rewrite <- Hnm. by apply nome_de_afetada.
Qed.

(** Idempotence on the company map of the year. *)
Lemma aplicar_ano_idempotente (ad : AnoDict) :
  NoDup ad.*1 → aplicar_ano mes lt (aplicar_ano mes lt ad) = aplicar_ano mes lt ad.
Proof.
  intros Hnd.
  pose proof (nome_com_factos ad) as Hcf.
  set (nomes := empresa_nome_para_inserir ad lt) in *.
  set (ad1 := aplicar_ano mes lt ad).
  destruct (keys_inserir_todos (nome_de nomes) registo_novo (somar_de mes)
              (registos_unicos lt) (zerar_empresas mes nomes ad))
    as (novos & Hk & _ & Hnd1 & Hall).
  rewrite keys_zerar_empresas in Hk, Hnd1, Hall.
  change (ad1.*1 = ad.*1 ++ novos) in Hk.
  pose proof (nomes_estaveis ad) as Hne.
  change (empresa_nome_para_inserir ad1 lt = nomes) in Hne.
  assert (Hk2 : (aplicar_ano mes lt ad1).*1 = ad1.*1).
  { unfold aplicar_ano at 1. rewrite Hne.
    rewrite keys_inserir_todos_presentes; rewrite keys_zerar_empresas; [done|].
    intros r Hr. rewrite Hk. by apply Hall. }
  apply pd_ext; [rewrite Hk2, Hk; by apply Hnd1 | done |].
  intros k. unfold aplicar_ano at 1. rewrite Hne.
  assert (Had1 : pd_get k ad1 =
                 match filter (λ r, nome_de nomes r = k) (registos_unicos lt) with
                 | [] => pd_get k (zerar_empresas mes nomes ad)
                 | lk => Some (foldl (λ x r, somar_de mes r x)
                                 (default registo_novo (pd_get k (zerar_empresas mes nomes ad)))
                                 lk)
                 end) by apply get_inserir_todos.
  rewrite get_inserir_todos, get_zerar_empresas.
  rewrite get_zerar_empresas in Had1.
  destruct (decide (k ∈ nomes.*2)) as [Hin|Hnin].
  - pose proof (proj1 (Hcf k) Hin) as Hf.
    destruct (filter _ _) as [|r0 lk] eqn:Ef; [done|].
    remember (r0 :: lk) as l eqn:El.
    rewrite Had1. simpl. f_equal. rewrite !foldl_somar_de.
    apply (somar_todos_de_novo mes _ (pd_get k ad)). by subst l.
  - destruct (filter _ _) as [|r0 lk] eqn:Ef; [done|].
    exfalso. apply Hnin, Hcf. by rewrite Ef.
Qed.

End ano.

(** ** From the company map of the year to the ledger *)

Lemma no_ano_no_ano (ano : Z) (f g : AnoDict → AnoDict) (td : Ledger) :
  no_ano ano f (no_ano ano g td) = no_ano ano (f ∘ g) td.
Proof.
  unfold no_ano. rewrite lookup_insert_eq. simpl. by rewrite insert_insert_eq.
Qed.

Lemma no_ano_lookup (ano : Z) (f : AnoDict → AnoDict) (td : Ledger) :
  no_ano ano f td !! str_int ano = Some (f (default [] (td !! str_int ano))).
Proof. unfold no_ano. by rewrite lookup_insert_eq. Qed.

Lemma aplicar_registos_fst (ano mes : Z) (nomes : list (string * string))
    (l : list Registo) (td : Ledger) (a : gmap string Z) :
  (foldl (aplicar_registo ano mes nomes) (td, a) l).1 =
  foldl (λ td r, _adicionar_tempo_empresa ano mes (nome_de nomes r) (minutos r)
                   (tecnico_final_de r).1 td) td l.
Proof.
  revert td a. induction l as [|r l IH]; intros td a; [done|].
  cbn [foldl]. destruct (aplicar_registo ano mes nomes (td, a) r) as [td' a'] eqn:E.
  rewrite IH. f_equal. unfold aplicar_registo in E.
  destruct (tecnico_final_de r) as [tf si]. by injection E as <- _.
Qed.

Lemma adicionar_no_ano (ano mes : Z) (nomes : list (string * string))
    (l : list Registo) (f : AnoDict → AnoDict) (td : Ledger) :
  (∀ r, r ∈ l → 0 < minutos r) →
  foldl (λ td r, _adicionar_tempo_empresa ano mes (nome_de nomes r) (minutos r)
                   (tecnico_final_de r).1 td) (no_ano ano f td) l =
  no_ano ano (λ ad, inserir_todos (nome_de nomes) registo_novo (somar_de mes) (f ad) l) td.
Proof.
  revert f. induction l as [|r l IH]; intros f Hl; [done|].
  simpl.
  assert (Hr : 0 < minutos r) by (apply Hl; by left).
  apply Z.leb_gt in Hr.
  replace (_adicionar_tempo_empresa ano mes (nome_de nomes r) (minutos r)
             (tecnico_final_de r).1 (no_ano ano f td))
    with (no_ano ano (pd_upsert (nome_de nomes r) registo_novo (somar_de mes r) ∘ f) td).
  - rewrite IH; [done|]. intros r' Hr'. apply Hl. by right.
  - unfold _adicionar_tempo_empresa. by rewrite Hr, no_ano_no_ano.
Qed.

Lemma aplicar_lote_fst (ano mes : Z) (lt : Lote) (td : Ledger) :
  (∀ r, r ∈ registos_unicos lt → 0 < minutos r) →
  (aplicar_lote ano mes lt td).1 = no_ano ano (aplicar_ano mes lt) td.
Proof.
  intros Hl. unfold aplicar_lote.
  rewrite aplicar_registos_fst, no_ano_lookup, no_ano_no_ano. simpl.
  by rewrite adicionar_no_ano.
Qed.

(** The batch applied twice to the ledger is the batch applied once. *)
Lemma aplicar_lote_idempotente (ano mes : Z) (lt : Lote) (td : Ledger) :
  lote_ok lt →
  (∀ ad, td !! str_int ano = Some ad → NoDup ad.*1) →
  (aplicar_lote ano mes lt (aplicar_lote ano mes lt td).1).1
  = (aplicar_lote ano mes lt td).1.
Proof.
  intros Hlt Hnd.
  rewrite !aplicar_lote_fst by apply (lo_minutos _ Hlt).
  rewrite no_ano_no_ano. unfold no_ano. f_equal. simpl.
  apply aplicar_ano_idempotente; [done|].
  destruct (td !! str_int ano) as [ad|] eqn:E; simpl; [by apply Hnd | apply NoDup_nil_2].
Qed.

(** ** What the readers hand to the import *)

Lemma para_cada_inv {S X : Type} (P : S → Prop) (corpo : S → X → Resultado S)
    (l : list X) (s0 s : S) :
  (∀ s x s', P s → corpo s x = Retorna s' → P s') →
  P s0 → para_cada corpo s0 l = Retorna s → P s.
Proof.
  intros Hc. revert s0. induction l as [|x l IH]; intros s0 H0 Hr; simpl in Hr.
  - by injection Hr as <-.
  - destruct (corpo s0 x) as [s1|e] eqn:E; simpl in Hr; [|done].
    eapply IH; [|done]. by eapply Hc.
Qed.

Lemma registos_da_folha_ok (rs : list Detalhe) (ts : list (string * Z)) :
  Forall registo_ok (registos_da_folha rs ts).
Proof.
  unfold registos_da_folha. apply Forall_app. split; apply Forall_forall.
  - intros r Hr. apply list_elem_of_omap in Hr as ([[[e t] c] m] & _ & Hr).
    destruct (m <=? 0); [done|]. destruct (negb _); [done|]. by injection Hr as <-.
  - intros r Hr. apply list_elem_of_omap in Hr as ([e m] & _ & Hr).
    destruct (m <=? 0); [done|]. destruct (negb _); [done|]. by injection Hr as <-.
Qed.

Lemma _importar_excel_timings_ok (folhas : list Folha) (rs : list Registo) (d : Diag) :
  _importar_excel_timings folhas = Retorna (rs, d) → Forall registo_ok rs.
Proof.
  unfold _importar_excel_timings.
  apply (para_cada_inv (λ st : list Registo * Diag, Forall registo_ok st.1)); [|done].
  intros [rv d0] sh [rv' d'] H0 Hs. unfold folha_excel in Hs.
  destruct (_processar_sheet_colunas sh d0) as [[[[r1 t1] d1]|]|] eqn:E1; simpl in Hs.
  - injection Hs as <- <-. apply Forall_app. split; [done | apply registos_da_folha_ok].
  - destruct (_processar_sheet_workload sh d0) as [[[r2 t2] d2]|] eqn:E2; simpl in Hs; [|done].
    injection Hs as <- <-. apply Forall_app. split; [done | apply registos_da_folha_ok].
  - done.
Qed.

Lemma ler_ficheiros_ok (mes : Z) (ficheiros : list (list Folha)) (lt : Lote) (ag : Diag) :
  para_cada (ler_ficheiro mes) (lote_vazio, diag_vazio) ficheiros = Retorna (lt, ag) →
  lote_ok lt.
Proof.
  apply (para_cada_inv (λ st : Lote * Diag, lote_ok st.1)); [|apply lote_ok_vazio].
  intros [lt0 ag0] folhas [lt1 ag1] H0 Hs. unfold ler_ficheiro in Hs.
  destruct (_importar_excel_timings folhas) as [[rs d]|] eqn:E; simpl in Hs; [|done].
  injection Hs as <- <-. simpl. apply lote_ok_foldl; [|done].
  by eapply _importar_excel_timings_ok.
Qed.

Lemma aplicar_registos_snd (ano mes : Z) (nomes nomes' : list (string * string))
    (l : list Registo) (td td' : Ledger) (a : gmap string Z) :
  (foldl (aplicar_registo ano mes nomes) (td, a) l).2 =
  (foldl (aplicar_registo ano mes nomes') (td', a) l).2.
Proof.
  revert td td' a. induction l as [|r l IH]; intros td td' a; [done|].
  cbn [foldl].
  destruct (aplicar_registo ano mes nomes (td, a) r) as [td1 a1] eqn:E1.
  destruct (aplicar_registo ano mes nomes' (td', a) r) as [td2 a2] eqn:E2.
  unfold aplicar_registo in E1, E2. destruct (tecnico_final_de r) as [tf si].
  injection E1 as <- <-. injection E2 as <- <-. apply IH.
Qed.

Lemma aplicar_lote_snd (ano mes : Z) (lt : Lote) (td td' : Ledger) :
  (aplicar_lote ano mes lt td).2 = (aplicar_lote ano mes lt td').2.
Proof. unfold aplicar_lote. apply aplicar_registos_snd. Qed.

(** C1. Import idempotence: importing the same workbooks for the same year
    and month a second time, right after the first, returns the ledger the
    first import left, with the same report; the touched companies had the
    month emptied and the deduplicated facts written again, so monthly
    totals, per-technician maps, extras and deleted flags are unchanged.
    When a reader raises, both requests raise and the ledger is untouched. *)
Theorem importar_timings_idempotente (ano mes : Z) (ficheiros : list (list Folha))
    (td : Ledger) :
  (∀ ad, td !! str_int ano = Some ad → NoDup ad.*1) →
  let r1 := importar_timings ano mes ficheiros td in
  let td1 := ledger_apos r1 td in
  importar_timings ano mes ficheiros td1 =
  match r1 with
  | Retorna (_, houve_alteracoes, relatorio) => Retorna (td1, houve_alteracoes, relatorio)
  | Levanta e => Levanta e
  end.
Proof.
  intros Hnd r1 td1. subst td1 r1. unfold importar_timings.
  destruct (para_cada (ler_ficheiro mes) (lote_vazio, diag_vazio) ficheiros)
    as [[lt ag]|e] eqn:E; simpl; [|done].
  pose proof (ler_ficheiros_ok _ _ _ _ E) as Hlt.
  pose proof (aplicar_lote_idempotente ano mes lt td Hlt Hnd) as Hid.
  pose proof (aplicar_lote_snd ano mes lt (aplicar_lote ano mes lt td).1 td) as Hsn.
  destruct (aplicar_lote ano mes lt td) as [td' arm] eqn:Ea. simpl in Hid, Hsn.
  destruct (registos_unicos lt) as [|r0 U] eqn:EU.
  - destruct (_ && _); simpl; [done|].
    destruct (aplicar_lote ano mes lt td') as [td'' arm''] eqn:Ea'. simpl in *.
    by subst.
  - simpl. destruct (aplicar_lote ano mes lt td') as [td'' arm''] eqn:Ea'. simpl in *.
    by subst.
Qed.

(** ** Soft delete and reactivation *)

Lemma pd_get_set {K V : Type} `{EqDecision K} (k : K) (v : V) (d : list (K * V)) :
  pd_get k (pd_set k v d) = Some v.
Proof.
  unfold pd_set. destruct (pd_get k d) eqn:E.
  - rewrite pd_get_alter, decide_True by done. by rewrite E.
  - rewrite pd_get_app, E. simpl. by rewrite decide_True.
Qed.

Lemma timings_dados_guardar (amb : Ambiente) (p : Processo) :
  timings_dados (_guardar_timings_para_ficheiro amb p).1 = timings_dados p.
Proof.
  unfold _guardar_timings_para_ficheiro.
  destruct (_total_minutos_timings _); [|done].
  destruct (reducao_suspeita _ _) as [[]|]; [done| |done].
  unfold remover_tmp, escrita_falhada.
  destruct (escrita_ok amb), (replace_ok amb), (escrita_parcial amb), (remove_ok amb);
    simpl; try done; by destruct (ficheiro_tmp p).
Qed.

Lemma timings_dados_persistir (amb : Ambiente) (p : Processo) :
  timings_dados (_persistir_timings amb p).1 = timings_dados p.
Proof.
  unfold _persistir_timings. rewrite timings_dados_guardar. unfold copiar_bak.
  destruct (_PRECISA_BACKUP_TIMINGS p), (TIMINGS_FILE p); try done.
  by destruct (copia_ok amb).
Qed.

Lemma apagado_somar_todos (mes : Z) (l : list (Z * option string)) (x : RegistoEmpresa) :
  l ≠ [] → apagado (somar_todos mes x l) = false.
Proof.
  revert x. induction l as [|[m t] l IH]; intros x Hl; [done|].
  unfold somar_todos in *. cbn [foldl]. destruct l as [|e l]; [done|].
  by apply IH.
Qed.

Lemma apagado_apos_aplicar_ano (mes : Z) (lt : Lote) (ad : AnoDict) (r : Registo) :
  lote_ok lt → r ∈ registos_unicos lt →
  ∃ rec, pd_get (nome_para_inserir ad lt (empresa_norm r)) (aplicar_ano mes lt ad) = Some rec
         ∧ apagado rec = false.
Proof.
  intros Hlt Hr. unfold aplicar_ano. rewrite get_inserir_todos.
  assert (Hin : r ∈ filter
            (λ r', nome_de (empresa_nome_para_inserir ad lt) r'
                   = nome_para_inserir ad lt (empresa_norm r))
            (registos_unicos lt)).
  { apply list_elem_of_filter. split; [|done]. by apply nome_de_afetada. }
  destruct (filter _ _) as [|r1 lk] eqn:Ef; [by apply elem_of_nil in Hin|].
  eexists. split; [reflexivity|]. rewrite foldl_somar_de. by apply apagado_somar_todos.
Qed.

(** C9. Soft-delete reactivation.  (1) The soft delete leaves the company
    with its deleted flag up.  (2) Adding positive minutes to a company
    leaves its record with the deleted flag down and the month increased by
    those minutes, whatever the flag was.  (3) Adding zero or negative
    minutes changes nothing in the ledger.  (4) After an import, every
    company that received one of the deduplicated facts of the batch has its
    deleted flag down. *)
Theorem reativacao_ao_importar :
  (∀ (amb : Ambiente) (ano : Z) (empresa : string) (p : Processo),
     ∃ ad rec,
       timings_dados (excluir_timing_empresa amb ano empresa p).1 !! str_int ano = Some ad
       ∧ pd_get empresa ad = Some rec ∧ apagado rec = true)
  ∧ (∀ (ano mes : Z) (empresa : string) (minutos : Z) (tecnico : option string)
       (td : Ledger),
       0 < minutos →
       ∃ ad rec,
         _adicionar_tempo_empresa ano mes empresa minutos tecnico td !! str_int ano = Some ad
         ∧ pd_get empresa ad = Some rec
         ∧ apagado rec = false
         ∧ meses rec !! inl mes =
           Some (default 0 (r ← pd_get empresa (default [] (td !! str_int ano));
                            meses r !! inl mes) + minutos))
  ∧ (∀ (ano mes : Z) (empresa : string) (minutos : Z) (tecnico : option string)
       (td : Ledger),
       minutos ≤ 0 → _adicionar_tempo_empresa ano mes empresa minutos tecnico td = td)
  ∧ (∀ (ano mes : Z) (ficheiros : list (list Folha)) (td : Ledger) (lt : Lote)
       (ag : Diag) (r : Registo),
       para_cada (ler_ficheiro mes) (lote_vazio, diag_vazio) ficheiros = Retorna (lt, ag) →
       r ∈ registos_unicos lt →
       ∃ td' relatorio ad rec,
         importar_timings ano mes ficheiros td = Retorna (td', true, relatorio)
         ∧ td' !! str_int ano = Some ad
         ∧ pd_get (nome_para_inserir (default [] (td !! str_int ano)) lt (empresa_norm r)) ad
           = Some rec
         ∧ apagado rec = false).
Proof.
  split_and!.
  - intros amb ano empresa p. unfold excluir_timing_empresa.
    rewrite timings_dados_persistir. simpl. rewrite no_ano_lookup.
    eexists _, _. split; [done|]. rewrite pd_get_set. split; [done|].
    by destruct (pd_get empresa _).
  - intros ano mes empresa minutos tecnico td Hm. unfold _adicionar_tempo_empresa.
    apply Z.leb_gt in Hm. rewrite Hm, no_ano_lookup.
    eexists _, _. split; [done|]. rewrite pd_get_upsert, decide_True by done.
    split; [done|]. split; [done|]. simpl. rewrite lookup_insert_eq.
    by destruct (pd_get empresa _).
  - intros ano mes empresa minutos tecnico td Hm. unfold _adicionar_tempo_empresa.
    apply Z.leb_le in Hm. by rewrite Hm.
  - intros ano mes ficheiros td lt ag r E Hr.
    pose proof (ler_ficheiros_ok _ _ _ _ E) as Hlt.
    unfold importar_timings. rewrite E. simpl.
    pose proof (aplicar_lote_fst ano mes lt td (lo_minutos _ Hlt)) as Hf.
    destruct (apagado_apos_aplicar_ano mes lt (default [] (td !! str_int ano)) r Hlt Hr)
      as (rec & Hrec & Hap).
    destruct (aplicar_lote ano mes lt td) as [td' arm]. simpl in Hf. subst td'.
    destruct (registos_unicos lt) as [|r0 U] eqn:EU; [by apply elem_of_nil in Hr|].
    eexists _, _, _, rec. split; [done|]. rewrite no_ano_lookup. by split.
Qed.

(** ** Deduplication *)


(** The batch of an import is the deduplication loop run over the facts of
    its files, one file after the other. *)
Lemma ler_ficheiros_foldl (mes : Z) (ficheiros : list (list Folha)) (lt0 lt : Lote)
    (ag0 ag : Diag) :
  para_cada (ler_ficheiro mes) (lt0, ag0) ficheiros = Retorna (lt, ag) →
  ∃ rss : list (list Registo),
    Forall2 (λ folhas rs, ∃ d, _importar_excel_timings folhas = Retorna (rs, d)) ficheiros rss
    ∧ lt = foldl (dedup_registo mes) lt0 (List.concat rss).
Proof.
  revert lt0 ag0. induction ficheiros as [|folhas ficheiros IH]; intros lt0 ag0 H.
  { injection H as <- <-. by exists []. }
  cbn [para_cada] in H.
  destruct (ler_ficheiro mes (lt0, ag0) folhas) as [[lt1 ag1]|e] eqn:E1; simpl in H; [|done].
  unfold ler_ficheiro in E1.
  destruct (_importar_excel_timings folhas) as [[rs d]|e] eqn:E; simpl in E1; [|done].
  injection E1 as <- <-.
  apply IH in H as (rss & HF & ->).
  exists (rs :: rss). split.
  - constructor; [|exact HF]. exists d. exact E.
  - simpl. by rewrite foldl_app.
Qed.


(** ** The special-case technician marker *)



#[local] Arguments _resolver_tecnico : simpl never.
#[local] Arguments _canonical_tecnico_nome : simpl never.




(** ** The legacy layout: closing a company block *)

Lemma linhas_de_detalhe (c : string) (det : list Linha) (st st1 : EstadoWorkload) :
  w_empresa_atual st = Some c → Py.truthy c = true →
  Forall (λ row, linha_de_empresa row = None) det →
  para_cada linha_workload st det = Retorna st1 →
  w_registos st1 = w_registos st
  ∧ w_totais_fallback st1 = w_totais_fallback st
  ∧ w_empresa_atual st1 = Some c
  ∧ w_resumo_atual_min st1 = w_resumo_atual_min st
  ∧ w_registos_empresa st1 = w_registos_empresa st ++ omap (detalhe_reconhecido c) det
  ∧ resumos_ignorados_por_empresa (w_diag st1) = resumos_ignorados_por_empresa (w_diag st).
Proof.
  intros Hc Ht Hdet. revert st Hc. induction Hdet as [|row det Hrow Hdet IH]; intros st Hc Hp.
  - simpl in Hp. injection Hp as <-. by rewrite app_nil_r.
  - cbn [para_cada] in Hp.
    destruct (linha_workload st row) as [st'|e] eqn:E; simpl in Hp; [|done].
    assert (Hst' : w_registos st' = w_registos st
                   ∧ w_totais_fallback st' = w_totais_fallback st
                   ∧ w_empresa_atual st' = Some c
                   ∧ w_resumo_atual_min st' = w_resumo_atual_min st
                   ∧ w_registos_empresa st' =
                     w_registos_empresa st
                       ++ match detalhe_reconhecido c row with Some f => [f] | None => [] end
                   ∧ resumos_ignorados_por_empresa (w_diag st')
                     = resumos_ignorados_por_empresa (w_diag st)).
    { clear IH Hp Hdet. unfold linha_workload in E.
      unfold linha_de_empresa in Hrow. unfold detalhe_reconhecido.
      destruct row as [|[texto|] cauda];
        [simpl in E; injection E as <-; by rewrite app_nil_r| |
         simpl in E; injection E as <-; by rewrite app_nil_r].
      unfold linha_saltada in *. cbv zeta in E.
      set (ts := Py.strip texto) in *.
      set (b0 := negb (Py.truthy ts)) in *.
      set (b1 := existsb (String.eqb (PyTxt.upper ts)) ["EMPRESA"; "TOTAL"]
                 || _is_linha_total ts) in *.
      set (b2 := PyTxt.contains "MAPA DE TEMPO TRABALHADO" (PyTxt.upper ts)) in *.
      set (b3 := PyTxt.startswith "    " texto) in *.
      clearbody b0 b1 b2 b3.
      destruct b0; [injection E as <-; by rewrite app_nil_r|].
      destruct b1; [injection E as <-; by rewrite app_nil_r|].
      destruct b2; [injection E as <-; by rewrite app_nil_r|].
      destruct b3; [|done]. cbn [orb negb] in *.
      rewrite Hc, Ht in E. cbn [negb] in E.
      destruct (_parse_tempo_para_minutos _) as [m|e]; [|done].
      cbn [mbind Resultado_bind] in E.
      destruct (m <=? 0); [injection E as <-; by rewrite app_nil_r|].
      destruct (_resolver_tecnico _) as [tipo canonico].
      destruct (String.eqb tipo "desconhecido"); injection E as <-; simpl;
        [by rewrite app_nil_r | done]. }
    destruct Hst' as (H1 & H2 & H3 & H4 & H5 & H6).
    destruct (IH st' H3 Hp) as (G1 & G2 & G3 & G4 & G5 & G6).
    split_and!; try congruence.
    rewrite G5, H5, <- app_assoc. f_equal. simpl.
    by destruct (detalhe_reconhecido c row).
Qed.

Lemma finalizar_bloco_aberto (st : EstadoWorkload) (c : string) :
  w_empresa_atual st = Some c → Py.truthy c = true →
  let fim := finalizar_empresa st in
  let resumo := w_resumo_atual_min st in
  match w_registos_empresa st with
  | _ :: _ =>
      w_registos fim = w_registos st ++ w_registos_empresa st
      ∧ w_totais_fallback fim = w_totais_fallback st
      ∧ resumos_ignorados_por_empresa (w_diag fim)
        = (if 0 <? resumo
           then acumular c resumo (resumos_ignorados_por_empresa (w_diag st))
           else resumos_ignorados_por_empresa (w_diag st))
  | [] =>
      w_registos fim = w_registos st
      ∧ w_totais_fallback fim
        = (if 0 <? resumo then pd_acumular c resumo (w_totais_fallback st)
           else w_totais_fallback st)
      ∧ resumos_ignorados_por_empresa (w_diag fim)
        = resumos_ignorados_por_empresa (w_diag st)
  end.
Proof.
  intros Hc Ht fim resumo. subst fim resumo. unfold finalizar_empresa.
  rewrite Hc, Ht. cbn [negb].
  destruct (w_registos_empresa st); cbn; [done|].
  split; [done|]. split; [done|]. by destruct (0 <? w_resumo_atual_min st).
Qed.

(** C8 (as the code has it). The legacy layout, one company block: the row of the
    company [c] with its inline total, then the rows below it up to the next
    company row.  The facts of the block are its indented rows with positive
    minutes and a recognised technician (an alias of a known person or the
    special-case marker), in order; rows with an unknown technician or
    without minutes yield no fact.  When the block is closed: if it has at
    least one fact, its facts are appended to the facts of the sheet, and its
    inline total, when positive, is added to the ignored-summary report and
    to no fallback; if it has no fact and the inline total is positive, the
    inline total is added to the fallback total of the company, which
    carries no technician, and the ignored-summary report is left alone. *)
Theorem bloco_do_layout_legacy (st st1 : EstadoWorkload) (row_c : Linha)
    (det : list Linha) (c : string) (col2 : Celula) :
  w_registos_empresa (finalizar_empresa st) = [] →
  linha_de_empresa row_c = Some (c, col2) →
  Forall (λ row, linha_de_empresa row = None) det →
  para_cada linha_workload st (row_c :: det) = Retorna st1 →
  let st0 := finalizar_empresa st in
  let factos := omap (detalhe_reconhecido c) det in
  let fim := finalizar_empresa st1 in
  ∃ resumo,
    _parse_tempo_para_minutos col2 = Retorna resumo
    ∧ w_registos fim = w_registos st0 ++ factos
    ∧ match factos with
      | _ :: _ =>
          w_totais_fallback fim = w_totais_fallback st0
          ∧ resumos_ignorados_por_empresa (w_diag fim)
            = (if 0 <? resumo
               then acumular c resumo (resumos_ignorados_por_empresa (w_diag st0))
               else resumos_ignorados_por_empresa (w_diag st0))
      | [] =>
          w_totais_fallback fim
          = (if 0 <? resumo then pd_acumular c resumo (w_totais_fallback st0)
             else w_totais_fallback st0)
          ∧ resumos_ignorados_por_empresa (w_diag fim)
            = resumos_ignorados_por_empresa (w_diag st0)
      end.
Proof.
  intros Hfech Hrow Hdet Hp st0 factos fim.
  cbn [para_cada] in Hp.
  destruct (linha_workload st row_c) as [stc|e] eqn:E; simpl in Hp; [|done].
  assert (Hstc : Py.truthy c = true ∧ ∃ resumo,
             _parse_tempo_para_minutos col2 = Retorna resumo
             ∧ w_registos stc = w_registos st0
             ∧ w_totais_fallback stc = w_totais_fallback st0
             ∧ w_empresa_atual stc = Some c
             ∧ w_resumo_atual_min stc = resumo
             ∧ w_registos_empresa stc = []
             ∧ w_diag stc = w_diag st0).
  { clear Hp Hdet. unfold linha_workload in E. unfold linha_de_empresa in Hrow.
    destruct row_c as [|[texto|] cauda]; [done| |done].
    unfold linha_saltada in *. cbv zeta in E.
    set (ts := Py.strip texto) in *.
    destruct (Py.truthy ts) eqn:Ets; [|done]. cbn [negb orb] in *.
    set (b1 := existsb (String.eqb (PyTxt.upper ts)) ["EMPRESA"; "TOTAL"]
               || _is_linha_total ts) in *.
    set (b2 := PyTxt.contains "MAPA DE TEMPO TRABALHADO" (PyTxt.upper ts)) in *.
    set (b3 := PyTxt.startswith "    " texto) in *.
    clearbody b1 b2 b3.
    destruct b1; [done|]. destruct b2; [done|]. destruct b3; [done|].
    cbn [orb] in Hrow. injection Hrow as <- <-. split; [done|].
    fold st0 in E.
    destruct (_parse_tempo_para_minutos _) as [resumo|e]; [|done].
    cbn [mbind Resultado_bind] in E. injection E as <-.
    exists resumo. by split_and!. }
  destruct Hstc as (Ht & resumo & Hr & H1 & H2 & H3 & H4 & H5 & H6).
  destruct (linhas_de_detalhe c det stc st1 H3 Ht Hdet Hp) as (G1 & G2 & G3 & G4 & G5 & G6).
  rewrite H5 in G5. simpl in G5. fold factos in G5.
  exists resumo. split; [done|].
  pose proof (finalizar_bloco_aberto st1 c G3 Ht) as Hfim. cbv zeta in Hfim.
  fold fim in Hfim. rewrite G5, G4, H4, G1, H1, G2, H2, G6, H6 in Hfim.
  destruct factos as [|f fs]; destruct Hfim as (F1 & F2 & F3).
  - rewrite app_nil_r. by split_and!.
  - by split_and!.
Qed.

(** ** The guarded save *)

Lemma TIMINGS_FILE_copiar_bak (amb : Ambiente) (p : Processo) :
  TIMINGS_FILE (copiar_bak amb p) = TIMINGS_FILE p
  ∧ timings_dados (copiar_bak amb p) = timings_dados p.
Proof.
  unfold copiar_bak.
  destruct (_PRECISA_BACKUP_TIMINGS p), (TIMINGS_FILE p) as [c|] eqn:Ef;
    rewrite ?Ef; try done.
  destruct (copia_ok amb); simpl; by rewrite ?Ef.
Qed.



(** ** The order of the floats *)

Lemma SFcompare_ordem (x y : Float64.float) :
  Float64.isnan x = false → Float64.isnan y = false →
  ∃ c, SFcompare x y = Some c ∧
       match c with
       | Lt => Float64.antes (Float64.ordem x) (Float64.ordem y)
       | Eq => Float64.ordem x = Float64.ordem y
       | Gt => Float64.antes (Float64.ordem y) (Float64.ordem x)
       end.
Proof.
  unfold Float64.antes.
  destruct x as [[]|[]| |[] m e], y as [[]|[]| |[] m' e']; simpl; intros Hx Hy; try done.
  all: try (eexists; split; [reflexivity|]; simpl; first [reflexivity | lia]).
  all: change (PosDef.Pos.compare_cont Eq m m') with (Pos.compare m m');
    destruct (Z.compare_spec e e'), (Pos.compare_spec m m'); subst;
    (eexists; split; [reflexivity|]; simpl; first [reflexivity | lia]).
Qed.

Lemma ltb_antes (x y : Float64.float) :
  Float64.isnan x = false → Float64.isnan y = false →
  Float64.ltb x y = true ↔ Float64.antes (Float64.ordem x) (Float64.ordem y).
Proof.
  intros Hx Hy. destruct (SFcompare_ordem x y Hx Hy) as (c & Hc & H).
  unfold Float64.ltb, SFltb. rewrite Hc. unfold Float64.antes in *.
  destruct c; [rewrite H| |]; split; intros; try done; lia.
Qed.

Lemma eqb_ordem (x y : Float64.float) :
  Float64.isnan x = false → Float64.isnan y = false →
  Float64.eqb x y = true ↔ Float64.ordem x = Float64.ordem y.
Proof.
  intros Hx Hy. destruct (SFcompare_ordem x y Hx Hy) as (c & Hc & H).
  unfold Float64.eqb, SFeqb. rewrite Hc. unfold Float64.antes in *.
  destruct c; split; intros He; try done; rewrite He in H; lia.
Qed.

Lemma leb_antes (x y : Float64.float) :
  Float64.isnan x = false → Float64.isnan y = false →
  Float64.leb x y = true ↔ ¬ Float64.antes (Float64.ordem y) (Float64.ordem x).
Proof.
  intros Hx Hy. destruct (SFcompare_ordem x y Hx Hy) as (c & Hc & H).
  unfold Float64.leb, SFleb. rewrite Hc. unfold Float64.antes in *.
  destruct c; [rewrite H| |]; split; intros; try done; lia.
Qed.

(** [x < y] is false exactly when [y <= x], for numbers. *)
Lemma ltb_false_leb (x y : Float64.float) :
  Float64.isnan x = false → Float64.isnan y = false →
  Float64.ltb x y = false ↔ Float64.leb y x = true.
Proof.
  intros Hx Hy. rewrite leb_antes, <- ltb_antes by done.
  by destruct (Float64.ltb x y).
Qed.

(** ** The order of the texts *)

Lemma ascii_compare_spec (a b : ascii) :
  CompareSpec (a = b) (N_of_ascii a < N_of_ascii b)%N (N_of_ascii b < N_of_ascii a)%N
              (Ascii.compare a b).
Proof.
  unfold Ascii.compare. destruct (N.compare_spec (N_of_ascii a) (N_of_ascii b)) as [E| |];
    constructor; try done.
  rewrite <- (ascii_N_embedding a), <- (ascii_N_embedding b). by rewrite E.
Qed.

(** [String.compare] is a total order: its [<=] is transitive. *)
Lemma string_compare_trans (s1 s2 s3 : string) :
  String.compare s1 s2 ≠ Gt → String.compare s2 s3 ≠ Gt → String.compare s1 s3 ≠ Gt.
Proof.
  revert s2 s3. induction s1 as [|a s1 IH]; intros [|b s2] [|c s3]; simpl; try done.
  destruct (ascii_compare_spec a b), (ascii_compare_spec b c), (ascii_compare_spec a c);
    subst; try done; try lia.
  - apply IH.
Qed.

Lemma string_ltb_asym (s1 s2 : string) : String.ltb s1 s2 = true → String.ltb s2 s1 = false.
Proof.
  unfold String.ltb. rewrite (String.compare_antisym s1 s2).
  by destruct (String.compare s2 s1).
Qed.

Lemma string_ltb_neg_trans (s1 s2 s3 : string) :
  String.ltb s1 s2 = false → String.ltb s2 s3 = false → String.ltb s1 s3 = false.
Proof.
  unfold String.ltb. intros H1 H2.
  assert (String.compare s3 s2 ≠ Gt) as G1.
  { rewrite String.compare_antisym. by destruct (String.compare s2 s3). }
  assert (String.compare s2 s1 ≠ Gt) as G2.
  { rewrite String.compare_antisym. by destruct (String.compare s1 s2). }
  pose proof (string_compare_trans _ _ _ G1 G2) as G.
  rewrite String.compare_antisym in G. by destruct (String.compare s1 s3).
Qed.

Lemma leb_true_numeros (x y : Float64.float) :
  Float64.leb x y = true → Float64.isnan x = false ∧ Float64.isnan y = false.
Proof. by destruct x as [| | |[] ? ?], y as [| | |[] ? ?]. Qed.

(** ** Sorting and [max] *)

Section ordenacao_lemas.
Context {A : Type} (menor : A → A → bool) (P : A → Prop).
Hypothesis menor_assim : ∀ x y, P x → P y → menor x y = true → menor y x = false.
Hypothesis menor_neg_trans :
  ∀ x y z, P x → P y → P z → menor x y = false → menor y z = false → menor x z = false.

Lemma inserir_desc_perm (x : A) (l : list A) : inserir_desc menor x l ≡ₚ x :: l.
Proof.
  induction l as [|y l IH]; simpl; [done|].
  destruct (menor x y); [|done]. by rewrite IH, Permutation_swap.
Qed.

Lemma sorted_reverse_perm (l : list A) : sorted_reverse menor l ≡ₚ l.
Proof.
  induction l as [|x l IH]; [done|].
  change (sorted_reverse menor (x :: l)) with (inserir_desc menor x (sorted_reverse menor l)).
  by rewrite inserir_desc_perm, IH.
Qed.

Lemma inserir_desc_sorted (x : A) (l : list A) :
  P x → Forall P l →
  StronglySorted (λ a b, menor a b = false) l →
  StronglySorted (λ a b, menor a b = false) (inserir_desc menor x l).
Proof.
  intros Hx HP Hs. induction Hs as [|y l Hs IH Hy]; simpl.
  { repeat constructor. }
  apply Forall_cons in HP as [HPy HP].
  destruct (menor x y) eqn:Hxy.
  - constructor; [by apply IH|].
    rewrite inserir_desc_perm. constructor; [|done]. by apply menor_assim.
  - constructor; [by constructor|]. constructor; [done|].
    rewrite Forall_forall in Hy, HP |- *. intros z Hz.
    apply (menor_neg_trans x y z); auto.
Qed.

Lemma sorted_reverse_sorted (l : list A) :
  Forall P l → StronglySorted (λ a b, menor a b = false) (sorted_reverse menor l).
Proof.
  induction 1 as [|x l Hx HP IH]; [constructor|].
  change (sorted_reverse menor (x :: l)) with (inserir_desc menor x (sorted_reverse menor l)).
  apply inserir_desc_sorted; [done| |done].
  by rewrite sorted_reverse_perm.
Qed.

End ordenacao_lemas.

Section py_max_lemas.
Context {A : Type} (maior : A → A → bool) (P : A → Prop).
Hypothesis maior_irrefl : ∀ x, maior x x = false.
Hypothesis maior_trans :
  ∀ x y z, P x → P y → P z → maior x y = true → maior y z = true → maior x z = true.

Lemma py_max_maximo (x0 : A) (l : list A) :
  Forall P (x0 :: l) →
  py_max maior x0 l ∈ x0 :: l ∧ ∀ x, x ∈ x0 :: l → maior x (py_max maior x0 l) = false.
Proof.
  unfold py_max. intros HP.
  assert (∀ vistos best,
            Forall P (vistos ++ l) → best ∈ vistos →
            (∀ x, x ∈ vistos → maior x best = false) →
            foldl (λ best x, if maior x best then x else best) best l ∈ vistos ++ l ∧
            ∀ x, x ∈ vistos ++ l →
                 maior x (foldl (λ best x, if maior x best then x else best) best l) = false)
    as Hgen.
  { clear HP. induction l as [|y l IH]; intros vistos best HP Hin Hmax.
    { rewrite app_nil_r. done. }
    replace (vistos ++ y :: l) with ((vistos ++ [y]) ++ l) in * by by rewrite <- app_assoc.
    rewrite Forall_forall in HP.
    assert (y ∈ vistos ++ [y]) as Hy_in by (apply elem_of_app; right; by left).
    assert (P y) by (apply HP, elem_of_app; by left).
    assert (P best) by (apply HP, elem_of_app; left; apply elem_of_app; by left).
    simpl. apply IH; [by apply Forall_forall| |].
    - destruct (maior y best); [done|]. apply elem_of_app. by left.
    - intros x Hx.
      destruct (maior y best) eqn:Hy.
      + apply elem_of_app in Hx as [Hx|Hx].
        * destruct (maior x y) eqn:Hxy; [|done].
          rewrite <- (Hmax x Hx). symmetry. apply (maior_trans x y best); auto.
          apply HP, elem_of_app. left. apply elem_of_app. by left.
        * apply list_elem_of_singleton in Hx as ->. apply maior_irrefl.
      + apply elem_of_app in Hx as [Hx|Hx]; [by apply Hmax|].
        by apply list_elem_of_singleton in Hx as ->. }
  apply (Hgen [x0] x0); [done|by left|].
  intros x Hx. apply list_elem_of_singleton in Hx as ->. apply maior_irrefl.
Qed.

End py_max_lemas.

(** ** The index of the matcher *)

Lemma indice_ok_vazio : indice_ok [] indice_vazio.
Proof.
  split; simpl; try done.
  intros k Hk. by apply elem_of_nil in Hk.
Qed.

Lemma indice_ok_indexar (ano_dict : AnoDict) (idx : Indice) (item : string * RegistoEmpresa) :
  indice_ok ano_dict idx → indice_ok (ano_dict ++ [item]) (indexar idx item).
Proof.
  intros [Hb Htd Hte Ho]. destruct item as [empresa rec]. unfold indexar.
  assert (∀ c rec', original_para_registo idx !! c = Some rec' →
                    (c, rec') ∈ ano_dict ++ [(empresa, rec)] ∧ apagado rec' = false) as Ho'.
  { intros c rec' H. destruct (Ho c rec' H). split; [|done]. apply elem_of_app. by left. }
  destruct (apagado rec) eqn:Hap; [by split|].
  assert (∀ c rec', <[empresa := rec]> (original_para_registo idx) !! c = Some rec' →
                    (c, rec') ∈ ano_dict ++ [(empresa, rec)] ∧ apagado rec' = false) as Ho''.
  { intros c rec' H. destruct (decide (empresa = c)) as [<-|Hne].
    - rewrite lookup_insert_eq in H. injection H as <-. split; [|done].
      apply elem_of_app. right. by left.
    - rewrite lookup_insert_ne in H by done. by apply Ho'. }
  assert (∀ c, is_Some (original_para_registo idx !! c) →
               is_Some (<[empresa := rec]> (original_para_registo idx) !! c)) as Hs.
  { intros c H. destruct (decide (empresa = c)) as [<-|Hne].
    - by rewrite lookup_insert_eq.
    - by rewrite lookup_insert_ne. }
  destruct (Py.truthy (normalizar_nome empresa)) eqn:Ht; simpl.
  - split; simpl.
    + intros k bucket. rewrite pd_get_upsert.
      destruct (decide (normalizar_nome empresa = k)) as [<-|Hne].
      * intros [= <-]. split; [by destruct (default [] _)|]. split; [done|].
        intros c Hc. apply elem_of_app in Hc as [Hc|Hc].
        -- destruct (pd_get (normalizar_nome empresa) (map_norm_to_originals idx))
             as [velho|] eqn:Hv; simpl in Hc; [|by apply elem_of_nil in Hc].
           destruct (Hb _ _ Hv) as (_ & _ & H). destruct (H c Hc). auto.
        -- apply list_elem_of_singleton in Hc as ->. split; [done|].
           by rewrite lookup_insert_eq.
      * intros Hv. destruct (Hb _ _ Hv) as (? & ? & H). split; [done|]. split; [done|].
        intros c Hc. destruct (H c Hc). auto.
    + intros k t.
      destruct (tokens_por_norm idx !! normalizar_nome empresa) eqn:Hk; [apply Htd|].
      destruct (decide (normalizar_nome empresa = k)) as [<-|Hne].
      * rewrite lookup_insert_eq. by intros [= <-].
      * rewrite lookup_insert_ne by done. apply Htd.
    + intros k. unfold norm_keys. simpl. rewrite pd_upsert_keys.
      intros Hk.
      assert (k ∈ norm_keys idx ∨ k = normalizar_nome empresa) as [Hk'| ->].
      { destruct (decide _); [by left|].
        apply elem_of_app in Hk as [|Hk]; [by left|].
        right. by apply list_elem_of_singleton in Hk. }
      * apply Hte in Hk'.
        destruct (tokens_por_norm idx !! normalizar_nome empresa) eqn:Hn; [done|].
        destruct (decide (normalizar_nome empresa = k)) as [<-|Hne].
        -- by rewrite lookup_insert_eq.
        -- by rewrite lookup_insert_ne.
      * destruct (tokens_por_norm idx !! normalizar_nome empresa) eqn:Hn; [by rewrite Hn|].
        by rewrite lookup_insert_eq.
    + done.
  - split; simpl; try done.
    intros k bucket Hv. destruct (Hb _ _ Hv) as (? & ? & H). split; [done|]. split; [done|].
    intros c Hc. destruct (H c Hc). auto.
Qed.

Lemma indice_ok_foldl (l ano_dict : AnoDict) (idx : Indice) :
  indice_ok ano_dict idx → indice_ok (ano_dict ++ l) (foldl indexar idx l).
Proof.
  revert ano_dict idx. induction l as [|item l IH]; intros ano_dict idx H; simpl.
  { by rewrite app_nil_r. }
  replace (ano_dict ++ item :: l) with ((ano_dict ++ [item]) ++ l) by by rewrite <- app_assoc.
  by apply IH, indice_ok_indexar.
Qed.

Lemma _construir_indice_timings_ok (ano_dict : AnoDict) :
  indice_ok ano_dict (_construir_indice_timings ano_dict).
Proof. apply (indice_ok_foldl ano_dict [] indice_vazio), indice_ok_vazio. Qed.

(** The tokens kept for a key of the index are the relevant tokens of the key. *)
Lemma tokens_da_chave (ano_dict : AnoDict) (idx : Indice) (k : string) :
  indice_ok ano_dict idx → k ∈ norm_keys idx →
  default [] (tokens_por_norm idx !! k) = tokens_relevantes k.
Proof.
  intros H Hk. destruct (ok_tokens_em _ _ H k Hk) as [t Ht].
  rewrite Ht. simpl. by apply (ok_tokens_de _ _ H).
Qed.

Lemma _escolher_original_foldl (alvo : string) (resto : list string) (melhor : string)
    (r : Float64.float) :
  (foldl (λ '(melhor, melhor_ratio) c,
            let r := ratio alvo (str_upper (Py.strip c)) in
            if Float64.ltb melhor_ratio r then (c, r) else (melhor, melhor_ratio))
         (melhor, r) resto).1 ∈ melhor :: resto.
Proof.
  revert melhor r. induction resto as [|c resto IH]; intros melhor r; simpl.
  { by left. }
  destruct (Float64.ltb r _).
  - right. apply IH.
  - specialize (IH melhor r). apply elem_of_cons in IH as [E|IH].
    + apply elem_of_cons. left. exact E.
    + right. by right.
Qed.

Lemma _escolher_original_elem (nome_cliente : string) (candidatos : list string) :
  candidatos ≠ [] →
  ∃ c, _escolher_original nome_cliente candidatos = Some c ∧ c ∈ candidatos.
Proof.
  destruct candidatos as [|c0 [|c1 l]]; [done| |]; intros _.
  { exists c0. split; [done|]. by left. }
  unfold _escolher_original. eexists. split; [reflexivity|].
  match goal with
  | |- (foldl ?f (?m, ?r) ?l).1 ∈ _ =>
      pose proof (_escolher_original_foldl (str_upper (Py.strip nome_cliente)) l m r) as H
  end.
  apply elem_of_cons in H as [E|H]; [|exact H].
  apply elem_of_cons. left. exact E.
Qed.

(** A key of the index leads to a ledger entry that is not deleted and
    whose normalised name is the key. *)
Lemma devolver_da_chave (ano_dict : AnoDict) (idx : Indice) (tier nome_original k : string) :
  indice_ok ano_dict idx → k ∈ norm_keys idx →
  ∃ rec chosen,
    devolver idx tier (_escolher_original nome_original (bucket_de idx k))
    = Some (Some rec, tier, Some chosen, []) ∧
    chosen ∈ bucket_de idx k ∧ normalizar_nome chosen = k ∧
    (chosen, rec) ∈ ano_dict ∧ apagado rec = false.
Proof.
  intros Hok Hk. unfold bucket_de.
  apply pd_get_is_Some in Hk as [bucket Hb]. rewrite Hb. simpl.
  destruct (ok_bucket _ _ Hok _ _ Hb) as (Hne & Ht & Hc).
  destruct (_escolher_original_elem nome_original bucket Hne) as (c & -> & Hin).
  destruct (Hc c Hin) as (Hn & rec & Hrec).
  exists rec, c. unfold devolver. rewrite Hrec.
  assert (Py.truthy c = true) as ->.
  { destruct (Py.truthy c) eqn:E; [done|]. apply truthy_false in E. subst c.
    rewrite normalizar_nome_vazio in Hn. by subst k. }
  destruct (ok_original _ _ Hok _ _ Hrec). done.
Qed.

(** ** Tier 2 of the matcher: token inclusion *)

Lemma ltb_irrefl (x : Float64.float) : Float64.ltb x x = false.
Proof.
  destruct (Float64.isnan x) eqn:Hx.
  - by destruct x.
  - destruct (Float64.ltb x x) eqn:E; [|done].
    apply ltb_antes in E; [|done..]. unfold Float64.antes in E. lia.
Qed.

(** [a > b] on the keys of the candidates, spelled out. *)
Lemma chave_maior_true (a b : nat * Float64.float * nat) :
  Float64.isnan a.1.2 = false → Float64.isnan b.1.2 = false →
  chave_maior a b = true ↔
  (b.1.1 < a.1.1)%nat
  ∨ (b.1.1 = a.1.1
     ∧ (Float64.antes (Float64.ordem b.1.2) (Float64.ordem a.1.2)
        ∨ (Float64.ordem b.1.2 = Float64.ordem a.1.2 ∧ (b.2 < a.2)%nat))).
Proof.
  intros Ha Hb. unfold chave_maior.
  destruct (Nat.eqb_spec a.1.1 b.1.1) as [E|E]; simpl.
  - destruct (Float64.eqb a.1.2 b.1.2) eqn:Eq; simpl.
    + apply eqb_ordem in Eq; [|done..]. rewrite Nat.ltb_lt, Eq.
      unfold Float64.antes. split; [intros; right; split; [done|]; right; done|].
      intros [?|(_ & [?|[_ ?]])]; [lia|lia|done].
    + rewrite ltb_antes by done.
      assert (Float64.ordem a.1.2 ≠ Float64.ordem b.1.2) as Hne.
      { intros H. apply eqb_ordem in H; [|done..]. congruence. }
      split; [intros; right; split; [done|]; by left|].
      intros [?|(_ & [?|[? _]])]; [lia|done|congruence].
  - rewrite Nat.ltb_lt. split; [by left|]. intros [?|[? _]]; [done|lia].
Qed.

Lemma chave_maior_irrefl (a : nat * Float64.float * nat) : chave_maior a a = false.
Proof.
  unfold chave_maior. rewrite Nat.eqb_refl. simpl.
  destruct (Float64.eqb a.1.2 a.1.2); simpl; [apply Nat.ltb_irrefl|apply ltb_irrefl].
Qed.

Lemma chave_maior_trans (a b c : nat * Float64.float * nat) :
  Float64.isnan a.1.2 = false → Float64.isnan b.1.2 = false → Float64.isnan c.1.2 = false →
  chave_maior a b = true → chave_maior b c = true → chave_maior a c = true.
Proof.
  intros Ha Hb Hc. rewrite !chave_maior_true by done. unfold Float64.antes.
  destruct (Float64.ordem a.1.2) as [[a1 a2] a3], (Float64.ordem b.1.2) as [[b1 b2] b3],
    (Float64.ordem c.1.2) as [[c1 c2] c3]. simpl.
  intros [?|(? & [?|[? ?]])] [?|(? & [?|[? ?]])]; simplify_eq; try (left; lia);
    right; (split; [lia|]); first [left; lia | right; split; [done|lia]].
Qed.

(** [a > b] is false: [a] is no better than [b]. *)
Lemma chave_maior_false (a b : nat * Float64.float * nat) :
  Float64.isnan a.1.2 = false → Float64.isnan b.1.2 = false →
  chave_maior a b = false →
  (a.1.1 < b.1.1)%nat
  ∨ (a.1.1 = b.1.1
     ∧ (Float64.ltb a.1.2 b.1.2 = true
        ∨ (Float64.eqb a.1.2 b.1.2 = true ∧ (a.2 ≤ b.2)%nat))).
Proof.
  intros Ha Hb H.
  assert (¬ chave_maior a b = true) as Hn by (rewrite H; done).
  rewrite chave_maior_true in Hn by done.
  rewrite ltb_antes, eqb_ordem by done. unfold Float64.antes in *.
  destruct (Float64.ordem a.1.2) as [[a1 a2] a3], (Float64.ordem b.1.2) as [[b1 b2] b3].
  simpl in *.
  destruct (decide (a.1.1 < b.1.1)%nat); [by left|].
  right. split; [lia|].
  destruct (decide (a1 < b1 ∨ a1 = b1 ∧ (a2 < b2 ∨ a2 = b2 ∧ a3 < b3))); [by left|].
  right.
  assert (a1 = b1 ∧ a2 = b2 ∧ a3 = b3) as (-> & -> & ->) by lia.
  split; [done|]. 
  destruct (decide (a.2 ≤ b.2)%nat); [done|]. exfalso. apply Hn. right.
  split; [lia|]. right. split; [done|lia].
Qed.

Lemma list_to_set_vazio (l : list string) : (list_to_set l : gset string) = ∅ ↔ l = [].
Proof.
  split; [|by intros ->].
  destruct l as [|x l]; [done|]. intros H.
  assert (x ∈ (list_to_set (x :: l) : gset string)) as Hx.
  { apply elem_of_list_to_set. by left. }
  rewrite H in Hx. by apply elem_of_empty in Hx.
Qed.

Lemma candidato_inclusao_Some (ano_dict : AnoDict) (idx : Indice) (nome_norm k : string)
    (nome_tokens : gset string) (x : string * Float64.float * nat) :
  indice_ok ano_dict idx → k ∈ norm_keys idx →
  candidato_inclusao nome_norm idx nome_tokens k = Some x ↔
  (list_to_set (tokens_relevantes k) : gset string) ≠ ∅ ∧
  (nome_tokens ⊆ list_to_set (tokens_relevantes k)
   ∨ list_to_set (tokens_relevantes k) ⊆ nome_tokens) ∧
  x = (k, ratio nome_norm k, size (nome_tokens ∩ list_to_set (tokens_relevantes k))).
Proof.
  intros Hok Hk. unfold candidato_inclusao.
  rewrite (tokens_da_chave ano_dict idx k Hok Hk), list_to_set_vazio.
  destruct (tokens_relevantes k) as [|t ts] eqn:Et.
  { split; [done|]. by intros [? _]. }
  rewrite <- Et.
  destruct (bool_decide (nome_tokens ⊆ _)) eqn:E1; simpl.
  - apply bool_decide_eq_true in E1. split.
    + intros [= <-]. split; [by rewrite Et|]. split; [by left|done].
    + by intros (_ & _ & ->).
  - apply bool_decide_eq_false in E1.
    destruct (bool_decide (_ ⊆ nome_tokens)) eqn:E2.
    + apply bool_decide_eq_true in E2. split.
      * intros [= <-]. split; [by rewrite Et|]. split; [by right|done].
      * by intros (_ & _ & ->).
    + apply bool_decide_eq_false in E2. split; [done|].
      by intros (_ & [?|?] & _).
Qed.

Lemma candidatos_inclusao_elem (ano_dict : AnoDict) (idx : Indice) (nome_norm : string)
    (x : string * Float64.float * nat) :
  indice_ok ano_dict idx →
  x ∈ candidatos_inclusao nome_norm idx ↔
  x.1.1 ∈ norm_keys idx ∧
  (list_to_set (tokens_relevantes nome_norm) : gset string) ≠ ∅ ∧
  (list_to_set (tokens_relevantes x.1.1) : gset string) ≠ ∅ ∧
  ((list_to_set (tokens_relevantes nome_norm) : gset string)
     ⊆ list_to_set (tokens_relevantes x.1.1)
   ∨ (list_to_set (tokens_relevantes x.1.1) : gset string)
     ⊆ list_to_set (tokens_relevantes nome_norm)) ∧
  x.1.2 = ratio nome_norm x.1.1 ∧
  x.2 = size ((list_to_set (tokens_relevantes nome_norm) : gset string)
              ∩ list_to_set (tokens_relevantes x.1.1)).
Proof.
  intros Hok. unfold candidatos_inclusao.
  destruct (bool_decide (_ = ∅)) eqn:E.
  - apply bool_decide_eq_true in E. split.
    + intros H. by apply elem_of_nil in H.
    + by intros (_ & H & _).
  - apply bool_decide_eq_false in E. rewrite list_elem_of_omap. split.
    + intros (k & Hk & Hc).
      apply (candidato_inclusao_Some ano_dict) in Hc as (? & ? & ->); done.
    + intros (Hk & _ & Hne & Hsub & Hr & Hn). exists x.1.1. split; [done|].
      apply (candidato_inclusao_Some ano_dict); [done..|].
      split; [done|]. split; [done|]. destruct x as [[k sc] n]. simpl in *. by subst.
Qed.

(** C5 (as the code has it): a key of the index is a candidate of the
    inclusion tier exactly when the relevant tokens of the name and those of
    the key are both non-empty sets and one contains the other.  Among the
    candidates the key chosen has the largest overlap; of those with that
    overlap it has the highest ratio; of those with that ratio too it is the
    longest.  The answer is then a ledger entry, not deleted, whose
    normalised name is the chosen key, returned under the tier
    ["inclusao"]; without a candidate the tier gives no answer. *)
Theorem inclusao_por_tokens (nome_original nome_norm : string) (ano_dict : AnoDict) :
  let idx := _construir_indice_timings ano_dict in
  let nome_tokens : gset string := list_to_set (tokens_relevantes nome_norm) in
  let tokens_de (k : string) : gset string := list_to_set (tokens_relevantes k) in
  let cands := candidatos_inclusao nome_norm idx in
  Forall (λ k, Float64.isnan (ratio nome_norm k) = false) (norm_keys idx) →
  (∀ k sc n,
     (k, sc, n) ∈ cands ↔
     k ∈ norm_keys idx ∧ nome_tokens ≠ ∅ ∧ tokens_de k ≠ ∅ ∧
     (nome_tokens ⊆ tokens_de k ∨ tokens_de k ⊆ nome_tokens) ∧
     sc = ratio nome_norm k ∧ n = size (nome_tokens ∩ tokens_de k)) ∧
  match chave_escolhida cands with
  | None => cands = [] ∧ inclusao nome_original nome_norm idx = None
  | Some w =>
      (∃ sc n,
         (w, sc, n) ∈ cands ∧
         ∀ k sc' n',
           (k, sc', n') ∈ cands →
           (n' < n)%nat
           ∨ (n' = n
              ∧ (Float64.ltb sc' sc = true
                 ∨ (Float64.eqb sc' sc = true
                    ∧ (String.length k ≤ String.length w)%nat)))) ∧
      ∃ rec chosen,
        inclusao nome_original nome_norm idx = Some (Some rec, "inclusao", Some chosen, []) ∧
        normalizar_nome chosen = w ∧ (chosen, rec) ∈ ano_dict ∧ apagado rec = false
  end.
Proof.
  intros idx nome_tokens tokens_de cands Hnan.
  pose proof (_construir_indice_timings_ok ano_dict) as Hok. fold idx in Hok.
  assert (∀ x, x ∈ cands → x.1.1 ∈ norm_keys idx ∧ Float64.isnan x.1.2 = false) as Hx.
  { intros x Hx. apply (candidatos_inclusao_elem ano_dict) in Hx as (Hk & _ & _ & _ & -> & _);
      [|done].
    split; [done|]. rewrite Forall_forall in Hnan. by apply Hnan. }
  split.
  { intros k sc n. apply (candidatos_inclusao_elem ano_dict idx nome_norm (k, sc, n) Hok). }
  unfold inclusao. fold cands. destruct cands as [|x0 resto] eqn:Ec; [done|].
  unfold chave_escolhida.
  set (maior := λ x y : string * Float64.float * nat,
                  chave_maior (chave_de_inclusao x) (chave_de_inclusao y)).
  destruct (py_max_maximo maior (λ x, Float64.isnan x.1.2 = false)) with (x0 := x0) (l := resto)
    as [Hin Hmax].
  - intros x. apply chave_maior_irrefl.
  - intros x y z.
    apply (chave_maior_trans (chave_de_inclusao x) (chave_de_inclusao y) (chave_de_inclusao z)).
  - apply Forall_forall. intros x Hin. by apply Hx.
  - set (w := py_max maior x0 resto) in *. split.
    + exists w.1.2, w.2. split; [by destruct w as [[? ?] ?]|].
      intros k sc' n' Hk.
      specialize (Hmax _ Hk).
      apply (chave_maior_false (chave_de_inclusao (k, sc', n')) (chave_de_inclusao w)) in Hmax;
        [done| |].
      * by destruct (Hx _ Hk).
      * by destruct (Hx _ Hin).
    + destruct (Hx _ Hin) as [Hw _].
      destruct (devolver_da_chave ano_dict idx "inclusao" nome_original w.1.1 Hok Hw)
        as (rec & chosen & Hd & _ & Hn & Hrec & Hap).
      by exists rec, chosen.
Qed.

(** ** Tier 3 of the matcher: bounded fuzzy search *)

Lemma get_close_matches_spec (word : string) (possibilities : list string) (n : nat)
    (cutoff : Float64.float) :
  (List.length (get_close_matches word possibilities n cutoff) ≤ n)%nat ∧
  ∀ k, k ∈ get_close_matches word possibilities n cutoff →
       k ∈ possibilities ∧ Float64.leb cutoff (ratio k word) = true.
Proof.
  unfold get_close_matches. split.
  { rewrite length_fmap, length_take. lia. }
  intros k Hk. apply list_elem_of_fmap in Hk as ([sc k'] & -> & Hk). simpl.
  apply elem_of_take in Hk as (i & Hi & _).
  apply list_elem_of_lookup_2 in Hi. rewrite sorted_reverse_perm in Hi.
  apply list_elem_of_omap in Hi as (x & Hx & Hsome).
  destruct (Float64.leb cutoff (ratio x word)) eqn:E; [|done].
  by injection Hsome as <- <-.
Qed.

(** [(score, x) < (score', x')] spelled out, for scores that are numbers. *)
Lemma par_menor_true (a b : Float64.float * string) :
  Float64.isnan a.1 = false → Float64.isnan b.1 = false →
  par_menor a b = true ↔
  Float64.antes (Float64.ordem a.1) (Float64.ordem b.1)
  ∨ (Float64.ordem a.1 = Float64.ordem b.1 ∧ String.ltb a.2 b.2 = true).
Proof.
  intros Ha Hb. unfold par_menor.
  destruct (Float64.eqb a.1 b.1) eqn:E; simpl.
  - apply eqb_ordem in E; [|done..]. rewrite E. unfold Float64.antes.
    split; [by right|]. intros [?|[_ ?]]; [lia|done].
  - rewrite ltb_antes by done. split; [by left|]. intros [?|[H _]]; [done|].
    apply eqb_ordem in H; [|done..]. congruence.
Qed.

Lemma par_menor_assim (a b : Float64.float * string) :
  Float64.isnan a.1 = false → Float64.isnan b.1 = false →
  par_menor a b = true → par_menor b a = false.
Proof.
  intros Ha Hb H. apply par_menor_true in H; [|done..].
  destruct (par_menor b a) eqn:E; [|done].
  apply par_menor_true in E; [|done..]. unfold Float64.antes in *.
  destruct H as [H|[H1 H2]], E as [E|[E1 E2]].
  - lia.
  - rewrite E1 in H. lia.
  - rewrite H1 in E. lia.
  - apply string_ltb_asym in H2. congruence.
Qed.

Lemma par_menor_neg_trans (a b c : Float64.float * string) :
  Float64.isnan a.1 = false → Float64.isnan b.1 = false → Float64.isnan c.1 = false →
  par_menor a b = false → par_menor b c = false → par_menor a c = false.
Proof.
  intros Ha Hb Hc H1 H2.
  assert (¬ par_menor a b = true) as N1 by (by rewrite H1).
  assert (¬ par_menor b c = true) as N2 by (by rewrite H2).
  rewrite par_menor_true in N1, N2 by done.
  destruct (par_menor a c) eqn:E; [|done].
  apply par_menor_true in E; [|done..]. unfold Float64.antes in *.
  destruct (String.ltb a.2 b.2) eqn:S1.
  { assert (Float64.ordem a.1 ≠ Float64.ordem b.1) as Hne by (intros ?; apply N1; by right).
    destruct (Float64.ordem a.1) as [[a1 a2] a3], (Float64.ordem b.1) as [[b1 b2] b3],
      (Float64.ordem c.1) as [[c1 c2] c3]. simpl in *.
    assert (¬ (a1 = b1 ∧ a2 = b2 ∧ a3 = b3)) by (intros (-> & -> & ->); done).
    destruct E as [E|[E _]]; [|simplify_eq]; exfalso.
    - destruct (decide (b1 = c1 ∧ b2 = c2 ∧ b3 = c3)) as [(-> & -> & ->)|]; [lia|].
      apply N2. left. lia.
    - apply N1. left. destruct (decide (b1 < c1 ∨ b1 = c1 ∧ (b2 < c2 ∨ b2 = c2 ∧ b3 < c3)));
        [exfalso; apply N2; by left|lia]. }
  destruct (String.ltb b.2 c.2) eqn:S2.
  { destruct (Float64.ordem a.1) as [[a1 a2] a3], (Float64.ordem b.1) as [[b1 b2] b3],
      (Float64.ordem c.1) as [[c1 c2] c3]. simpl in *.
    assert (¬ (b1 = c1 ∧ b2 = c2 ∧ b3 = c3)) by (intros (-> & -> & ->); apply N2; by right).
    exfalso. destruct E as [E|[E _]]; [|simplify_eq].
    - destruct (decide (b1 < c1 ∨ b1 = c1 ∧ (b2 < c2 ∨ b2 = c2 ∧ b3 < c3)));
        [apply N2; by left|].
      apply N1. left. lia.
    - destruct (decide (b1 < c1 ∨ b1 = c1 ∧ (b2 < c2 ∨ b2 = c2 ∧ b3 < c3)));
        [apply N2; by left|].
      apply N1. left. lia. }
  pose proof (string_ltb_neg_trans _ _ _ S1 S2) as S3.
  destruct (Float64.ordem a.1) as [[a1 a2] a3], (Float64.ordem b.1) as [[b1 b2] b3],
    (Float64.ordem c.1) as [[c1 c2] c3]. simpl in *.
  destruct E as [E|[_ E]]; [|congruence]. exfalso.
  destruct (decide (b1 < c1 ∨ b1 = c1 ∧ (b2 < c2 ∨ b2 = c2 ∧ b3 < c3)));
    [apply N2; by left|].
  apply N1. left. lia.
Qed.

(** The names that [get_close_matches] keeps are the best: a possibility
    that passes the cutoff and is left out scores no higher than any name
    kept. *)
Lemma get_close_matches_top (word : string) (possibilities : list string) (n : nat)
    (cutoff : Float64.float) (k k' : string) :
  k ∈ get_close_matches word possibilities n cutoff →
  k' ∈ possibilities → Float64.leb cutoff (ratio k' word) = true →
  k' ∉ get_close_matches word possibilities n cutoff →
  Float64.leb (ratio k' word) (ratio k word) = true.
Proof.
  unfold get_close_matches.
  set (result := omap (λ x, let r := ratio x word in
                            if Float64.leb cutoff r then Some (r, x) else None)
                      possibilities).
  assert (∀ a, a ∈ result ↔
               a.2 ∈ possibilities ∧ a.1 = ratio a.2 word ∧ Float64.leb cutoff a.1 = true)
    as Hres.
  { intros [r x]. unfold result. rewrite list_elem_of_omap. simpl. split.
    - intros (y & Hy & H). destruct (Float64.leb cutoff (ratio y word)) eqn:E; [|done].
      by injection H as <- <-.
    - intros (Hx & -> & E). exists x. split; [done|]. by rewrite E. }
  assert (StronglySorted (λ a b, par_menor a b = false) (sorted_reverse par_menor result))
    as Hsort.
  { apply (sorted_reverse_sorted _ (λ a : Float64.float * string, Float64.isnan a.1 = false)).
    - intros a b. apply par_menor_assim.
    - intros a b c. apply par_menor_neg_trans.
    - apply Forall_forall. intros a Ha. apply Hres in Ha as (_ & _ & Ha).
      by apply leb_true_numeros in Ha as [_ ?]. }
  intros Hk Hk' Hc Hfora.
  apply list_elem_of_fmap in Hk as (a & -> & Ha).
  assert (a ∈ result) as Hares.
  { rewrite <- (sorted_reverse_perm par_menor). apply elem_of_take in Ha as (i & Hi & _).
    by apply list_elem_of_lookup_2 in Hi. }
  apply Hres in Hares as (_ & Ea & Hca).
  assert ((ratio k' word, k') ∈ drop n (sorted_reverse par_menor result)) as Hb.
  { assert ((ratio k' word, k') ∈ sorted_reverse par_menor result) as Hin.
    { rewrite sorted_reverse_perm. by apply Hres. }
    rewrite <- (take_drop n (sorted_reverse par_menor result)) in Hin.
    apply elem_of_app in Hin as [Hin|Hin]; [|done].
    exfalso. apply Hfora. apply list_elem_of_fmap. by exists (ratio k' word, k'). }
  rewrite <- (take_drop n (sorted_reverse par_menor result)) in Hsort.
  pose proof (StronglySorted_app_1_elem_of _ _ _ _ _ Hsort Ha Hb) as Hm.
  apply leb_true_numeros in Hca as [_ Hna]. apply leb_true_numeros in Hc as [_ Hnb].
  rewrite <- Ea.
  assert (¬ par_menor a (ratio k' word, k') = true) as N by (by rewrite Hm).
  rewrite par_menor_true in N by done. simpl in N.
  apply leb_antes; [done..|]. intros H. apply N. by left.
Qed.

Lemma candidatos_fuzzy_spec (nome_norm : string) (idx : Indice) :
  (List.length (candidatos_fuzzy nome_norm idx) ≤ 200)%nat ∧
  ∀ k, k ∈ candidatos_fuzzy nome_norm idx → k ∈ norm_keys idx.
Proof.
  unfold candidatos_fuzzy.
  destruct (get_close_matches_spec nome_norm (norm_keys idx) 20 cutoff_080) as [Hl Hin].
  destruct (get_close_matches nome_norm (norm_keys idx) 20 cutoff_080) as [|k0 close].
  - split; [rewrite length_take; lia|].
    intros k Hk. apply elem_of_take in Hk as (i & Hi & _).
    by apply list_elem_of_lookup_2 in Hi.
  - split; [lia|]. intros k Hk. by apply Hin.
Qed.

Lemma ratios_fuzzy_spec (nome_norm : string) (idx : Indice) :
  Forall (λ k, Float64.isnan (ratio nome_norm k) = false) (norm_keys idx) →
  ratios_fuzzy nome_norm idx ≡ₚ (λ k, (k, ratio nome_norm k)) <$> candidatos_fuzzy nome_norm idx ∧
  StronglySorted (λ x y : Sugestao, Float64.ltb x.2 y.2 = false) (ratios_fuzzy nome_norm idx).
Proof.
  intros Hnan. unfold ratios_fuzzy. split; [apply sorted_reverse_perm|].
  apply (sorted_reverse_sorted _ (λ x : Sugestao, Float64.isnan x.2 = false)).
  - intros x y Hx Hy H. apply ltb_antes in H; [|done..].
    destruct (Float64.ltb y.2 x.2) eqn:E; [|done].
    apply ltb_antes in E; [|done..]. unfold Float64.antes in *.
    destruct (Float64.ordem x.2) as [[? ?] ?], (Float64.ordem y.2) as [[? ?] ?].
    simpl in *. lia.
  - intros x y z Hx Hy Hz H1 H2.
    destruct (Float64.ltb x.2 z.2) eqn:E; [|done].
    apply ltb_antes in E; [|done..].
    assert (¬ Float64.antes (Float64.ordem x.2) (Float64.ordem y.2)) as N1.
    { rewrite <- ltb_antes by done. by rewrite H1. }
    assert (¬ Float64.antes (Float64.ordem y.2) (Float64.ordem z.2)) as N2.
    { rewrite <- ltb_antes by done. by rewrite H2. }
    unfold Float64.antes in *.
    destruct (Float64.ordem x.2) as [[? ?] ?], (Float64.ordem y.2) as [[? ?] ?],
      (Float64.ordem z.2) as [[? ?] ?].
    simpl in *. lia.
  - apply Forall_forall. intros x Hx.
    apply list_elem_of_fmap in Hx as (k & -> & Hk). simpl.
    rewrite Forall_forall in Hnan. by apply Hnan, (proj2 (candidatos_fuzzy_spec nome_norm idx)).
Qed.

(** What is shown for a scored key: a ledger name with that key, and the score. *)
Lemma sugestao_spec (ano_dict : AnoDict) (idx : Indice) (nome_original : string) (x : Sugestao) :
  indice_ok ano_dict idx → x.1 ∈ norm_keys idx →
  (sugestao nome_original idx x).2 = x.2 ∧
  normalizar_nome (sugestao nome_original idx x).1 = x.1 ∧
  (sugestao nome_original idx x).1 ∈ ano_dict.*1.
Proof.
  intros Hok Hk. destruct x as [k sc]. simpl in *. split; [done|].
  destruct (devolver_da_chave ano_dict idx "fuzzy" nome_original k Hok Hk)
    as (rec & chosen & Hd & _ & Hn & Hrec & _).
  unfold devolver in Hd.
  destruct (_escolher_original nome_original (bucket_de idx k)) as [c|]; [|done].
  destruct (Py.truthy c) eqn:Ht; [|done].
  destruct (original_para_registo idx !! c); [|done].
  simplify_eq. unfold Py.or_. rewrite Ht. split; [done|].
  apply list_elem_of_fmap. eexists. split; [|exact Hrec]. done.
Qed.

Lemma aceite_cons (best_k : string) (best_sc : Float64.float) (resto : list Sugestao) :
  aceite ((best_k, best_sc) :: resto) =
  Float64.leb limiar_092 best_sc
  && match resto with
     | [] => true
     | (_, second_sc) :: _ => Float64.leb margem_003 (Float64.sub best_sc second_sc)
     end.
Proof. unfold aceite. by destruct resto as [|[? ?] ?]. Qed.

(** C6: the fuzzy tier scores at most 20 keys, each a key of the index that
    the prefilter passes at the cutoff 0.80 and the best of those (a key
    that passes and is left out scores no higher than any key kept), or,
    when the prefilter keeps none, the first 200 keys of the index.  The scored keys are put in
    descending order of their ratio, so the first is a best-scoring
    candidate and the second a runner-up.  The best candidate is accepted,
    and a ledger entry with that key returned under the tier ["fuzzy"],
    exactly when its ratio is at least 0.92 and, if there is a runner-up,
    the ratio minus the runner-up's is at least 0.03 (both in binary64, as
    the code computes them); otherwise the answer is no match, with the
    first three scored keys, each under a ledger name that has that key,
    and their scores. *)
Theorem fuzzy_limitado (nome_original nome_norm : string) (ano_dict : AnoDict) :
  let idx := _construir_indice_timings ano_dict in
  let close := get_close_matches nome_norm (norm_keys idx) 20 cutoff_080 in
  let candidatos := candidatos_fuzzy nome_norm idx in
  let ratios := ratios_fuzzy nome_norm idx in
  Forall (λ k, Float64.isnan (ratio nome_norm k) = false) (norm_keys idx) →
  ((List.length close ≤ 20)%nat ∧
   (∀ k, k ∈ close → k ∈ norm_keys idx ∧ Float64.leb cutoff_080 (ratio k nome_norm) = true) ∧
   (∀ k k', k ∈ close → k' ∈ norm_keys idx →
            Float64.leb cutoff_080 (ratio k' nome_norm) = true → k' ∉ close →
            Float64.leb (ratio k' nome_norm) (ratio k nome_norm) = true) ∧
   candidatos = match close with
                | [] => take 200 (norm_keys idx)
                | _ => close
                end) ∧
  (ratios ≡ₚ (λ k, (k, ratio nome_norm k)) <$> candidatos ∧
   StronglySorted (λ x y : Sugestao, Float64.ltb x.2 y.2 = false) ratios) ∧
  (∀ x, x ∈ ratios →
        (sugestao nome_original idx x).2 = x.2 ∧
        normalizar_nome (sugestao nome_original idx x).1 = x.1 ∧
        (sugestao nome_original idx x).1 ∈ ano_dict.*1) ∧
  match ratios with
  | [] => fuzzy nome_original nome_norm idx = sem_match []
  | (best_k, best_sc) :: resto =>
      if Float64.leb limiar_092 best_sc
         && match resto with
            | [] => true
            | (_, second_sc) :: _ =>
                Float64.leb margem_003 (Float64.sub best_sc second_sc)
            end
      then ∃ rec chosen,
             fuzzy nome_original nome_norm idx = (Some rec, "fuzzy", Some chosen, []) ∧
             normalizar_nome chosen = best_k ∧ (chosen, rec) ∈ ano_dict ∧
             apagado rec = false
      else fuzzy nome_original nome_norm idx
           = sem_match (sugestao nome_original idx <$> take 3 ratios)
  end.
Proof.
  intros idx close candidatos ratios Hnan.
  pose proof (_construir_indice_timings_ok ano_dict) as Hok. fold idx in Hok.
  destruct (get_close_matches_spec nome_norm (norm_keys idx) 20 cutoff_080) as [Hl Hin].
  destruct (ratios_fuzzy_spec nome_norm idx Hnan) as [Hperm Hsort].
  assert (∀ x, x ∈ ratios → x.1 ∈ norm_keys idx) as Hkeys.
  { intros x Hx. unfold ratios in Hx. rewrite Hperm in Hx.
    apply list_elem_of_fmap in Hx as (k & -> & Hk).
    by apply (proj2 (candidatos_fuzzy_spec nome_norm idx)). }
  split.
  { split; [exact Hl|]. split; [exact Hin|].
    split; [intros k k'; apply get_close_matches_top|].
    unfold candidatos, candidatos_fuzzy. fold close. by destruct close. }
  split; [split; [exact Hperm|exact Hsort]|]. split.
  { intros x Hx. apply (sugestao_spec ano_dict); auto. }
  unfold fuzzy. fold ratios. destruct ratios as [|[best_k best_sc] resto] eqn:Er; [done|].
  rewrite aceite_cons.
  destruct (Float64.leb limiar_092 best_sc && _); [|done].
  assert (best_k ∈ norm_keys idx) as Hk by (apply (Hkeys (best_k, best_sc)); by left).
  destruct (devolver_da_chave ano_dict idx "fuzzy" nome_original best_k Hok Hk)
    as (rec & chosen & -> & _ & Hn & Hrec & Hap).
  by exists rec, chosen.
Qed.

(** ** Duration parsing *)

(** C4: the parser is not total.  The text ["inf"] has no hour or minute
    marker and no decimal point, [float] accepts it, and [int(round(...))]
    of an infinity raises [OverflowError], which the [except ValueError]
    around it does not catch.  Whenever the parser does return, the number
    of minutes is not negative. *)
Theorem parse_duracao_inf_levanta :
  _parse_duracao_para_minutos (Some "inf") = Levanta OverflowError ∧
  ∀ valor n, _parse_duracao_para_minutos valor = Retorna n → 0 ≤ n.
Proof.
  split; [by vm_compute|].
  intros valor n. unfold _parse_duracao_para_minutos, except_ValueError.
  repeat (case_match; simplify_eq; csimpl in * ); try (intros; simplify_eq; lia).
  all: try (destruct (Float64.round _); csimpl; intros; simplify_eq; lia).
  intros [= <-].
  destruct (PyTxt.float _); csimpl in *; [|done].
  destruct (Float64.round _); csimpl in *; simplify_eq. lia.
Qed.

(** * Further properties *)

(** ** The matcher answers with entries of the ledger *)

Lemma devolver_Some (ano_dict : AnoDict) (idx : Indice) (tier : string)
    (chosen : option string) (r : Resposta) :
  indice_ok ano_dict idx → devolver idx tier chosen = Some r →
  ∃ rec c, r = (Some rec, tier, Some c, []) ∧ (c, rec) ∈ ano_dict ∧ apagado rec = false.
Proof.
  intros Hok. unfold devolver. destruct chosen as [c|]; [|done].
  destruct (Py.truthy c); [|done].
  destruct (original_para_registo idx !! c) as [rec|] eqn:E; [|done].
  intros [= <-]. exists rec, c. split; [done|]. by apply (ok_original _ _ Hok).
Qed.

(** X1. Whatever the name and the company map, [match_timings] either
    answers with a tier among "exact", "inclusao" and "fuzzy", an entry of
    the map that is not deleted, the name of that entry and no diagnostics,
    or answers with no record, the tier "none", no name and at most three
    suggestions. *)
Theorem match_timings_responde_do_ledger (nome_cliente : string) (ano_dict : AnoDict) :
  match match_timings nome_cliente ano_dict with
  | (Some rec, tier, Some chosen, debug_top3) =>
      (chosen, rec) ∈ ano_dict ∧ apagado rec = false ∧ debug_top3 = [] ∧
      tier ∈ ["exact"; "inclusao"; "fuzzy"]
  | (None, tier, None, debug_top3) => tier = "none" ∧ (List.length debug_top3 ≤ 3)%nat
  | _ => False
  end.
Proof.
  unfold match_timings. destruct ano_dict as [|item resto]; [simpl; split; [done|lia]|].
  set (ano_dict := item :: resto).
  destruct (negb (Py.truthy _)); [simpl; split; [done|lia]|].
  pose proof (_construir_indice_timings_ok ano_dict) as Hok.
  set (idx := _construir_indice_timings ano_dict) in *.
  destruct (exato _ _ idx) as [r|] eqn:E1.
  { unfold exato in E1. destruct (bucket_de idx _); [done|].
    apply (devolver_Some ano_dict) in E1 as (rec & c & -> & ? & ?); [|done].
    split; [done|]. split; [done|]. split; [done|]. by left. }
  destruct (inclusao _ _ idx) as [r|] eqn:E2.
  { unfold inclusao in E2. destruct (chave_escolhida _); [|done].
    apply (devolver_Some ano_dict) in E2 as (rec & c & -> & ? & ?); [|done].
    split; [done|]. split; [done|]. split; [done|]. right. by left. }
  unfold fuzzy.
  assert (List.length (sugestao (Py.strip nome_cliente) idx
                         <$> take 3 (ratios_fuzzy (normalizar_nome (Py.strip nome_cliente)) idx))
          ≤ 3)%nat as Hl.
  { rewrite length_fmap, length_take. lia. }
  destruct (ratios_fuzzy _ idx) as [|[best_k best_sc] ratios]; [simpl; split; [done|lia]|].
  destruct (aceite _); [|by split].
  destruct (devolver idx "fuzzy" _) as [r|] eqn:E3; [|by split].
  apply (devolver_Some ano_dict) in E3 as (rec & c & -> & ? & ?); [|done].
  split; [done|]. split; [done|]. split; [done|]. right. right. by left.
Qed.

(** ** The exact tier *)

Lemma norm_keys_indexar (idx : Indice) (item : string * RegistoEmpresa) (k : string) :
  k ∈ norm_keys idx → k ∈ norm_keys (indexar idx item).
Proof.
  destruct item as [empresa rec]. unfold indexar.
  destruct (apagado rec); [done|]. destruct (negb (Py.truthy _)); [done|].
  unfold norm_keys. simpl. rewrite pd_upsert_keys. intros Hk.
  destruct (decide _); [done|]. apply elem_of_app. by left.
Qed.

Lemma norm_keys_indexar_novo (idx : Indice) (empresa : string) (rec : RegistoEmpresa) :
  apagado rec = false → Py.truthy (normalizar_nome empresa) = true →
  normalizar_nome empresa ∈ norm_keys (indexar idx (empresa, rec)).
Proof.
  intros Hap Ht. unfold indexar. rewrite Hap, Ht. simpl.
  unfold norm_keys. simpl. rewrite pd_upsert_keys.
  destruct (decide _); [done|]. apply elem_of_app. right. by left.
Qed.

Lemma norm_keys_foldl (l : AnoDict) (idx : Indice) (k : string) :
  k ∈ norm_keys idx
  ∨ (∃ empresa rec, (empresa, rec) ∈ l ∧ apagado rec = false ∧
                    Py.truthy (normalizar_nome empresa) = true ∧ normalizar_nome empresa = k) →
  k ∈ norm_keys (foldl indexar idx l).
Proof.
  revert idx. induction l as [|item l IH]; intros idx H; simpl.
  { destruct H as [H|(? & ? & H & _)]; [done|]. by apply elem_of_nil in H. }
  apply IH. destruct H as [H|(empresa & rec & Hin & Hap & Ht & <-)].
  - left. by apply norm_keys_indexar.
  - apply elem_of_cons in Hin as [Heq|Hin].
    + subst item. left. by apply norm_keys_indexar_novo.
    + right. by exists empresa, rec.
Qed.

(** X2. A name whose normalised form is not empty and is the normalised
    form of some entry of the company map that is not deleted is matched at
    the first tier: the answer is "exact", with an entry of the map that is
    not deleted and has that normalised form. *)
Theorem match_timings_exato (nome_cliente : string) (ano_dict : AnoDict)
    (empresa : string) (rec : RegistoEmpresa) :
  (empresa, rec) ∈ ano_dict → apagado rec = false →
  Py.truthy (normalizar_nome (Py.strip nome_cliente)) = true →
  normalizar_nome empresa = normalizar_nome (Py.strip nome_cliente) →
  ∃ rec' chosen,
    match_timings nome_cliente ano_dict = (Some rec', "exact", Some chosen, []) ∧
    normalizar_nome chosen = normalizar_nome (Py.strip nome_cliente) ∧
    (chosen, rec') ∈ ano_dict ∧ apagado rec' = false.
Proof.
  intros Hin Hap Ht Hn. unfold match_timings.
  destruct ano_dict as [|item resto]; [by apply elem_of_nil in Hin|].
  set (ano_dict := item :: resto) in *. rewrite Ht. simpl.
  pose proof (_construir_indice_timings_ok ano_dict) as Hok.
  assert (normalizar_nome (Py.strip nome_cliente) ∈ norm_keys (_construir_indice_timings ano_dict))
    as Hk.
  { apply norm_keys_foldl. right. exists empresa, rec.
    split; [exact Hin|]. split; [exact Hap|]. split; [by rewrite Hn|exact Hn]. }
  set (idx := _construir_indice_timings ano_dict) in *.
  destruct (devolver_da_chave ano_dict idx "exact" (Py.strip nome_cliente) _ Hok Hk)
    as (rec' & chosen & Hd & Hb & Hc & Hrec & Hap').
  unfold exato. destruct (bucket_de idx _) as [|b bucket] eqn:Eb.
  { by apply elem_of_nil in Hb. }
  rewrite Hd. by exists rec', chosen.
Qed.

(** ** Deleted entries and the matcher *)

Lemma indexar_sem_apagados (l : AnoDict) (idx : Indice) :
  foldl indexar idx l = foldl indexar idx (filter (λ item, apagado item.2 = false) l).
Proof.
  revert idx. induction l as [|[empresa rec] l IH]; intros idx; [done|].
  rewrite filter_cons. simpl. destruct (decide (apagado rec = false)) as [E|E].
  - simpl. apply IH.
  - rewrite <- IH. f_equal. unfold indexar. by destruct (apagado rec).
Qed.

Lemma match_timings_indice_vazio (nome_original nome_norm : string) :
  match exato nome_original nome_norm indice_vazio with
  | Some r => r
  | None =>
      match inclusao nome_original nome_norm indice_vazio with
      | Some r => r
      | None => fuzzy nome_original nome_norm indice_vazio
      end
  end = sem_match [].
Proof.
  unfold exato, inclusao, candidatos_inclusao. simpl.
  destruct (bool_decide _); reflexivity.
Qed.

(** X3. Entries marked as deleted are invisible to the matcher: the answer
    of [match_timings] on a company map is its answer on the map without its
    deleted entries. *)
Theorem match_timings_ignora_apagados (nome_cliente : string) (ano_dict : AnoDict) :
  match_timings nome_cliente ano_dict
  = match_timings nome_cliente (filter (λ item, apagado item.2 = false) ano_dict).
Proof.
  unfold match_timings, _construir_indice_timings.
  rewrite (indexar_sem_apagados ano_dict).
  destruct ano_dict as [|item resto]; [done|].
  destruct (filter _ (item :: resto)) as [|item' resto'] eqn:E; [|done].
  destruct (negb (Py.truthy _)); [done|].
  simpl. apply match_timings_indice_vazio.
Qed.

(** ** The buckets of the index *)

Lemma bucket_de_indexar (idx : Indice) (item : string * RegistoEmpresa) (k : string) :
  bucket_de (indexar idx item) k
  = bucket_de idx k
    ++ (if decide (apagado item.2 = false ∧ Py.truthy k = true
                   ∧ normalizar_nome item.1 = k) then [item.1] else []).
Proof.
  destruct item as [empresa rec]. unfold indexar, bucket_de. cbn [fst snd].
  destruct (decide _) as [(Ha & Hk & Hn)|Hne].
  - rewrite Ha. subst k. rewrite Hk. cbn [negb map_norm_to_originals].
    by rewrite pd_get_upsert, decide_True.
  - rewrite app_nil_r. destruct (apagado rec) eqn:Ea; [done|].
    destruct (Py.truthy (normalizar_nome empresa)) eqn:Et;
      cbn [negb map_norm_to_originals]; [|done].
    rewrite pd_get_upsert, decide_False; [done|]. intros <-. by apply Hne.
Qed.

Lemma bucket_de_foldl (l : AnoDict) (idx : Indice) (k : string) :
  bucket_de (foldl indexar idx l) k
  = bucket_de idx k
    ++ (if Py.truthy k
        then filter (λ nome, normalizar_nome nome = k)
                    (filter (λ item, apagado item.2 = false) l).*1
        else []).
Proof.
  revert idx. induction l as [|item l IH]; intros idx; cbn [foldl].
  { rewrite filter_nil. destruct (Py.truthy k); by rewrite app_nil_r. }
  rewrite IH, bucket_de_indexar, <- app_assoc. f_equal.
  rewrite (filter_cons _ item).
  destruct (decide (apagado item.2 = false)) as [Ha|Ha].
  - rewrite fmap_cons, filter_cons. destruct (Py.truthy k) eqn:Ek.
    + destruct (decide (normalizar_nome item.1 = k)) as [Hn|Hn].
      * by rewrite decide_True.
      * by rewrite decide_False by (by intros (_ & _ & ?)).
    + by rewrite decide_False by (by intros (_ & ? & _)).
  - by rewrite decide_False by (by intros (? & _)).
Qed.

(** X15. The index of a company map.  In the index that
    [_construir_indice_timings] builds, the bucket of a non-empty
    normalised key holds exactly the names of the map that are not deleted
    and have that key, in the order of the map, and the empty key has no
    bucket: a deleted company, or one whose name normalises to nothing, is
    in no bucket. *)
Theorem _construir_indice_timings_baldes (ano_dict : AnoDict) (k : string) :
  bucket_de (_construir_indice_timings ano_dict) k
  = if Py.truthy k
    then filter (λ nome, normalizar_nome nome = k)
                (filter (λ item, apagado item.2 = false) ano_dict).*1
    else [].
Proof. unfold _construir_indice_timings. by rewrite bucket_de_foldl. Qed.

(** ** The facts the readers produce *)

Lemma registrar_valores (nomes : list string) (r : string * list string)
    (m : gmap string string) :
  r.1 ∈ nomes → map_Forall (λ _ v, v ∈ nomes) m →
  map_Forall (λ _ v, v ∈ nomes) (registrar m r).
Proof.
  destruct r as [c vs]. intros Hc. unfold registrar. cbn beta iota.
  generalize (c :: vs). intros l. revert m. cbn [fst] in Hc.
  induction l as [|x l IH]; intros m Hm; cbn [foldl]; [done|].
  apply IH. destruct (Py.truthy _); [|done]. by apply map_Forall_insert_2.
Qed.

Lemma ALIASES_CANONICOS_valores (k c : string) :
  ALIASES_CANONICOS !! k = Some c → c ∈ registos_de_aliases.*1.
Proof.
  assert (∀ l m, (∀ r, r ∈ l → r.1 ∈ registos_de_aliases.*1) →
                 map_Forall (λ _ v, v ∈ registos_de_aliases.*1) m →
                 map_Forall (λ _ v, v ∈ registos_de_aliases.*1) (foldl registrar m l)) as H.
  { induction l as [|r l IH]; intros m Hl Hm; [done|]. simpl. apply IH.
    - intros r' Hr'. apply Hl. by right.
    - apply registrar_valores; [|done]. apply Hl. by left. }
  intros Hk. eapply (H registos_de_aliases ∅); [| apply map_Forall_empty | exact Hk].
  intros r Hr. by apply list_elem_of_fmap_2.
Qed.

Lemma _resolver_tecnico_spec (nome_excel : option string) :
  (_resolver_tecnico nome_excel).1 = "desconhecido"
  ∨ tecnico_reconhecido (_resolver_tecnico nome_excel).1 (_resolver_tecnico nome_excel).2.
Proof.
  unfold _resolver_tecnico. destruct nome_excel as [nome|]; [|by left].
  destruct (negb (Py.truthy nome)); [by left|].
  destruct (negb (Py.truthy _)); [by left|].
  case_bool_decide; [right; by left|].
  destruct (ALIASES_CANONICOS !! _) as [c|] eqn:E; [|by left].
  destruct (Py.truthy c) eqn:Ec; [|by left].
  right. right. split; [done|]. exists c. split; [done|]. split; [done|].
  by eapply ALIASES_CANONICOS_valores.
Qed.

Lemma finalizar_empresa_detalhes (st : EstadoWorkload) :
  Forall detalhe_ok (w_registos st) → Forall detalhe_ok (w_registos_empresa st) →
  Forall detalhe_ok (w_registos (finalizar_empresa st))
  ∧ Forall detalhe_ok (w_registos_empresa (finalizar_empresa st)).
Proof.
  intros H1 H2. unfold finalizar_empresa.
  destruct (w_empresa_atual st) as [e|]; [|done].
  destruct (negb (Py.truthy e)); [done|].
  destruct (w_registos_empresa st) eqn:E; simpl; [done|].
  split; [|done]. apply Forall_app. by split.
Qed.

Lemma linha_workload_detalhes (st st' : EstadoWorkload) (row : Linha) :
  Forall detalhe_ok (w_registos st) ∧ Forall detalhe_ok (w_registos_empresa st) →
  linha_workload st row = Retorna st' →
  Forall detalhe_ok (w_registos st') ∧ Forall detalhe_ok (w_registos_empresa st').
Proof.
  intros H Hl. unfold linha_workload in Hl.
  destruct row as [|[texto|] cauda]; [by injection Hl as <- | | by injection Hl as <-].
  destruct (negb (Py.truthy _)); [by injection Hl as <-|].
  destruct (_ || _); [by injection Hl as <-|].
  destruct (PyTxt.contains _ _); [by injection Hl as <-|].
  destruct (PyTxt.startswith _ _).
  - destruct (w_empresa_atual st) as [e|]; [|by injection Hl as <-].
    destruct (negb (Py.truthy e)); [by injection Hl as <-|].
    destruct (_parse_tempo_para_minutos _) as [m|]; simpl in Hl; [|done].
    destruct (m <=? 0) eqn:Em; [by injection Hl as <-|].
    pose proof (_resolver_tecnico_spec (Some (Py.strip texto))) as Hr.
    destruct (_resolver_tecnico (Some (Py.strip texto))) as [t c]. simpl in Hr.
    destruct H as [H1 H2].
    destruct (String.eqb t "desconhecido") eqn:Et; injection Hl as <-; simpl; [done|].
    split; [done|]. apply Forall_app. split; [done|]. constructor; [|done].
    split; simpl; [lia|]. destruct Hr as [->|Hr]; [done|exact Hr].
  - destruct H as [H1 H2]. destruct (finalizar_empresa_detalhes st H1 H2) as [H1' H2'].
    destruct (_parse_tempo_para_minutos _) as [m|]; simpl in Hl; [|done].
    by injection Hl as <-.
Qed.

Lemma _processar_sheet_workload_detalhes (sheet : Folha) (d d' : Diag)
    (rs : list Detalhe) (ts : list (string * Z)) :
  _processar_sheet_workload sheet d = Retorna (rs, ts, d') → Forall detalhe_ok rs.
Proof.
  unfold _processar_sheet_workload.
  destruct (para_cada linha_workload _ sheet) as [st|] eqn:E; simpl; [|done].
  intros [= <- <- <-].
  apply (para_cada_inv
           (λ st, Forall detalhe_ok (w_registos st)
                  ∧ Forall detalhe_ok (w_registos_empresa st))) in E as [H1 H2].
  - by apply finalizar_empresa_detalhes.
  - intros s x s' Hs Hx. by eapply linha_workload_detalhes.
  - by split.
Qed.

Lemma pd_alter_Forall {V : Type} (P : V → Prop) (f : V → V) (k : string)
    (d : list (string * V)) :
  (∀ v, P v → P (f v)) → Forall (λ e, P e.2) d → Forall (λ e, P e.2) (pd_alter f k d).
Proof.
  intros Hf. induction d as [|[k' v] d IH]; intros Hd; simpl; [done|].
  apply Forall_cons in Hd as [Hv Hd]. destruct (decide (k' = k)).
  - constructor; [by apply Hf | done].
  - constructor; [done | by apply IH].
Qed.

Lemma pd_upsert_Forall {V : Type} (P : V → Prop) (f : V → V) (k : string) (dflt : V)
    (d : list (string * V)) :
  (∀ v, P v → P (f v)) → P (f dflt) →
  Forall (λ e, P e.2) d → Forall (λ e, P e.2) (pd_upsert k dflt f d).
Proof.
  intros Hf Hd H. unfold pd_upsert. destruct (pd_get k d).
  - by apply pd_alter_Forall.
  - apply Forall_app. split; [done|]. by constructor.
Qed.

Lemma linha_colunas_grupos (ie it im : nat) (st st' : EstadoColunas) (row : Linha) :
  grupos_ok (c_registos_por_empresa st) →
  linha_colunas ie it im st row = Retorna st' →
  grupos_ok (c_registos_por_empresa st').
Proof.
  intros H Hl. unfold linha_colunas in Hl.
  destruct (row !! ie) as [ev|]; [|by injection Hl as <-].
  destruct (row !! it) as [tv|]; [|by injection Hl as <-].
  destruct (row !! im) as [mv|]; [|by injection Hl as <-].
  destruct ev as [ev|]; [|by injection Hl as <-].
  destruct (negb (Py.truthy _)); [by injection Hl as <-|].
  destruct (_is_linha_total _); [by injection Hl as <-|].
  destruct (_parse_tempo_para_minutos _) as [m|]; simpl in Hl; [|done].
  destruct (m <=? 0) eqn:Em; [by injection Hl as <-|].
  set (tecnico := match tv with Some t => Py.strip t | None => "" end) in *.
  destruct (negb (Py.truthy tecnico)); [by injection Hl as <-|].
  pose proof (_resolver_tecnico_spec (Some tecnico)) as Hr.
  destruct (_resolver_tecnico (Some tecnico)) as [t c]. simpl in Hr.
  destruct (String.eqb t "desconhecido") eqn:Et.
  { destruct (negb _); by injection Hl as <-. }
  injection Hl as <-. simpl. unfold grupos_ok.
  apply (pd_upsert_Forall
           (Forall (λ x : string * option string * Z,
                      0 < x.2 ∧ tecnico_reconhecido x.1.1 x.1.2))); [| |done].
  - intros v Hv. apply Forall_app. split; [done|]. constructor; [|done].
    split; simpl; [lia|]. destruct Hr as [->|Hr]; [done|exact Hr].
  - constructor; [|done].
    split; simpl; [lia|]. destruct Hr as [->|Hr]; [done|exact Hr].
Qed.

Lemma fechar_empresa_detalhes (st : EstadoFecho)
    (e : string * list (string * option string * Z)) :
  Forall (λ x : string * option string * Z, 0 < x.2 ∧ tecnico_reconhecido x.1.1 x.1.2) e.2 →
  Forall detalhe_ok (f_resultados st) →
  Forall detalhe_ok (f_resultados (fechar_empresa st e)).
Proof.
  destruct e as [empresa detalhes]. simpl. intros He Hs. unfold fechar_empresa.
  destruct (existsb _ detalhes); simpl; [|done].
  apply Forall_app. split; [done|]. apply Forall_forall. intros x Hx.
  apply list_elem_of_omap in Hx as ([[t c] m] & Hin & Hx).
  destruct (_ && _); [|done]. injection Hx as <-.
  rewrite Forall_forall in He. apply (He _ Hin).
Qed.

Lemma _processar_sheet_colunas_detalhes (sheet : Folha) (d d' : Diag)
    (rs : list Detalhe) (ts : list (string * Z)) :
  _processar_sheet_colunas sheet d = Retorna (Some (rs, ts, d')) → Forall detalhe_ok rs.
Proof.
  unfold _processar_sheet_colunas.
  destruct (procurar_cabecalho sheet _) as [[[[ie it] im] dados]|]; [|done].
  destruct (para_cada _ _ dados) as [st|] eqn:E; simpl; [|done].
  intros [= <- <- <-].
  apply (para_cada_inv (λ st, grupos_ok (c_registos_por_empresa st))) in E.
  - generalize dependent (c_registos_por_empresa st). intros g Hg.
    set (fe0 := {| f_resultados := []; f_totais_fallback := [];
                   f_resumos_por_empresa := c_resumos_por_empresa st;
                   f_diag := c_diag st |}).
    assert (Forall detalhe_ok (f_resultados fe0)) as H0 by done.
    clearbody fe0. revert fe0 H0.
    induction g as [|e g IH]; intros fe0 H0; simpl; [done|].
    apply Forall_cons in Hg as [He Hg]. apply IH; [done|].
    by apply fechar_empresa_detalhes.
  - intros s x s' Hs Hx. by eapply linha_colunas_grupos.
  - by constructor.
Qed.

Lemma registos_da_folha_bem_formados (mes : Z) (rs : list Detalhe) (ts : list (string * Z))
    (r : Registo) :
  Forall detalhe_ok rs → r ∈ registos_da_folha rs ts →
  0 < minutos r ∧ empresa_norm r = _norm_empresa_forte (empresa r)
  ∧ Py.truthy (empresa_norm r) = true
  ∧ (tecnico_reconhecido (tipo r) (canonico r) ∨ (tipo r = "resumo" ∧ canonico r = None))
  ∧ is_Some (identidade mes r).
Proof.
  intros Hrs Hr. unfold registos_da_folha in Hr. apply elem_of_app in Hr as [Hr|Hr].
  - apply list_elem_of_omap in Hr as ([[[e t] c] m] & Hin & Hr).
    rewrite Forall_forall in Hrs. destruct (Hrs _ Hin) as [Hm Ht]. simpl in Hm, Ht.
    destruct (m <=? 0) eqn:Em; [done|].
    destruct (Py.truthy (_norm_empresa_forte e)) eqn:En; [|done]. injection Hr as <-.
    simpl. split; [done|]. split; [done|]. split; [done|]. split; [by left|].
    unfold identidade, tecnico_chave_de. simpl. rewrite Em, En. simpl.
    destruct Ht as [[-> ->]|(-> & c' & -> & Hc & _)]; simpl; [done|].
    rewrite Hc. done.
  - apply list_elem_of_omap in Hr as ([e m] & Hin & Hr).
    destruct (m <=? 0) eqn:Em; [done|].
    destruct (Py.truthy (_norm_empresa_forte e)) eqn:En; [|done]. injection Hr as <-.
    simpl. split; [lia|]. split; [done|]. split; [done|]. split; [by right|].
    unfold identidade, tecnico_chave_de. simpl. rewrite Em, En. done.
Qed.

Lemma _importar_excel_timings_bem_formados (mes : Z) (folhas : list Folha)
    (rs : list Registo) (d : Diag) :
  _importar_excel_timings folhas = Retorna (rs, d) →
  Forall (λ r, 0 < minutos r ∧ empresa_norm r = _norm_empresa_forte (empresa r)
               ∧ Py.truthy (empresa_norm r) = true
               ∧ (tecnico_reconhecido (tipo r) (canonico r)
                  ∨ (tipo r = "resumo" ∧ canonico r = None))
               ∧ is_Some (identidade mes r)) rs.
Proof.
  unfold _importar_excel_timings.
  apply (para_cada_inv
           (λ st : list Registo * Diag,
              Forall (λ r, 0 < minutos r ∧ empresa_norm r = _norm_empresa_forte (empresa r)
                           ∧ Py.truthy (empresa_norm r) = true
                           ∧ (tecnico_reconhecido (tipo r) (canonico r)
                              ∨ (tipo r = "resumo" ∧ canonico r = None))
                           ∧ is_Some (identidade mes r)) st.1)); [|done].
  intros [rv d0] sh [rv' d'] H0 Hs. unfold folha_excel in Hs.
  destruct (_processar_sheet_colunas sh d0) as [[[[r1 t1] d1]|]|] eqn:E1; simpl in Hs.
  - injection Hs as <- <-. apply Forall_app. split; [done|]. apply Forall_forall.
    intros r. apply registos_da_folha_bem_formados.
    by eapply _processar_sheet_colunas_detalhes.
  - destruct (_processar_sheet_workload sh d0) as [[[r2 t2] d2]|] eqn:E2; simpl in Hs;
      [|done].
    injection Hs as <- <-. apply Forall_app. split; [done|]. apply Forall_forall.
    intros r. apply registos_da_folha_bem_formados.
    by eapply _processar_sheet_workload_detalhes.
  - done.
Qed.

(** X4. Every fact that [_importar_excel_timings] reads from a workbook has
    positive minutes and a non-empty company key, which is the normalised
    form of its company name; it is either a "canonico" fact that carries
    one of the canonical technician names, an "armando" fact without a name,
    or a "resumo" fact without a name.  So every fact read has an identity
    for the deduplication: none is passed over by the loop of the import. *)
Theorem factos_lidos_bem_formados (mes : Z) (folhas : list Folha) (rs : list Registo)
    (d : Diag) :
  _importar_excel_timings folhas = Retorna (rs, d) →
  ∀ r, r ∈ rs →
    0 < minutos r ∧ empresa_norm r = _norm_empresa_forte (empresa r)
    ∧ empresa_norm r ≠ ""
    ∧ ((tipo r = "canonico"
        ∧ ∃ c, canonico r = Some c ∧ c ≠ "" ∧ c ∈ registos_de_aliases.*1)
       ∨ (tipo r = "armando" ∧ canonico r = None)
       ∨ (tipo r = "resumo" ∧ canonico r = None))
    ∧ is_Some (identidade mes r).
Proof.
  intros H r Hr.
  apply (_importar_excel_timings_bem_formados mes) in H. rewrite Forall_forall in H.
  destruct (H r Hr) as (H1 & H2 & H3 & H4 & H5).
  split; [done|]. split; [done|]. split; [by apply truthy_true|]. split; [|done].
  destruct H4 as [[[? ?]|(? & c & ? & Hc & ?)]|?].
  - right. by left.
  - left. split; [done|]. exists c. split; [done|]. split; [by apply truthy_true|done].
  - right. by right.
Qed.

(** ** What the deduplication keeps of the minutes read *)

Lemma soma_de_acumular (k : string) (n : Z) (d : gmap string Z) :
  soma_de (acumular k n d) = soma_de d + n.
Proof.
  unfold soma_de, acumular.
  assert (∀ (m : gmap string Z) (j1 j2 : string) (z1 z2 y : Z),
            j1 ≠ j2 → m !! j1 = Some z1 → m !! j2 = Some z2 →
            z1 + (z2 + y) = z2 + (z1 + y)) as Hc by (intros; lia).
  destruct (d !! k) as [x|] eqn:E; simpl.
  - rewrite <- (insert_delete_eq d).
    rewrite map_fold_insert_L; [|apply Hc|by rewrite lookup_delete_eq].
    rewrite (map_fold_delete_L _ 0 k x d); [lia|apply Hc|done].
  - rewrite map_fold_insert_L; [lia|apply Hc|done].
Qed.

Lemma minutos_de_app (l1 l2 : list Registo) :
  minutos_de (l1 ++ l2) = minutos_de l1 + minutos_de l2.
Proof.
  unfold minutos_de. induction l1 as [|r l1 IH]; csimpl; [done|].
  unfold minutos_de in IH. rewrite IH. lia.
Qed.

Lemma dedup_registo_conserva (mes : Z) (lt : Lote) (r : Registo) :
  let lt' := dedup_registo mes lt r in
  minutos_de (registos_unicos lt') + total_minutos_deduplicados lt'
  = minutos_de (registos_unicos lt) + total_minutos_deduplicados lt
    + match identidade mes r with Some _ => minutos r | None => 0 end
  ∧ soma_de (duplicados_por_empresa lt') - total_minutos_deduplicados lt'
    = soma_de (duplicados_por_empresa lt) - total_minutos_deduplicados lt.
Proof.
  unfold dedup_registo, identidade.
  destruct (minutos r <=? 0); [simpl; lia|].
  destruct (Py.truthy (empresa_norm r)); simpl; [|lia].
  destruct (tecnico_chave_de r) as [tc|]; simpl; [|lia].
  case_bool_decide; simpl.
  - rewrite soma_de_acumular. lia.
  - rewrite minutos_de_app. unfold minutos_de at 2. simpl. lia.
Qed.

Lemma dedup_conserva (mes : Z) (rs : list Registo) (lt : Lote) :
  let lt' := foldl (dedup_registo mes) lt rs in
  minutos_de (registos_unicos lt') + total_minutos_deduplicados lt'
  = minutos_de (registos_unicos lt) + total_minutos_deduplicados lt
    + minutos_de (filter (λ r, is_Some (identidade mes r)) rs)
  ∧ soma_de (duplicados_por_empresa lt') - total_minutos_deduplicados lt'
    = soma_de (duplicados_por_empresa lt) - total_minutos_deduplicados lt.
Proof.
  revert lt. induction rs as [|r rs IH]; intros lt; simpl.
  { unfold minutos_de. simpl. lia. }
  destruct (IH (dedup_registo mes lt r)) as [IH1 IH2].
  destruct (dedup_registo_conserva mes lt r) as [H1 H2].
  rewrite IH1, IH2, H1, H2. split; [|done].
  rewrite filter_cons. destruct (decide (is_Some (identidade mes r))) as [[c Hc]|Hn].
  - rewrite Hc. unfold minutos_de. csimpl. lia.
  - destruct (identidade mes r); [exfalso; eauto|]. lia.
Qed.

Lemma filter_todos {A : Type} (P : A → Prop) `{∀ x, Decision (P x)} (l : list A) :
  Forall P l → filter P l = l.
Proof.
  induction 1 as [|x l Hx Hl IH]; [done|].
  rewrite filter_cons, decide_True by done. by rewrite IH.
Qed.

(** X5. Deduplication loses no minutes.  In the batch of an import, the
    minutes of all the facts read from the files are the minutes of the
    facts kept in [registos_unicos] plus [total_minutos_deduplicados], and
    the entries of the duplicates report add up to
    [total_minutos_deduplicados]. *)
Theorem deduplicacao_conserva_minutos (mes : Z) (ficheiros : list (list Folha))
    (lt : Lote) (ag : Diag) :
  para_cada (ler_ficheiro mes) (lote_vazio, diag_vazio) ficheiros = Retorna (lt, ag) →
  ∃ rss : list (list Registo),
    Forall2 (λ folhas rs, ∃ d, _importar_excel_timings folhas = Retorna (rs, d))
            ficheiros rss
    ∧ minutos_de (List.concat rss)
      = minutos_de (registos_unicos lt) + total_minutos_deduplicados lt
    ∧ soma_de (duplicados_por_empresa lt) = total_minutos_deduplicados lt.
Proof.
  intros H. apply ler_ficheiros_foldl in H as (rss & HF & ->).
  exists rss. split; [exact HF|].
  destruct (dedup_conserva mes (List.concat rss) lote_vazio) as [H1 H2].
  simpl in H1, H2. unfold soma_de at 2 in H2. rewrite map_fold_empty in H2.
  split; [|lia]. rewrite H1.
  rewrite filter_todos; [change (minutos_de []) with 0; lia|].
  clear H1 H2. induction HF as [|folhas rs ficheiros rss [d Hd] HF IH]; [done|].
  simpl. apply Forall_app. split; [|done].
  apply (_importar_excel_timings_bem_formados mes) in Hd.
  eapply Forall_impl; [exact Hd|]. by intros r (_ & _ & _ & _ & ?).
Qed.

(** ** The month of a company after an import *)

Lemma somar_de_todos (mes : Z) (lk : list Registo) (x : RegistoEmpresa) :
  let y := foldl (λ x r, somar_de mes r x) x lk in
  minutos_do_mes mes y = minutos_do_mes mes x + minutos_de lk
  ∧ extra_mensal y = extra_mensal x
  ∧ (lk ≠ [] → apagado y = false)
  ∧ ∀ key, key ≠ inl mes → meses y !! key = meses x !! key.
Proof.
  revert x. induction lk as [|r lk IH]; intros x; simpl.
  { unfold minutos_de. simpl. split; [lia|]. done. }
  destruct (IH (somar_de mes r x)) as (H1 & H2 & H3 & H4).
  split; [|split; [|split]].
  - rewrite H1. unfold somar_de, somar_minutos, minutos_do_mes, minutos_de. csimpl.
    rewrite lookup_insert_eq. simpl. lia.
  - by rewrite H2.
  - intros _. destruct lk as [|r' lk']; [done|]. by apply H3.
  - intros key Hk. rewrite H4 by done. unfold somar_de, somar_minutos. simpl.
    by rewrite lookup_insert_ne.
Qed.

Lemma aplicar_ano_get (mes : Z) (lt : Lote) (ad : AnoDict) (k : string) :
  lote_ok lt →
  pd_get k (aplicar_ano mes lt ad) =
  match filter (λ r, nome_de (empresa_nome_para_inserir ad lt) r = k) (registos_unicos lt)
  with
  | [] => pd_get k ad
  | lk => Some (foldl (λ x r, somar_de mes r x)
                      (default registo_novo (zerar_mes mes <$> pd_get k ad)) lk)
  end.
Proof.
  intros Hlt. unfold aplicar_ano. rewrite get_inserir_todos, get_zerar_empresas.
  pose proof (nome_com_factos lt Hlt ad k) as Hcf.
  destruct (filter _ (registos_unicos lt)) as [|r0 lk].
  - rewrite decide_False; [done|]. intros Hk. by apply Hcf in Hk.
  - rewrite decide_True; [done|]. by apply Hcf.
Qed.

Lemma importar_timings_no_ano (ano mes : Z) (ficheiros : list (list Folha))
    (td td' : Ledger) (houve_alteracoes : bool) (relatorio : option Relatorio) :
  importar_timings ano mes ficheiros td = Retorna (td', houve_alteracoes, relatorio) →
  ∃ lt ag,
    para_cada (ler_ficheiro mes) (lote_vazio, diag_vazio) ficheiros = Retorna (lt, ag)
    ∧ lote_ok lt
    ∧ (td' = td ∧ registos_unicos lt = [] ∧ houve_alteracoes = false
       ∨ td' = no_ano ano (aplicar_ano mes lt) td).
Proof.
  unfold importar_timings.
  destruct (para_cada (ler_ficheiro mes) (lote_vazio, diag_vazio) ficheiros)
    as [[lt ag]|e] eqn:E; simpl; [|done].
  intros H. exists lt, ag. split; [done|].
  pose proof (ler_ficheiros_ok _ _ _ _ E) as Hlt. split; [done|].
  pose proof (aplicar_lote_fst ano mes lt td (lo_minutos _ Hlt)) as Hfst.
  destruct (aplicar_lote ano mes lt td) as [td1 arm]. simpl in Hfst. subst td1.
  destruct (registos_unicos lt) as [|r0 U] eqn:EU.
  - destruct (_ && _); injection H as <- <- _; [left|right]; done.
  - injection H as <- _ _. by right.
Qed.

(** X6. An import replaces the month.  When [importar_timings] returns, the
    other years of the ledger are as they were, and so is every company of
    the year that receives no fact of the batch.  A company that receives
    facts has, for the month of the import, exactly the minutes of the
    facts kept for it, whatever was stored before; it is not deleted, the
    month no longer has an entry under its legacy text key, and its extra
    and its other months are as before the import. *)
Theorem importar_substitui_o_mes (ano mes : Z) (ficheiros : list (list Folha))
    (td td' : Ledger) (houve_alteracoes : bool) (relatorio : option Relatorio) :
  importar_timings ano mes ficheiros td = Retorna (td', houve_alteracoes, relatorio) →
  ∃ lt ag,
    para_cada (ler_ficheiro mes) (lote_vazio, diag_vazio) ficheiros = Retorna (lt, ag)
    ∧ (∀ y, y ≠ str_int ano → td' !! y = td !! y)
    ∧ ∀ k : string,
        let ad := default [] (td !! str_int ano) in
        let ad' := default [] (td' !! str_int ano) in
        match filter (λ r, nome_de (empresa_nome_para_inserir ad lt) r = k)
                     (registos_unicos lt) with
        | [] => pd_get k ad' = pd_get k ad
        | factos =>
            ∃ rec', pd_get k ad' = Some rec'
              ∧ minutos_do_mes mes rec' = minutos_de factos
              ∧ apagado rec' = false
              ∧ meses rec' !! inr (str_int mes) = None
              ∧ extra_mensal rec' = default 0 (extra_mensal <$> pd_get k ad)
              ∧ ∀ key, key ≠ inl mes → key ≠ inr (str_int mes) →
                       meses rec' !! key = (pd_get k ad ≫= λ rec, meses rec !! key)
        end.
Proof.
  intros H. apply importar_timings_no_ano in H as (lt & ag & E & Hlt & H).
  exists lt, ag. split; [done|].
  destruct H as [(-> & HU & _) | ->].
  { split; [done|]. intros k. simpl. by rewrite HU. }
  split.
  { intros y Hy. unfold no_ano. by rewrite lookup_insert_ne. }
  intros k. cbn zeta. rewrite no_ano_lookup. simpl.
  set (ad := default [] (td !! str_int ano)).
  rewrite (aplicar_ano_get mes lt ad k Hlt).
  destruct (filter _ (registos_unicos lt)) as [|r0 lk]; [done|].
  eexists. split; [reflexivity|].
  destruct (somar_de_todos mes (r0 :: lk) (default registo_novo (zerar_mes mes <$> pd_get k ad)))
    as (H1 & H2 & H3 & H4).
  cbn zeta in H1, H2, H3, H4. rewrite H1, H2, H3 by done.
  split; [|split; [done|split; [|split]]].
  - destruct (pd_get k ad) as [rec|]; simpl; unfold minutos_do_mes; simpl.
    + rewrite lookup_insert_eq. simpl. lia.
    + rewrite lookup_empty. simpl. lia.
  - rewrite H4 by done. destruct (pd_get k ad) as [rec|]; simpl; [|done].
    rewrite lookup_insert_ne by done. unfold sem_mes.
    rewrite lookup_delete_ne by done. by rewrite lookup_delete_eq.
  - by destruct (pd_get k ad).
  - intros key Hk1 Hk2. rewrite H4 by done. destruct (pd_get k ad) as [rec|]; simpl; [|done].
    rewrite lookup_insert_ne by done. unfold sem_mes.
    by rewrite !lookup_delete_ne.
Qed.

(** ** The technician detail of the month *)

Lemma minutos_do_tecnico_somar_em (mes m : Z) (t : option string) (T : string)
    (x : RegistoEmpresa) :
  minutos_do_tecnico mes T (somar_minutos mes m t x)
  = minutos_do_tecnico mes T x
    + if decide (falsy t = false ∧ _canonical_tecnico_nome t = T) then m else 0.
Proof.
  unfold minutos_do_tecnico, somar_minutos. cbn [por_tecnico].
  destruct (falsy t) eqn:Ef.
  { rewrite decide_False by (by intros [? _]). lia. }
  cbn [mbind option_bind].
  destruct (decide (_canonical_tecnico_nome t = T)) as [<-|Hne].
  - rewrite decide_True by done. rewrite lookup_insert_eq. cbn [mbind option_bind].
    rewrite lookup_insert_eq. simpl.
    destruct (por_tecnico x) as [pt|]; simpl; [|by rewrite !lookup_empty].
    destruct (pt !! _) as [tr|]; simpl; [done | by rewrite lookup_empty].
  - rewrite decide_False by (by intros [_ ?]). rewrite lookup_insert_ne by done.
    destruct (por_tecnico x) as [pt|]; simpl; [lia|]. rewrite lookup_empty. simpl. lia.
Qed.

Lemma minutos_do_tecnico_todos (mes : Z) (T : string) (lk : list Registo)
    (x : RegistoEmpresa) :
  minutos_do_tecnico mes T (foldl (λ x r, somar_de mes r x) x lk)
  = minutos_do_tecnico mes T x
    + minutos_de (filter (λ r, falsy (tecnico_final_de r).1 = false
                               ∧ _canonical_tecnico_nome (tecnico_final_de r).1 = T) lk).
Proof.
  revert x. induction lk as [|r lk IH]; intros x; cbn [foldl].
  { rewrite filter_nil. change (minutos_de []) with 0. lia. }
  rewrite IH. unfold somar_de. rewrite minutos_do_tecnico_somar_em, filter_cons.
  destruct (decide _); [|lia]. unfold minutos_de. csimpl. lia.
Qed.

Lemma minutos_do_tecnico_zerado (mes : Z) (T : string) (o : option RegistoEmpresa) :
  minutos_do_tecnico mes T (default registo_novo (zerar_mes mes <$> o)) = 0.
Proof.
  unfold minutos_do_tecnico. destruct o as [rec|]; simpl; [|by rewrite lookup_empty].
  destruct (por_tecnico rec) as [pt|]; simpl; [|done].
  unfold sem_mes_por_tecnico. rewrite lookup_fmap.
  destruct (pt !! T) as [tr|]; simpl; [|done]. unfold sem_mes.
  rewrite lookup_delete_ne by done. by rewrite lookup_delete_eq.
Qed.

(** X7. The technician detail follows the month.  After an import, a
    company that receives facts of the batch has, for each technician name
    and the month of the import, exactly the minutes of its kept facts whose
    final technician has that canonical name; the facts without a final
    technician count for the month of the company only. *)
Theorem importar_detalhe_por_tecnico (ano mes : Z) (ficheiros : list (list Folha))
    (td td' : Ledger) (relatorio : option Relatorio) :
  importar_timings ano mes ficheiros td = Retorna (td', true, relatorio) →
  ∃ lt ag,
    para_cada (ler_ficheiro mes) (lote_vazio, diag_vazio) ficheiros = Retorna (lt, ag)
    ∧ ∀ (k : string) (r : Registo),
        let ad := default [] (td !! str_int ano) in
        let ad' := default [] (td' !! str_int ano) in
        let factos := filter (λ r, nome_de (empresa_nome_para_inserir ad lt) r = k)
                             (registos_unicos lt) in
        r ∈ factos →
        ∃ rec', pd_get k ad' = Some rec'
          ∧ ∀ T : string,
              minutos_do_tecnico mes T rec'
              = minutos_de
                  (filter (λ r, falsy (tecnico_final_de r).1 = false
                                ∧ _canonical_tecnico_nome (tecnico_final_de r).1 = T)
                          factos).
Proof.
  intros H. apply importar_timings_no_ano in H as (lt & ag & E & Hlt & H).
  exists lt, ag. split; [done|].
  destruct H as [(_ & _ & ?) | ->]; [done|].
  intros k r. cbn zeta. rewrite no_ano_lookup. simpl.
  set (ad := default [] (td !! str_int ano)).
  rewrite (aplicar_ano_get mes lt ad k Hlt).
  destruct (filter _ (registos_unicos lt)) as [|r0 lk]; [by intros ?%elem_of_nil|].
  intros _. eexists. split; [reflexivity|]. intros T.
  by rewrite minutos_do_tecnico_todos, minutos_do_tecnico_zerado.
Qed.

(** ** Synchronising the ledger with the client registry *)

Lemma pd_set_novo {V : Type} (k : string) (v : V) (d : list (string * V)) :
  k ∉ d.*1 → pd_set k v d = d ++ [(k, v)].
Proof. intros Hk. unfold pd_set. apply pd_get_None in Hk. by rewrite Hk. Qed.

Lemma normas_das_chaves_ok (ano_dict : AnoDict) :
  normas_de ano_dict (normas_das_chaves ano_dict).
Proof.
  unfold normas_das_chaves, normas_de.
  assert (∀ (l vistos : list string) (normas : gmap string string),
            (∀ n, is_Some (normas !! n)
                  ↔ Py.truthy n = true ∧ ∃ K, K ∈ vistos ∧ _norm_empresa_forte K = n) →
            ∀ n, is_Some (foldl (λ normas empresa_existente,
                                   let norm := _norm_empresa_forte empresa_existente in
                                   if Py.truthy norm
                                      && negb (bool_decide (is_Some (normas !! norm)))
                                   then <[norm := empresa_existente]> normas else normas)
                                normas l !! n)
                 ↔ Py.truthy n = true ∧ ∃ K, K ∈ vistos ++ l ∧ _norm_empresa_forte K = n) as H.
  { induction l as [|K0 l IH]; intros vistos normas Hn n; cbn [foldl].
    { rewrite app_nil_r. apply Hn. }
    replace (vistos ++ K0 :: l) with ((vistos ++ [K0]) ++ l) by by rewrite <- app_assoc.
    apply IH. clear n IH. intros n. cbn zeta.
    destruct (Py.truthy (_norm_empresa_forte K0)) eqn:Et; cbn [andb].
    - case_bool_decide as Hs; cbn [negb].
      + rewrite Hn. split.
        * intros (? & K & HK & ?). split; [done|]. exists K. split; [|done].
          apply elem_of_app. by left.
        * intros (Htn & K & HK & HKn). split; [done|].
          apply elem_of_app in HK as [HK|HK%list_elem_of_singleton]; [by exists K|].
          subst K. rewrite <- HKn. by apply Hn.
      + rewrite lookup_insert_is_Some, Hn. split.
        * intros [<-|(_ & Htn & K & HK & HKn)].
          -- split; [done|]. exists K0. split; [|done]. apply elem_of_app. right. by left.
          -- split; [done|]. exists K. split; [|done]. apply elem_of_app. by left.
        * intros (Htn & K & HK & HKn).
          destruct (decide (_norm_empresa_forte K0 = n)) as [|Hne]; [by left|]. right.
          split; [done|]. split; [done|].
          apply elem_of_app in HK as [HK|HK%list_elem_of_singleton]; [by exists K|].
          by subst K.
    - rewrite Hn. split.
      + intros (? & K & HK & ?). split; [done|]. exists K. split; [|done].
        apply elem_of_app. by left.
      + intros (Htn & K & HK & HKn). split; [done|].
        apply elem_of_app in HK as [HK|HK%list_elem_of_singleton]; [by exists K|].
        subst K. congruence. }
  refine (H ano_dict.*1 [] ∅ _). intros n. rewrite lookup_empty. split.
  - by intros [? ?].
  - intros (_ & K & HK & _). by apply elem_of_nil in HK.
Qed.

Lemma sincronizar_cliente_norma (ano_dict : AnoDict) (normas : gmap string string)
    (adicionados : Z) (cli : Cliente) :
  sincronizar_cliente (ano_dict, normas, adicionados) cli =
  match norma_do_cliente cli with
  | Some n =>
      if bool_decide (is_Some (normas !! n)) then (ano_dict, normas, adicionados)
      else
        let empresa_display := Py.strip (default "" (nome_do_cliente cli)) in
        (pd_set empresa_display registo_sincronizado ano_dict,
         <[n := empresa_display]> normas, adicionados + 1)
  | None => (ano_dict, normas, adicionados)
  end.
Proof.
  unfold sincronizar_cliente, norma_do_cliente.
  destruct (falsy _); [done|]. destruct (negb (Py.truthy (Py.strip _))); [done|].
  destruct (negb (Py.truthy (_norm_empresa_forte _))); done.
Qed.

Lemma norma_do_cliente_Some (cli : Cliente) (n : string) :
  norma_do_cliente cli = Some n →
  Py.truthy n = true ∧ n = _norm_empresa_forte (Py.strip (default "" (nome_do_cliente cli))).
Proof.
  unfold norma_do_cliente. destruct (falsy _); [done|].
  destruct (negb (Py.truthy (Py.strip _))); [done|].
  destruct (Py.truthy (_norm_empresa_forte _)) eqn:E; [|done]. simpl.
  intros [= <-]. done.
Qed.

(** The loop over the registry only appends to the company map, keeps the
    invariant of the keys and covers the clients it has seen. *)
Lemma sincronizar_laco (cls : list Cliente) (ano_dict : AnoDict)
    (normas : gmap string string) (adicionados : Z) :
  normas_de ano_dict normas →
  ∃ novos normas' adicionados',
    foldl sincronizar_cliente (ano_dict, normas, adicionados) cls
    = (ano_dict ++ novos, normas', adicionados')
    ∧ normas_de (ano_dict ++ novos) normas'
    ∧ Forall (λ e, e.2 = registo_sincronizado
                   ∧ (∀ K, K ∈ ano_dict.*1 →
                           _norm_empresa_forte K ≠ _norm_empresa_forte e.1)
                   ∧ ∃ cli, cli ∈ cls ∧ e.1 = Py.strip (default "" (nome_do_cliente cli))
                            ∧ norma_do_cliente cli = Some (_norm_empresa_forte e.1)) novos
    ∧ (∀ cli n, cli ∈ cls → norma_do_cliente cli = Some n → is_Some (normas' !! n))
    ∧ (∀ n, is_Some (normas !! n) → is_Some (normas' !! n)).
Proof.
  revert ano_dict normas adicionados.
  unfold normas_de.
  induction cls as [|cli cls IH]; intros ano_dict normas adicionados Hn.
  { exists [], normas, adicionados. rewrite app_nil_r. split_and!; [done..| |done].
    intros cli n Hc. by apply elem_of_nil in Hc. }
  cbn [foldl]. rewrite sincronizar_cliente_norma.
  destruct (norma_do_cliente cli) as [n|] eqn:En.
  - apply norma_do_cliente_Some in En as Hn0. destruct Hn0 as [Htn Hnd].
    case_bool_decide as Hs.
    + destruct (IH ano_dict normas adicionados Hn) as (novos & normas' & a' & -> & H1 & H2 & H3 & H4).
      exists novos, normas', a'. split_and!; [done|done| | |done].
      * eapply Forall_impl; [exact H2|]. intros e (? & ? & c & ? & ? & ?).
        split; [done|]. split; [done|]. exists c. split; [by right|done].
      * intros c m [->|Hc]%elem_of_cons Hm; [|by eapply H3].
        rewrite En in Hm. injection Hm as <-. by apply H4.
    + cbn zeta. set (D := Py.strip (default "" (nome_do_cliente cli))) in *.
      assert (D ∉ ano_dict.*1) as HD.
      { intros HD. apply Hs. apply Hn. split; [done|]. by exists D. }
      rewrite pd_set_novo by done.
      destruct (IH (ano_dict ++ [(D, registo_sincronizado)]) (<[n := D]> normas)
                   (adicionados + 1))
        as (novos & normas' & a' & -> & H1 & H2 & H3 & H4).
      { intros m. rewrite lookup_insert_is_Some, Hn, fmap_app. split.
        - intros [<-|(_ & ? & K & HK & ?)].
          + split; [done|]. exists D. split; [|done]. apply elem_of_app. right. by left.
          + split; [done|]. exists K. split; [|done]. apply elem_of_app. by left.
        - intros (Htm & K & HK & HKm).
          destruct (decide (n = m)) as [|Hne]; [by left|]. right. split; [done|].
          split; [done|].
          apply elem_of_app in HK as [HK|HK%list_elem_of_singleton]; [by exists K|].
          subst K. simpl in HKm. congruence. }
      exists ((D, registo_sincronizado) :: novos), normas', a'.
      rewrite <- app_assoc in *. simpl in *. split_and!; [done|done| | |].
      * constructor.
        -- split; [done|]. split.
           { intros K HK HKn. apply Hs. apply Hn. split; [done|]. exists K.
             split; [done|]. simpl in HKn. congruence. }
           exists cli. simpl. split; [by left|]. split; [done|].
           by rewrite <- Hnd.
        -- eapply Forall_impl; [exact H2|]. intros e (? & Hk & c & ? & ? & ?).
           split; [done|]. split.
           { intros K HK. apply Hk. rewrite fmap_app. apply elem_of_app. by left. }
           exists c. split; [by right|done].
      * intros c m [->|Hc]%elem_of_cons Hm; [|by eapply H3].
        rewrite En in Hm. injection Hm as <-. apply H4. rewrite lookup_insert_is_Some. by left.
      * intros m Hm. apply H4. rewrite lookup_insert_is_Some.
        destruct (decide (n = m)); [by left|by right].
  - destruct (IH ano_dict normas adicionados Hn) as (novos & normas' & a' & -> & H1 & H2 & H3 & H4).
    exists novos, normas', a'. split_and!; [done|done| | |done].
    + eapply Forall_impl; [exact H2|]. intros e (? & ? & c & ? & ? & ?).
      split; [done|]. split; [done|]. exists c. split; [by right|done].
    + intros c m [->|Hc]%elem_of_cons Hm; [|by eapply H3]. by rewrite En in Hm.
Qed.

Lemma sincronizar_laco_coberto (cls : list Cliente) (ano_dict : AnoDict)
    (normas : gmap string string) (adicionados : Z) :
  (∀ cli n, cli ∈ cls → norma_do_cliente cli = Some n → is_Some (normas !! n)) →
  foldl sincronizar_cliente (ano_dict, normas, adicionados) cls
  = (ano_dict, normas, adicionados).
Proof.
  induction cls as [|cli cls IH]; intros H; [done|].
  cbn [foldl]. rewrite sincronizar_cliente_norma.
  destruct (norma_do_cliente cli) as [n|] eqn:En.
  - rewrite bool_decide_eq_true_2 by (eapply H; [by left|done]).
    apply IH. intros c m Hc. apply H. by right.
  - apply IH. intros c m Hc. apply H. by right.
Qed.

Lemma sincronizar_ano_spec (ano_dict : AnoDict) :
  ∃ novos,
    sincronizar_ano ano_dict = ano_dict ++ novos
    ∧ Forall (λ e, e.2 = registo_sincronizado
                   ∧ (∀ K, K ∈ ano_dict.*1 →
                           _norm_empresa_forte K ≠ _norm_empresa_forte e.1)
                   ∧ ∃ cli, cli ∈ clientes
                            ∧ e.1 = Py.strip (default "" (nome_do_cliente cli))
                            ∧ norma_do_cliente cli = Some (_norm_empresa_forte e.1)) novos
    ∧ (∀ cli n, cli ∈ clientes → norma_do_cliente cli = Some n →
                ∃ K, K ∈ (ano_dict ++ novos).*1 ∧ _norm_empresa_forte K = n)
    ∧ sincronizar_ano (ano_dict ++ novos) = ano_dict ++ novos.
Proof.
  destruct (sincronizar_laco clientes ano_dict (normas_das_chaves ano_dict) 0
              (normas_das_chaves_ok ano_dict))
    as (novos & normas' & a' & E & H1 & H2 & H3 & H4).
  exists novos. unfold sincronizar_ano at 1. rewrite E. simpl.
  split; [done|]. split; [done|]. split.
  - intros cli n Hc Hn. destruct (H3 cli n Hc Hn) as [v Hv].
    apply (proj1 (H1 n)). by exists v.
  - unfold sincronizar_ano. rewrite sincronizar_laco_coberto; [done|].
    intros cli n Hc Hn. apply (normas_das_chaves_ok (ano_dict ++ novos)).
    apply H1. by eapply H3.
Qed.

(** X8. [/timings/sincronizar-clientes] only adds companies.  The ledger
    in memory after the request is the ledger before it with new companies
    appended to the year, the companies it had keeping their place and
    their record.  Each new company is a client of the registry, under its
    stripped name, with twelve months of zero minutes, no extra and no
    technician detail, and its normalised key is that of no company the
    year had.  Afterwards every client of the registry with a non-empty
    normalised key has a company of the year with that key, so a second
    request changes nothing. *)
Theorem sincronizar_clientes_acrescenta (amb : Ambiente) (ano : Z) (p : Processo) :
  let ad := default [] (timings_dados p !! str_int ano) in
  let p' := (sincronizar_clientes amb ano p).1 in
  ∃ novos : AnoDict,
    timings_dados p' = <[str_int ano := ad ++ novos]> (timings_dados p)
    ∧ Forall (λ e, e.2 = registo_sincronizado
                   ∧ (∀ K, K ∈ ad.*1 → _norm_empresa_forte K ≠ _norm_empresa_forte e.1)
                   ∧ ∃ cli, cli ∈ clientes
                            ∧ e.1 = Py.strip (default "" (nome_do_cliente cli))
                            ∧ norma_do_cliente cli = Some (_norm_empresa_forte e.1)) novos
    ∧ (∀ cli n, cli ∈ clientes → norma_do_cliente cli = Some n →
                ∃ K, K ∈ (ad ++ novos).*1 ∧ _norm_empresa_forte K = n)
    ∧ ∀ amb', timings_dados (sincronizar_clientes amb' ano p').1 = timings_dados p'.
Proof.
  intros ad p'.
  destruct (sincronizar_ano_spec ad) as (novos & E & H1 & H2 & H3).
  assert (timings_dados p' = <[str_int ano := ad ++ novos]> (timings_dados p)) as Hp'.
  { subst p'. unfold sincronizar_clientes. rewrite timings_dados_persistir. simpl.
    rewrite no_ano_lookup. simpl. fold ad. rewrite E. unfold no_ano.
    by rewrite insert_insert_eq. }
  exists novos. split; [done|]. split; [done|]. split; [done|].
  intros amb'. unfold sincronizar_clientes at 1. rewrite timings_dados_persistir. simpl.
  rewrite no_ano_lookup, Hp', lookup_insert_eq. simpl. rewrite H3.
  unfold no_ano. by rewrite lookup_insert_eq, !insert_insert_eq.
Qed.

(** ** What a save leaves on disk *)

Lemma _guardar_timings_para_ficheiro_atomico (amb : Ambiente) (p : Processo) :
  let p' := (_guardar_timings_para_ficheiro amb p).1 in
  let r := (_guardar_timings_para_ficheiro amb p).2 in
  copias_bak p' = copias_bak p
  ∧ _PRECISA_BACKUP_TIMINGS p' = _PRECISA_BACKUP_TIMINGS p
  ∧ (is_Some (ficheiro_tmp p') →
     is_Some (ficheiro_tmp p)
     ∨ (remove_ok amb = false ∧ (escrita_ok amb = false ∨ replace_ok amb = false)))
  ∧ (r = Retorna true → TIMINGS_FILE p' = Some (JsonDe (timings_dados p))
                        ∧ ficheiro_tmp p' = None
                        ∧ escrita_ok amb = true ∧ replace_ok amb = true)
  ∧ (r ≠ Retorna true → TIMINGS_FILE p' = TIMINGS_FILE p).
Proof.
  unfold _guardar_timings_para_ficheiro.
  destruct (_total_minutos_timings _); [|split_and!; try done; intros ?; by left].
  destruct (reducao_suspeita _ _) as [[]|];
    [split_and!; try done; intros ?; by left| |split_and!; try done; intros ?; by left].
  unfold remover_tmp, escrita_falhada.
  destruct (escrita_ok amb), (replace_ok amb), (escrita_parcial amb), (remove_ok amb);
    simpl; try (destruct (ficheiro_tmp p) eqn:Et; simpl);
    (split_and!; [done|done| |done|done]);
    intros Hs;
    first [by apply is_Some_None in Hs
          |by left
          |by (rewrite Et in Hs; apply is_Some_None in Hs)
          |right; by auto].
Qed.


(** ** The soft delete *)

Lemma pd_get_set_outro {V : Type} (k k' : string) (v : V) (d : list (string * V)) :
  k ≠ k' → pd_get k' (pd_set k v d) = pd_get k' d.
Proof.
  intros Hne. unfold pd_set. destruct (pd_get k d) eqn:E.
  - by rewrite pd_get_alter, decide_False.
  - rewrite pd_get_app. simpl. rewrite decide_False by done. by destruct (pd_get k' d).
Qed.

Lemma pd_set_keys {V : Type} (k : string) (v : V) (d : list (string * V)) :
  (pd_set k v d).*1 = if decide (k ∈ d.*1) then d.*1 else d.*1 ++ [k].
Proof.
  unfold pd_set. destruct (pd_get k d) eqn:E.
  - apply pd_get_Some_elem in E. rewrite decide_True by done. apply pd_alter_keys.
  - apply pd_get_None in E. rewrite decide_False by done. by rewrite fmap_app.
Qed.

Lemma pd_alter_pd_alter {V : Type} (f g : V → V) (k : string) (d : list (string * V)) :
  pd_alter f k (pd_alter g k d) = pd_alter (f ∘ g) k d.
Proof.
  induction d as [|[k' v] d IH]; simpl; [done|].
  destruct (decide (k' = k)); simpl.
  - by rewrite decide_True.
  - rewrite decide_False by done. by rewrite IH.
Qed.

Lemma pd_set_pd_set {V : Type} (k : string) (v w : V) (d : list (string * V)) :
  pd_set k w (pd_set k v d) = pd_set k w d.
Proof.
  unfold pd_set at 1. rewrite pd_get_set. unfold pd_set.
  destruct (pd_get k d) eqn:E.
  - by rewrite pd_alter_pd_alter.
  - induction d as [|[k' x] d IH]; simpl in *.
    + by rewrite decide_True.
    + destruct (decide (k' = k)); [done|]. by rewrite IH.
Qed.

(** X10. The soft delete keeps the data.  After [/timings/excluir] the
    company has its flag up and the months, the extra and the technician
    detail it had (an empty record when it had none); the other companies
    of the year keep their record and their place, a company that is new to
    the year goes last, and the other years are untouched.  Deleting the
    same company again changes nothing in the ledger. *)
Theorem excluir_timing_empresa_conserva (amb : Ambiente) (ano : Z) (empresa : string)
    (p : Processo) :
  let ad := default [] (timings_dados p !! str_int ano) in
  let p' := (excluir_timing_empresa amb ano empresa p).1 in
  let ad' := default [] (timings_dados p' !! str_int ano) in
  (∀ y, y ≠ str_int ano → timings_dados p' !! y = timings_dados p !! y)
  ∧ (∀ k, k ≠ empresa → pd_get k ad' = pd_get k ad)
  ∧ ad'.*1 = (if decide (empresa ∈ ad.*1) then ad.*1 else ad.*1 ++ [empresa])
  ∧ (∃ rec', pd_get empresa ad' = Some rec' ∧ apagado rec' = true
             ∧ match pd_get empresa ad with
               | Some rec => meses rec' = meses rec ∧ extra_mensal rec' = extra_mensal rec
                             ∧ por_tecnico rec' = por_tecnico rec
               | None => meses rec' = ∅ ∧ extra_mensal rec' = 0 ∧ por_tecnico rec' = None
               end)
  ∧ ∀ amb', timings_dados (excluir_timing_empresa amb' ano empresa p').1 = timings_dados p'.
Proof.
  intros ad p' ad'.
  assert (timings_dados p'
          = <[str_int ano := pd_set empresa (marcar_apagado (pd_get empresa ad)) ad]>
              (timings_dados p)) as Hp'.
  { subst p'. unfold excluir_timing_empresa. by rewrite timings_dados_persistir. }
  assert (ad' = pd_set empresa (marcar_apagado (pd_get empresa ad)) ad) as Had'.
  { subst ad'. by rewrite Hp', lookup_insert_eq. }
  split_and!.
  - intros y Hy. by rewrite Hp', lookup_insert_ne.
  - intros k Hk. by rewrite Had', pd_get_set_outro.
  - rewrite Had'. apply pd_set_keys.
  - exists (marcar_apagado (pd_get empresa ad)). rewrite Had', pd_get_set.
    split; [done|]. by destruct (pd_get empresa ad).
  - intros amb'. unfold excluir_timing_empresa at 1.
    rewrite timings_dados_persistir. simpl. unfold no_ano. fold ad'.
    rewrite Hp', insert_insert_eq. f_equal. rewrite Had', pd_get_set, pd_set_pd_set.
    f_equal. by destruct (pd_get empresa ad).
Qed.

(** ** The forms that write extras and averages *)

Lemma para_cada_ate_inv {S X : Type} (P : S → Prop) (corpo : S → X → Resultado S)
    (l : list X) (st : S) :
  (∀ s x s', x ∈ l → P s → corpo s x = Retorna s' → P s') →
  P st → P (para_cada_ate corpo st l).1.
Proof.
  revert st. induction l as [|x l IH]; intros st Hc H0; simpl; [done|].
  destruct (corpo st x) as [st'|e] eqn:E; [|done].
  apply IH.
  - intros s y s' Hy. apply Hc. by right.
  - eapply Hc; [by left|done|done].
Qed.

Lemma para_cada_ate_retorna {S X : Type} (corpo : S → X → Resultado S) (l : list X) (st : S) :
  (∀ s x, x ∈ l → ∃ s', corpo s x = Retorna s') →
  (para_cada_ate corpo st l).2 = None.
Proof.
  revert st. induction l as [|x l IH]; intros st Hc; simpl; [done|].
  destruct (Hc st x) as [st' ->]; [by left|].
  apply IH. intros s y Hy. apply Hc. by right.
Qed.

Lemma elem_of_enumerate {X : Type} (l : list X) (i : nat) (x : X) :
  (i, x) ∈ enumerate l ↔ l !! i = Some x.
Proof.
  unfold enumerate. rewrite list_elem_of_lookup. split.
  - intros [j Hj]. rewrite list_lookup_imap in Hj.
    destruct (l !! j) eqn:E; simpl in Hj; [|done]. by injection Hj as <- <-.
  - intros Hi. exists i. by rewrite list_lookup_imap, Hi.
Qed.

(** The last write of a loop that writes under names: when the turn at
    position [j] writes under [k] a value with the property [Q] and no
    later turn has the name [k], the loop ends with such a value under [k].
    [R] is an invariant of the loop. *)
Lemma ultimo_a_escrever {V : Type} (corpo : list (string * V) → nat * string
                                            → Resultado (list (string * V)))
    (R : list (string * V) → Prop) (Q : V → Prop) (i : nat) (k : string)
    (es : list (nat * string)) :
  (∀ s e, e ∈ es → ∃ s', corpo s e = Retorna s') →
  (∀ s e s' k', corpo s e = Retorna s' → k' ≠ e.2 → pd_get k' s' = pd_get k' s) →
  (∀ s e s', R s → corpo s e = Retorna s' → R s') →
  (∀ s s', R s → corpo s (i, k) = Retorna s' → ∃ v, pd_get k s' = Some v ∧ Q v) →
  ∀ (st : list (string * V)) (j : nat),
    R st → es !! j = Some (i, k) →
    (∀ j' e, (j < j')%nat → es !! j' = Some e → e.2 ≠ k) →
    ∃ v, pd_get k (para_cada_ate corpo st es).1 = Some v ∧ Q v.
Proof.
  intros Hret Hframe HR Hw.
  induction es as [|e0 es IH]; intros st j Hst Hj Hlater; [done|].
  simpl. destruct (Hret st e0) as [st1 E]; [by left|]. rewrite E.
  destruct j as [|j]; simpl in Hj.
  - injection Hj as ->.
    destruct (Hw st st1 Hst E) as (v & Hv & HQ).
    exists v. split; [|done]. rewrite <- Hv.
    apply (para_cada_ate_inv (λ s, pd_get k s = pd_get k st1)); [|done].
    intros s x s' Hx Hs Hc. rewrite <- Hs. eapply Hframe; [done|].
    apply list_elem_of_lookup in Hx as [j' Hj'].
    intros Hk. apply (Hlater (S j') x); [lia|done|done].
  - apply (IH (λ s e He, Hret s e (list_elem_of_further _ _ _ He)) st1 j);
      [by eapply HR|done|].
    intros j' e Hlt He. eapply (Hlater (S j')); [lia|done].
Qed.

Lemma persistir_levanta (amb : Ambiente) (p : Processo) (e : Excecao) :
  (_persistir_timings amb p).2 = Levanta e →
  TIMINGS_FILE (_persistir_timings amb p).1 = TIMINGS_FILE p.
Proof.
  intros H. unfold _persistir_timings in *.
  destruct (_guardar_timings_para_ficheiro_atomico amb (copiar_bak amb p))
    as (_ & _ & _ & _ & H5). cbn zeta in H5.
  rewrite H5 by (by rewrite H). apply TIMINGS_FILE_copiar_bak.
Qed.

(** *** [/timings/guardar] *)

Lemma linha_extra_passo (extras_txt : list string) (cur cur' : AnoDict) (i : nat)
    (nome : string) :
  linha_extra extras_txt cur (i, nome) = Retorna cur' →
  (Py.truthy nome = false ∧ cur' = cur)
  ∨ (Py.truthy nome = true
     ∧ ∃ m, _parse_tempo_para_minutos (Some (default "" (extras_txt !! i))) = Retorna m
            ∧ cur' = pd_set nome
                       {| meses := meses (default registo_novo (pd_get nome cur));
                          extra_mensal := m;
                          apagado := apagado (default registo_novo (pd_get nome cur));
                          por_tecnico :=
                            Some (default ∅ (por_tecnico
                                               (default registo_novo (pd_get nome cur)))) |}
                       cur).
Proof.
  unfold linha_extra. destruct (Py.truthy nome); cbn [negb].
  - destruct (_parse_tempo_para_minutos (Some (default "" (extras_txt !! i))))
      as [m|] eqn:Em; cbn [mbind]; [|done].
    intros [= <-]. right. split; [done|]. by exists m.
  - intros [= <-]. by left.
Qed.

Lemma guardar_timings_extras_dados (amb : Ambiente) (ano : Z)
    (empresas extras_txt : list string) (p : Processo) :
  let ad := default [] (timings_dados p !! str_int ano) in
  let laco := para_cada_ate (linha_extra extras_txt) ad (enumerate empresas) in
  let p' := (guardar_timings_extras amb ano empresas extras_txt p).1 in
  timings_dados p' = <[str_int ano := laco.1]> (timings_dados p)
  ∧ (∀ e, (guardar_timings_extras amb ano empresas extras_txt p).2 = Levanta e →
          TIMINGS_FILE p' = TIMINGS_FILE p).
Proof.
  intros ad laco p'. subst p'. unfold guardar_timings_extras.
  rewrite no_ano_lookup. simpl. fold ad. fold laco.
  destruct laco as [ad' [e|]]; simpl.
  - split; [|done]. unfold no_ano. by rewrite insert_insert_eq.
  - rewrite timings_dados_persistir. simpl. split.
    + unfold no_ano. by rewrite insert_insert_eq.
    + intros e He. by rewrite (persistir_levanta _ _ e He).
Qed.

(** X11. [/timings/guardar] keeps the minutes.  Whatever the form holds,
    and also when one of its fields makes the parser raise, every company
    the year had is still there after the request with the months, the
    deleted flag and the technician detail it had, and a company that the
    form does not name keeps its whole record; a company that is new to the
    year was named by the form and has no months.  The other years are
    untouched, and a request that raises leaves the ledger file as it
    was. *)
Theorem guardar_timings_extras_conserva (amb : Ambiente) (ano : Z)
    (empresas extras_txt : list string) (p : Processo) :
  let ad := default [] (timings_dados p !! str_int ano) in
  let p' := (guardar_timings_extras amb ano empresas extras_txt p).1 in
  let ad' := default [] (timings_dados p' !! str_int ano) in
  (∀ y, y ≠ str_int ano → timings_dados p' !! y = timings_dados p !! y)
  ∧ (∀ e, (guardar_timings_extras amb ano empresas extras_txt p).2 = Levanta e →
          TIMINGS_FILE p' = TIMINGS_FILE p)
  ∧ ∀ k : string,
      match pd_get k ad with
      | Some rec =>
          ∃ rec', pd_get k ad' = Some rec'
            ∧ meses rec' = meses rec ∧ apagado rec' = apagado rec
            ∧ default ∅ (por_tecnico rec') = default ∅ (por_tecnico rec)
            ∧ (k ∉ empresas → rec' = rec)
      | None =>
          ∀ rec', pd_get k ad' = Some rec' →
                  k ∈ empresas ∧ meses rec' = ∅ ∧ apagado rec' = false
                  ∧ por_tecnico rec' = Some ∅
      end.
Proof.
  intros ad p' ad'.
  destruct (guardar_timings_extras_dados amb ano empresas extras_txt p) as [Hd Hf].
  cbn zeta in Hd, Hf. fold ad p' in Hd, Hf.
  split; [intros y Hy; by rewrite Hd, lookup_insert_ne|]. split; [exact Hf|].
  subst ad'. rewrite Hd, lookup_insert_eq. simpl. clear Hd Hf. intros k.
  apply (para_cada_ate_inv
           (λ cur : AnoDict,
              match pd_get k ad with
              | Some rec =>
                  ∃ rec', pd_get k cur = Some rec'
                    ∧ meses rec' = meses rec ∧ apagado rec' = apagado rec
                    ∧ default ∅ (por_tecnico rec') = default ∅ (por_tecnico rec)
                    ∧ (k ∉ empresas → rec' = rec)
              | None =>
                  ∀ rec', pd_get k cur = Some rec' →
                          k ∈ empresas ∧ meses rec' = ∅ ∧ apagado rec' = false
                          ∧ por_tecnico rec' = Some ∅
              end)).
  - intros cur [i nome] cur' Hin Hcur Hp.
    apply elem_of_enumerate, list_elem_of_lookup_2 in Hin.
    apply linha_extra_passo in Hp as [[_ ->]|(_ & m & _ & ->)]; [done|].
    destruct (decide (nome = k)) as [->|Hne].
    + rewrite pd_get_set. destruct (pd_get k ad) as [rec|].
      * destruct Hcur as (rec0 & -> & H1 & H2 & H3 & H4). simpl.
        eexists. split; [done|]. simpl. by split_and!.
      * intros rec' [= <-]. simpl. split; [done|].
        destruct (pd_get k cur) as [rec0|] eqn:E0; simpl; [|done].
        destruct (Hcur rec0 eq_refl) as (_ & -> & -> & ->). done.
    + by rewrite pd_get_set_outro.
  - destruct (pd_get k ad) as [rec|]; [|done]. by exists rec.
Qed.

(** X12. [/timings/guardar] writes the extra.  When no field of the form
    makes the parser raise, the request goes on to the save, and each
    company the form names ends with the minutes parsed from its field as
    its extra: the field paired with the last row of the form that names
    it, or the empty text when the form has fewer fields than names. *)
Theorem guardar_timings_extras_grava (amb : Ambiente) (ano : Z)
    (empresas extras_txt : list string) (p : Processo) (idx : nat) (k : string) (m : Z) :
  (∀ i x, empresas !! i = Some x → Py.truthy x = true →
          ∃ v, _parse_tempo_para_minutos (Some (default "" (extras_txt !! i))) = Retorna v) →
  empresas !! idx = Some k → Py.truthy k = true →
  (∀ j, (idx < j)%nat → empresas !! j ≠ Some k) →
  _parse_tempo_para_minutos (Some (default "" (extras_txt !! idx))) = Retorna m →
  let p' := (guardar_timings_extras amb ano empresas extras_txt p).1 in
  (∃ td', guardar_timings_extras amb ano empresas extras_txt p
          = _persistir_timings amb (com_dados p td'))
  ∧ ∃ rec', pd_get k (default [] (timings_dados p' !! str_int ano)) = Some rec'
            ∧ extra_mensal rec' = m.
Proof.
  intros Hparse Hidx Hk Hlast Hm p'.
  assert (∀ (s : AnoDict) (e : nat * string), e ∈ enumerate empresas →
            ∃ s', linha_extra extras_txt s e = Retorna s') as Hret.
  { intros s [i x] Hin%elem_of_enumerate. unfold linha_extra.
    destruct (Py.truthy x) eqn:Ex; cbn [negb]; [|by eexists].
    destruct (Hparse i x Hin Ex) as [v ->]. by eexists. }
  split.
  { unfold guardar_timings_extras.
    pose proof (para_cada_ate_retorna (linha_extra extras_txt) (enumerate empresas)
                  (default [] (no_ano ano id (timings_dados p) !! str_int ano)) Hret) as Hn.
    destruct (para_cada_ate _ _ _) as [ad' exc]. simpl in Hn. subst exc. by eexists. }
  destruct (guardar_timings_extras_dados amb ano empresas extras_txt p) as [Hd _].
  cbn zeta in Hd. fold p' in Hd. rewrite Hd, lookup_insert_eq. simpl.
  apply (ultimo_a_escrever (linha_extra extras_txt) (λ _, True)
           (λ rec', extra_mensal rec' = m) idx k (enumerate empresas)) with (j := idx);
    [exact Hret| | | |done| |].
  - intros s [i x] s' k' Hp Hne. simpl in Hne.
    apply linha_extra_passo in Hp as [[_ ->]|(_ & v & _ & ->)]; [done|].
    by rewrite pd_get_set_outro.
  - done.
  - intros s s' _ Hp. apply linha_extra_passo in Hp as [[Hf _]|(_ & v & Hv & ->)];
      [congruence|].
    rewrite pd_get_set. eexists. split; [done|]. simpl. congruence.
  - unfold enumerate. by rewrite list_lookup_imap, Hidx.
  - intros j' [i x] Hlt He. unfold enumerate in He. rewrite list_lookup_imap in He.
    destruct (empresas !! j') as [y|] eqn:Ey; simpl in He; [|done].
    injection He as <- <-. simpl. intros ->. by apply (Hlast j').
Qed.

(** *** [/timings/guardar-media] *)

Lemma linha_media_passo (jan_medias : list string) (cur cur' : AnoDict) (i : nat)
    (nome : string) :
  linha_media jan_medias cur (i, nome) = Retorna cur' →
  cur' = cur
  ∨ (Py.truthy nome = true
     ∧ ∃ m, _parse_tempo_para_minutos (Some (default "" (jan_medias !! i))) = Retorna m
            ∧ 0 < m
            ∧ cur' = pd_set nome
                       (registo_media m (default 0 (extra_mensal <$> pd_get nome cur))) cur).
Proof.
  unfold linha_media. destruct (Py.truthy nome); cbn [negb].
  - destruct (_parse_tempo_para_minutos (Some (default "" (jan_medias !! i))))
      as [m|] eqn:Em; cbn [mbind]; [|done].
    unfold Resultado_bind. destruct (m <=? 0) eqn:E0; intros [= <-]; [by left|].
    right. split; [done|]. exists m. split; [done|]. split; [lia|].
    by destruct (pd_get nome cur).
  - intros [= <-]. by left.
Qed.

Lemma guardar_timings_media_dados (amb : Ambiente) (ano : Z)
    (cliente_media jan_media : list string) (p : Processo) :
  let ad := default [] (timings_dados p !! str_int ano) in
  let laco := para_cada_ate (linha_media jan_media) ad (enumerate cliente_media) in
  let p' := (guardar_timings_media amb ano cliente_media jan_media p).1 in
  timings_dados p' = <[str_int ano := laco.1]> (timings_dados p)
  ∧ (∀ e, (guardar_timings_media amb ano cliente_media jan_media p).2 = Levanta e →
          TIMINGS_FILE p' = TIMINGS_FILE p).
Proof.
  intros ad laco p'. subst p'. unfold guardar_timings_media.
  rewrite no_ano_lookup. simpl. fold ad. fold laco.
  destruct laco as [ad' [e|]]; simpl.
  - split; [|done]. unfold no_ano. by rewrite insert_insert_eq.
  - rewrite timings_dados_persistir. simpl. split.
    + unfold no_ano. by rewrite insert_insert_eq.
    + intros e He. by rewrite (persistir_levanta _ _ e He).
Qed.

(** X13. [/timings/guardar-media] keeps the extras.  Whatever the form
    holds, and also when one of its fields makes the parser raise, each
    company of the year is after the request either as it was before, or
    named by the form and with the record of an average: the same positive
    minutes in each of the twelve months, the extra it had before the
    request (none when it is new to the year), not deleted and without
    technician detail.  The other years are untouched, and a request that
    raises leaves the ledger file as it was. *)
Theorem guardar_timings_media_conserva (amb : Ambiente) (ano : Z)
    (cliente_media jan_media : list string) (p : Processo) :
  let ad := default [] (timings_dados p !! str_int ano) in
  let p' := (guardar_timings_media amb ano cliente_media jan_media p).1 in
  let ad' := default [] (timings_dados p' !! str_int ano) in
  (∀ y, y ≠ str_int ano → timings_dados p' !! y = timings_dados p !! y)
  ∧ (∀ e, (guardar_timings_media amb ano cliente_media jan_media p).2 = Levanta e →
          TIMINGS_FILE p' = TIMINGS_FILE p)
  ∧ (∀ k : string,
       pd_get k ad' = pd_get k ad
       ∨ (k ∈ cliente_media ∧ k ≠ ""
          ∧ ∃ m, 0 < m
                 ∧ pd_get k ad'
                   = Some (registo_media m (default 0 (extra_mensal <$> pd_get k ad)))))
  ∧ ∀ m extra mes, 1 ≤ mes ≤ 12 →
      minutos_do_mes mes (registo_media m extra) = m
      ∧ extra_mensal (registo_media m extra) = extra
      ∧ apagado (registo_media m extra) = false
      ∧ por_tecnico (registo_media m extra) = Some ∅.
Proof.
  intros ad p' ad'.
  destruct (guardar_timings_media_dados amb ano cliente_media jan_media p) as [Hd Hf].
  cbn zeta in Hd, Hf. fold ad p' in Hd, Hf.
  split; [intros y Hy; by rewrite Hd, lookup_insert_ne|]. split; [exact Hf|].
  split.
  - subst ad'. rewrite Hd, lookup_insert_eq. simpl. clear Hd Hf. intros k.
    apply (para_cada_ate_inv
             (λ cur : AnoDict,
                pd_get k cur = pd_get k ad
                ∨ (k ∈ cliente_media ∧ k ≠ ""
                   ∧ ∃ m, 0 < m
                          ∧ pd_get k cur
                            = Some (registo_media m
                                      (default 0 (extra_mensal <$> pd_get k ad))))));
      [|by left].
    intros cur [i nome] cur' Hin Hcur Hp.
    apply elem_of_enumerate, list_elem_of_lookup_2 in Hin.
    apply linha_media_passo in Hp as [->|(Ht & m & _ & Hm & ->)]; [done|].
    destruct (decide (nome = k)) as [->|Hne]; [|by rewrite pd_get_set_outro].
    right. split; [done|]. split; [by apply truthy_true|]. exists m. split; [done|].
    rewrite pd_get_set. do 2 f_equal.
    destruct Hcur as [->|(_ & _ & m0 & _ & ->)]; done.
  - intros m extra mes Hmes. split; [|done].
    unfold minutos_do_mes, registo_media, meses_todos. simpl.
    assert (mes = 1 ∨ mes = 2 ∨ mes = 3 ∨ mes = 4 ∨ mes = 5 ∨ mes = 6 ∨ mes = 7 ∨ mes = 8
            ∨ mes = 9 ∨ mes = 10 ∨ mes = 11 ∨ mes = 12) as Hc by lia.
    destruct Hc as [->|[->|[->|[->|[->|[->|[->|[->|[->|[->|[->| ->]]]]]]]]]]];
      repeat (rewrite lookup_insert_eq || rewrite lookup_insert_ne by done); done.
Qed.

(** X14. [/timings/guardar-media] writes the average.  When no field of
    the form makes the parser raise, the request goes on to the save, and a
    company whose last row in the form has a field of positive minutes ends
    with those minutes in each of the twelve months, with the extra it had
    before the request (none when it is new), not deleted and without
    technician detail. *)
Theorem guardar_timings_media_grava (amb : Ambiente) (ano : Z)
    (cliente_media jan_media : list string) (p : Processo) (idx : nat) (k : string) (m : Z) :
  (∀ i x, cliente_media !! i = Some x → Py.truthy x = true →
          ∃ v, _parse_tempo_para_minutos (Some (default "" (jan_media !! i))) = Retorna v) →
  cliente_media !! idx = Some k → Py.truthy k = true →
  (∀ j, (idx < j)%nat → cliente_media !! j ≠ Some k) →
  _parse_tempo_para_minutos (Some (default "" (jan_media !! idx))) = Retorna m →
  0 < m →
  let ad := default [] (timings_dados p !! str_int ano) in
  let p' := (guardar_timings_media amb ano cliente_media jan_media p).1 in
  (∃ td', guardar_timings_media amb ano cliente_media jan_media p
          = _persistir_timings amb (com_dados p td'))
  ∧ pd_get k (default [] (timings_dados p' !! str_int ano))
    = Some {| meses := meses_todos m;
              extra_mensal := default 0 (extra_mensal <$> pd_get k ad);
              apagado := false; por_tecnico := Some ∅ |}.
Proof.
  intros Hparse Hidx Hk Hlast Hm Hpos ad p'.
  assert (∀ (s : AnoDict) (e : nat * string), e ∈ enumerate cliente_media →
            ∃ s', linha_media jan_media s e = Retorna s') as Hret.
  { intros s [i x] Hin%elem_of_enumerate. unfold linha_media.
    destruct (Py.truthy x) eqn:Ex; cbn [negb]; [|by eexists].
    destruct (Hparse i x Hin Ex) as [v ->]. cbn [mbind]. unfold Resultado_bind.
    destruct (v <=? 0); by eexists. }
  split.
  { unfold guardar_timings_media.
    pose proof (para_cada_ate_retorna (linha_media jan_media) (enumerate cliente_media)
                  (default [] (no_ano ano id (timings_dados p) !! str_int ano)) Hret) as Hn.
    destruct (para_cada_ate _ _ _) as [ad' exc]. simpl in Hn. subst exc. by eexists. }
  destruct (guardar_timings_media_dados amb ano cliente_media jan_media p) as [Hd _].
  cbn zeta in Hd. fold p' ad in Hd. rewrite Hd, lookup_insert_eq. simpl.
  destruct (ultimo_a_escrever (linha_media jan_media)
              (λ cur, default 0 (extra_mensal <$> pd_get k cur)
                      = default 0 (extra_mensal <$> pd_get k ad))
              (λ rec', rec' = registo_media m (default 0 (extra_mensal <$> pd_get k ad)))
              idx k (enumerate cliente_media) Hret) with (st := ad) (j := idx)
    as (v & Hv & ->); [| | |done| | |done].
  - intros s [i x] s' k' Hp Hne. simpl in Hne.
    apply linha_media_passo in Hp as [->|(_ & v & _ & _ & ->)]; [done|].
    by rewrite pd_get_set_outro.
  - intros s [i x] s' Hs Hp.
    apply linha_media_passo in Hp as [->|(_ & v & _ & _ & ->)]; [done|].
    destruct (decide (x = k)) as [->|Hne]; [|by rewrite pd_get_set_outro].
    by rewrite pd_get_set.
  - intros s s' Hs Hp. unfold linha_media in Hp. rewrite Hk, Hm in Hp.
    cbn [negb mbind] in Hp. unfold Resultado_bind in Hp.
    rewrite (proj2 (Z.leb_gt m 0) Hpos) in Hp. injection Hp as <-.
    rewrite pd_get_set. eexists. split; [done|]. unfold _extra_mes. rewrite <- Hs.
    by destruct (pd_get k s).
  - unfold enumerate. by rewrite list_lookup_imap, Hidx.
  - intros j' [i x] Hlt He. unfold enumerate in He. rewrite list_lookup_imap in He.
    destruct (cliente_media !! j') as [y|] eqn:Ey; simpl in He; [|done].
    injection He as <- <-. simpl. intros ->. by apply (Hlast j').
Qed.

(** ** Details and totals of a tabular sheet *)

Lemma pd_pop_keys {V : Type} (k k' : string) (d : list (string * V)) :
  k' ∈ (pd_pop k d).*1 → k' ∈ d.*1 ∧ (NoDup d.*1 → k' ≠ k).
Proof.
  induction d as [|[k0 v] d IH]; simpl; [by intros ?%elem_of_nil|].
  destruct (decide (k0 = k)) as [->|Hne]; csimpl.
  - intros Hin. split; [by right|]. intros [Hk _]%NoDup_cons ->. done.
  - intros [->|Hin]%elem_of_cons.
    + split; [by left|done].
    + destruct (IH Hin) as [H1 H2]. split; [by right|].
      intros [_ Hnd]%NoDup_cons. by apply H2.
Qed.


Lemma pd_acumular_keys (k : string) (n : Z) (d : list (string * Z)) :
  (pd_acumular k n d).*1 = if decide (k ∈ d.*1) then d.*1 else d.*1 ++ [k].
Proof. unfold pd_acumular. apply pd_set_keys. Qed.






Lemma totais_dos_resumos (l tf0 : list (string * Z)) (k : string) :
  k ∈ (foldl (λ tf '(empresa, minutos),
                if 0 <? minutos then pd_acumular empresa minutos tf else tf) tf0 l).*1 →
  k ∈ tf0.*1 ∨ k ∈ l.*1.
Proof.
  revert tf0. induction l as [|[e m] l IH]; intros tf0; simpl; [by left|].
  intros [Hk|Hk]%IH; [|right; by right].
  destruct (0 <? m); [|by left]. rewrite pd_acumular_keys in Hk.
  destruct (decide _); [by left|].
  apply elem_of_app in Hk as [Hk|Hk%list_elem_of_singleton]; [by left|].
  subst. right. by left.
Qed.


(** * Durations as text and as floats *)

(** ** Integers in binary64 *)

Lemma iter_pos_nat {A : Type} (f : A → A) (p : positive) (x : A) :
  iter_pos f p x = Nat.iter (Pos.to_nat p) f x.
Proof.
  revert x. induction p as [p IH|p IH|]; intros x; cbn [iter_pos].
  - rewrite !IH. rewrite Pos2Nat.inj_xI.
    replace (S (2 * Pos.to_nat p))%nat with (Pos.to_nat p + (Pos.to_nat p + 1))%nat by lia.
    rewrite !Nat.iter_add. done.
  - rewrite !IH. rewrite Pos2Nat.inj_xO.
    replace (2 * Pos.to_nat p)%nat with (Pos.to_nat p + Pos.to_nat p)%nat by lia.
    by rewrite Nat.iter_add.
  - done.
Qed.

Lemma digits2_pos_log2 (p : positive) : Zpos (digits2_pos p) = Z.log2 (Zpos p) + 1.
Proof.
  assert (∀ q, digits2_pos q = Pos.size q) as H.
  { induction q as [q IH|q IH|]; simpl; by rewrite ?IH. }
  destruct p as [p|p|]; simpl; rewrite ?H; lia.
Qed.

Lemma shr_1_par (M : Z) :
  0 < M →
  shr_1 {| shr_m := 2 * M; shr_r := false; shr_s := false |}
  = {| shr_m := M; shr_r := false; shr_s := false |}.
Proof. intros HM. destruct M as [|q|q]; [lia|done|lia]. Qed.

(** [k] halvings of [a * 2^k] are exact. *)
Lemma shr_1_exacto (k : nat) (a : Z) :
  0 < a →
  Nat.iter k shr_1 {| shr_m := a * 2 ^ Z.of_nat k; shr_r := false; shr_s := false |}
  = {| shr_m := a; shr_r := false; shr_s := false |}.
Proof.
  intros Ha. induction k as [|k IH].
  - simpl. by rewrite Z.mul_1_r.
  - rewrite Nat.iter_succ_r.
    replace (a * 2 ^ Z.of_nat (S k)) with (2 * (a * 2 ^ Z.of_nat k))
      by (rewrite Nat2Z.inj_succ, Z.pow_succ_r by lia; lia).
    rewrite shr_1_par; [exact IH|].
    apply Z.mul_pos_pos; [lia|apply Z.pow_pos_nonneg; lia].
Qed.

Lemma pos_iter_xO (p q : positive) : Zpos (Pos.iter xO p q) = Zpos p * 2 ^ Zpos q.
Proof.
  rewrite Pos2Nat.inj_iter.
  assert (∀ n : nat, Zpos (Nat.iter n xO p) = Zpos p * 2 ^ Z.of_nat n) as H.
  { induction n as [|n IH].
    - simpl. lia.
    - rewrite Nat2Z.inj_succ, Z.pow_succ_r by lia. rewrite Nat.iter_succ.
      rewrite Pos2Z.inj_xO, IH. lia. }
  change (nat_rect (λ _ : nat, positive) p (λ _ : nat, xO) (Pos.to_nat q))
    with (Nat.iter (Pos.to_nat q) xO p).
  by rewrite H, positive_nat_Z.
Qed.

(** Rounding a mantissa that has 53 bits changes nothing. *)
Lemma binary_round_aux_53 (sx : bool) (m : positive) (e : Z) :
  Z.log2 (Zpos m) = 52 → -1074 ≤ e ≤ 971 →
  binary_round_aux 53 1024 sx (Zpos m) e loc_Exact = S754_finite sx m e.
Proof.
  intros Hd He. unfold binary_round_aux, shr_fexp, fexp, emin. cbn [Zdigits2 shr_record_of_loc].
  rewrite digits2_pos_log2, Hd.
  replace (Z.max (52 + 1 + e - 53) (3 - 1024 - 53) - e) with 0 by lia.
  cbn [shr loc_of_shr_record shr_m round_nearest_even Zdigits2].
  rewrite digits2_pos_log2, Hd.
  replace (Z.max (52 + 1 + e - 53) (3 - 1024 - 53) - e) with 0 by lia.
  cbn [shr shr_m]. replace (e <=? 1024 - 53) with true by lia. done.
Qed.

Lemma log2_canon (n : Z) :
  0 < n < 2 ^ 53 →
  0 ≤ Z.log2 n ≤ 52 ∧ 0 < n * 2 ^ (52 - Z.log2 n)
  ∧ Z.log2 (n * 2 ^ (52 - Z.log2 n)) = 52.
Proof.
  intros Hn.
  assert (0 ≤ Z.log2 n) as H0 by apply Z.log2_nonneg.
  assert (Z.log2 n < 53) as H1 by (apply Z.log2_lt_pow2; lia).
  split; [lia|]. split.
  - apply Z.mul_pos_pos; [lia|apply Z.pow_pos_nonneg; lia].
  - rewrite Z.log2_mul_pow2 by lia. lia.
Qed.

Lemma of_int_canon (n : Z) : 0 < n < 2 ^ 53 → Float64.of_int n = canon n.
Proof.
  intros Hn. destruct (log2_canon n Hn) as (Hl & Hp & Hl2).
  unfold Float64.of_int, canon, binary_normalize.
  destruct n as [|p|p]; [lia| |lia].
  unfold binary_round, shl_align, fexp, emin. rewrite digits2_pos_log2.
  replace (Z.max (Z.log2 (Zpos p) + 1 + 0 - 53) (3 - 1024 - 53) - 0)
    with (Z.log2 (Zpos p) - 52) by lia.
  replace (Z.max (Z.log2 (Zpos p) + 1 + 0 - 53) (3 - 1024 - 53))
    with (Z.log2 (Zpos p) - 52) by lia.
  destruct (Z.log2 (Zpos p) - 52) as [|q|q] eqn:E; [| lia |].
  - replace (52 - Z.log2 (Zpos p)) with 0 in * by lia.
    rewrite Z.mul_1_r in *. rewrite binary_round_aux_53 by (simpl in *; lia). done.
  - assert (52 - Z.log2 (Zpos p) = Zpos q) as E' by lia. rewrite E' in *.
    rewrite <- pos_iter_xO in *. rewrite binary_round_aux_53 by (simpl in *; lia).
    done.
Qed.

(** [int(round(x))] of the canonical form of [n] is [n]. *)
Lemma round_canon (n : Z) : 0 < n < 2 ^ 53 → Float64.round (canon n) = Retorna n.
Proof.
  intros Hn. destruct (log2_canon n Hn) as (Hl & Hp & Hl2).
  unfold canon, Float64.round. cbn [cond_Zopp]. f_equal. unfold Float64.round_half_even.
  rewrite Z2Pos.id by done.
  destruct (0 <=? Z.log2 n - 52) eqn:E.
  - replace (Z.log2 n - 52) with 0 by lia. replace (52 - Z.log2 n) with 0 by lia. lia.
  - cbn zeta. replace (- (Z.log2 n - 52)) with (52 - Z.log2 n) by lia.
    assert (0 < 2 ^ (52 - Z.log2 n)) as Hd by (apply Z.pow_pos_nonneg; lia).
    rewrite Z.mod_mul, Z.div_mul by lia.
    replace (2 * 0 <? 2 ^ (52 - Z.log2 n)) with true by lia. done.
Qed.

(** The product of two canonical forms is the canonical form of the
    product, as long as it is below [2^53]. *)
Lemma mul_canon (a b : Z) :
  0 < a → 0 < b → a * b < 2 ^ 53 → Float64.mul (canon a) (canon b) = canon (a * b).
Proof.
  intros Ha Hb Hab.
  assert (a < 2 ^ 53 ∧ b < 2 ^ 53) as [Ha' Hb'] by nia.
  destruct (log2_canon a (conj Ha Ha')) as (Hla & Hpa & Hla2).
  destruct (log2_canon b (conj Hb Hb')) as (Hlb & Hpb & Hlb2).
  assert (0 < a * b) as Hp by nia.
  destruct (log2_canon (a * b) (conj Hp Hab)) as (Hlab & Hpab & Hlab2).
  unfold Float64.mul, canon, SFmul. cbn [xorb].
  set (ka := 52 - Z.log2 a) in *. set (kb := 52 - Z.log2 b) in *.
  set (kab := 52 - Z.log2 (a * b)) in *.
  assert (Z.log2 a + Z.log2 b ≤ Z.log2 (a * b)) as Hlow by (apply Z.log2_mul_below; lia).
  assert (Zpos (Z.to_pos (a * 2 ^ ka) * Z.to_pos (b * 2 ^ kb))
          = (a * b * 2 ^ kab) * 2 ^ (ka + kb - kab)) as HM.
  { rewrite Pos2Z.inj_mul, !Z2Pos.id by done.
    rewrite <- (Z.mul_assoc (a * b)), <- Z.pow_add_r by lia.
    replace (kab + (ka + kb - kab)) with (ka + kb) by lia.
    rewrite Z.pow_add_r by lia. lia. }
  destruct (ka + kb - kab) as [|s|s] eqn:Es; [lia| |lia].
  destruct (a * b * 2 ^ kab) as [|m|m] eqn:Em; [lia| |lia].
  assert (iter_pos shr_1 s {| shr_m := Zpos m * 2 ^ Zpos s; shr_r := false; shr_s := false |}
          = {| shr_m := Zpos m; shr_r := false; shr_s := false |}) as Hshr.
  { rewrite iter_pos_nat, <- (positive_nat_Z s). by apply shr_1_exacto. }
  unfold binary_round_aux, shr_fexp, fexp, emin. cbn [Zdigits2 shr_record_of_loc].
  rewrite digits2_pos_log2, HM.
  rewrite Z.log2_mul_pow2 by lia. rewrite Hlab2.
  replace (Z.max (Zpos s + 52 + 1 + (Z.log2 a - 52 + (Z.log2 b - 52)) - 53)
                 (3 - 1024 - 53) - (Z.log2 a - 52 + (Z.log2 b - 52)))
    with (Zpos s) by lia.
  cbn [shr]. rewrite Hshr.
  cbn [loc_of_shr_record shr_m round_nearest_even Zdigits2].
  rewrite digits2_pos_log2, Hlab2.
  replace (Z.max (52 + 1 + (Z.log2 a - 52 + (Z.log2 b - 52) + Zpos s) - 53) (3 - 1024 - 53)
           - (Z.log2 a - 52 + (Z.log2 b - 52) + Zpos s)) with 0 by lia.
  cbn [shr shr_m].
  replace (Z.log2 a - 52 + (Z.log2 b - 52) + Zpos s <=? 1024 - 53) with true by lia.
  f_equal. lia.
Qed.

(** ** Text of numbers *)

Lemma digito_props (c : ascii) :
  PyTxt.isdigit c = true →
  Py.isspace c = false ∧ PyTxt.lower_c c = c
  ∧ Ascii.eqb c "h" = false ∧ Ascii.eqb c "m" = false
  ∧ Ascii.eqb c "." = false ∧ Ascii.eqb c "," = false
  ∧ Ascii.eqb c "-" = false ∧ Ascii.eqb c "+" = false
  ∧ Ascii.eqb c "i" = false ∧ Ascii.eqb c "n" = false.
Proof.
  destruct c as [[] [] [] [] [] [] [] []]; vm_compute; intros H;
    first [discriminate H | repeat split].
Qed.

Lemma list_ascii_of_string_app (s1 s2 : string) :
  list_ascii_of_string (s1 ++ s2) = list_ascii_of_string s1 ++ list_ascii_of_string s2.
Proof. induction s1 as [|c s1 IH]; simpl; [done|]. by rewrite IH. Qed.

Lemma int_of_digits_snoc (d : list ascii) (c : ascii) :
  PyTxt.int_of_digits (d ++ [c])
  = 10 * PyTxt.int_of_digits d + Z.of_nat (nat_of_ascii c - 48).
Proof. unfold PyTxt.int_of_digits. by rewrite fold_left_app. Qed.

Lemma pretty_N_char_digito (d : N) :
  (d < 10)%N →
  PyTxt.isdigit (pretty_N_char d) = true
  ∧ Z.of_nat (nat_of_ascii (pretty_N_char d) - 48) = Z.of_N d.
Proof.
  intros Hd.
  assert (d = 0 ∨ d = 1 ∨ d = 2 ∨ d = 3 ∨ d = 4 ∨ d = 5 ∨ d = 6 ∨ d = 7 ∨ d = 8 ∨ d = 9)%N
    as Hc by lia.
  destruct Hc as [->|[->|[->|[->|[->|[->|[->|[->|[->| ->]]]]]]]]]; by vm_compute.
Qed.

Lemma pretty_N_go_digitos (x : N) (s : string) :
  ∃ d, list_ascii_of_string (pretty_N_go x s) = d ++ list_ascii_of_string s
       ∧ Forall (λ c, PyTxt.isdigit c = true) d
       ∧ PyTxt.int_of_digits d = Z.of_N x
       ∧ ((0 < x)%N → d ≠ []).
Proof.
  revert s. induction (N.lt_wf_0 x) as [x _ IH]; intros s.
  destruct (decide (0 < x)%N) as [Hx|Hx].
  - rewrite pretty_N_go_step by done.
    destruct (IH (x `div` 10)%N (N.div_lt x 10 Hx eq_refl)
                 (String (pretty_N_char (x `mod` 10)) s)) as (d & Hd & Hf & Hv & _).
    destruct (pretty_N_char_digito (x `mod` 10)) as [Hc1 Hc2].
    { apply N.mod_lt. lia. }
    exists (d ++ [pretty_N_char (x `mod` 10)]). split_and!.
    + rewrite Hd. simpl. by rewrite <- app_assoc.
    + apply Forall_app. split; [done|]. by constructor.
    + rewrite int_of_digits_snoc, Hv, Hc2.
      rewrite (N.div_mod x 10) at 3 by lia. lia.
    + intros _. by destruct d.
  - assert (x = 0%N) as -> by lia. exists []. rewrite pretty_N_go_0.
    split_and!; [done|done|done|lia].
Qed.

Lemma str_int_digitos (n : Z) : 0 ≤ n → digitos (list_ascii_of_string (str_int n)) n.
Proof.
  intros Hn. unfold str_int, pretty, pretty_Z.
  destruct n as [|p|p]; [|  |lia].
  { split_and!; [done|by repeat constructor|done]. }
  unfold pretty, pretty_positive, pretty, pretty_N.
  rewrite decide_False by done.
  destruct (pretty_N_go_digitos (N.pos p) "") as (d & Hd & Hf & Hv & Hne).
  rewrite Hd. simpl. rewrite app_nil_r. split_and!; [by apply Hne|done|by rewrite Hv].
Qed.

Lemma dois_digitos_digitos (mins : Z) :
  0 ≤ mins → digitos (list_ascii_of_string (dois_digitos mins)) mins.
Proof.
  intros Hm. destruct (str_int_digitos mins Hm) as (Hne & Hf & Hv).
  unfold dois_digitos. destruct (mins <? 10); [|done].
  rewrite list_ascii_of_string_app. simpl. split_and!; [done| |].
  - constructor; [done|exact Hf].
  - unfold PyTxt.int_of_digits in *. simpl. exact Hv.
Qed.

(** ** The parser on a text of hours and minutes *)

Lemma span_digits_run (d r : list ascii) (c : ascii) :
  Forall (λ c, PyTxt.isdigit c = true) d → PyTxt.isdigit c = false →
  PyTxt.span_digits (d ++ c :: r) = (d, c :: r).
Proof.
  intros Hd Hc. induction Hd as [|x d Hx Hd IH]; simpl.
  - by rewrite Hc.
  - by rewrite Hx, IH.
Qed.

Lemma span_digits_all (d : list ascii) :
  Forall (λ c, PyTxt.isdigit c = true) d → PyTxt.span_digits d = (d, []).
Proof.
  intros Hd. induction Hd as [|x d Hx Hd IH]; simpl; [done|]. by rewrite Hx, IH.
Qed.

(** A byte of ASCII begins no blank character of several bytes and ends
    none. *)
Lemma ascii_sem_branco (c : ascii) :
  (nat_of_ascii c < 128)%nat →
  (∀ b, Py.isspace2 c b = false) ∧ (∀ b, Py.isspace2 b c = false)
  ∧ (∀ b d, Py.isspace3 c b d = false) ∧ (∀ b d, Py.isspace3 d b c = false).
Proof.
  intros Hc.
  assert (∀ k, (128 ≤ k)%nat → (nat_of_ascii c =? k)%nat = false) as He.
  { intros k Hk. apply Nat.eqb_neq. lia. }
  assert ((128 <=? nat_of_ascii c)%nat = false) as Hl by (apply Nat.leb_gt; lia).
  split_and!; intros; unfold Py.isspace2, Py.isspace3; cbn zeta;
    rewrite ?He, ?Hl by lia;
    repeat match goal with
           | |- context [(?x =? ?y)%nat] => destruct (x =? y)%nat
           | |- context [(?x <=? ?y)%nat] => destruct (x <=? y)%nat
           end; reflexivity.
Qed.

Lemma lstrip_com_fica (um : ascii → bool) (dois : ascii → ascii → bool)
    (tres : ascii → ascii → ascii → bool) (c : ascii) (l : list ascii) :
  um c = false → (∀ b, dois c b = false) → (∀ b d, tres c b d = false) →
  Py.lstrip_com um dois tres (c :: l) = c :: l.
Proof.
  intros H1 H2 H3. cbn [Py.lstrip_com]. rewrite H1.
  destruct l as [|b [|d l]]; [done|by rewrite H2|by rewrite H2, H3].
Qed.

(** A text that begins and ends with bytes of ASCII that are not blank is
    its own strip. *)
Lemma strip_com_fica (um : ascii → bool) (l : list ascii) :
  (∀ c, head l = Some c → um c = false ∧ (nat_of_ascii c < 128)%nat) →
  (∀ z, head (rev l) = Some z → um z = false ∧ (nat_of_ascii z < 128)%nat) →
  rev (Py.lstrip_com um (λ b c, Py.isspace2 c b) (λ d b c, Py.isspace3 c b d)
         (rev (Py.lstrip_com um Py.isspace2 Py.isspace3 l))) = l.
Proof.
  intros H1 H2.
  assert (Py.lstrip_com um Py.isspace2 Py.isspace3 l = l) as ->.
  { destruct l as [|c l]; [done|]. destruct (H1 c eq_refl) as [Hc Hn].
    destruct (ascii_sem_branco c Hn) as (A & _ & B & _). by apply lstrip_com_fica. }
  assert (Py.lstrip_com um (λ b c, Py.isspace2 c b) (λ d b c, Py.isspace3 c b d) (rev l)
          = rev l) as ->.
  { destruct (rev l) as [|z r]; [done|]. destruct (H2 z eq_refl) as [Hz Hn].
    destruct (ascii_sem_branco z Hn) as (_ & A & _ & B).
    apply lstrip_com_fica; [done|intros b; apply A|intros b d; apply B]. }
  apply rev_involutive.
Qed.

Lemma digito_ascii (c : ascii) :
  PyTxt.isdigit c = true →
  Py.isspace c = false ∧ PyTxt.isspace_c c = false ∧ (nat_of_ascii c < 128)%nat.
Proof.
  unfold PyTxt.isdigit, Py.isspace, PyTxt.isspace_c. cbn zeta.
  intros [H1 H2]%andb_true_iff. apply Nat.leb_le in H1, H2.
  split_and!; [| |lia].
  - apply orb_false_iff. split; apply andb_false_iff; right; apply Nat.leb_gt; lia.
  - apply orb_false_iff. split; [apply andb_false_iff; right; apply Nat.leb_gt; lia|].
    apply Nat.eqb_neq. lia.
Qed.

Lemma lstrip_l_digitos (d r : list ascii) :
  d ≠ [] → Forall (λ c, PyTxt.isdigit c = true) d → Py.lstrip_l (d ++ r) = d ++ r.
Proof.
  intros Hne Hd. destruct Hd as [|x d Hx Hd]; [done|].
  destruct (digito_ascii x Hx) as (Hs & _ & Hn).
  destruct (ascii_sem_branco x Hn) as (A & _ & B & _).
  by apply lstrip_com_fica.
Qed.

Lemma lstrip_l_letra (c : ascii) (l : list ascii) :
  Py.isspace c = false → (nat_of_ascii c < 128)%nat → Py.lstrip_l (c :: l) = c :: l.
Proof.
  intros Hs Hn. destruct (ascii_sem_branco c Hn) as (A & _ & B & _).
  by apply lstrip_com_fica.
Qed.

Lemma strip_l_sem_brancos (l : list ascii) (a z : ascii) (meio : list ascii) :
  l = a :: meio ++ [z] →
  Py.isspace a = false → (nat_of_ascii a < 128)%nat →
  Py.isspace z = false → (nat_of_ascii z < 128)%nat →
  Py.strip_l l = l.
Proof.
  intros -> Ha Hna Hz Hnz. apply (strip_com_fica Py.isspace).
  - by intros c [= <-].
  - change (a :: meio ++ [z]) with ([a] ++ meio ++ [z]).
    rewrite !rev_app_distr. by intros c [= <-].
Qed.

Lemma digitos_extremos (um : ascii → bool) (d : list ascii) :
  (∀ c, PyTxt.isdigit c = true → um c = false) →
  Forall (λ c, PyTxt.isdigit c = true) d →
  (∀ c, head d = Some c → um c = false ∧ (nat_of_ascii c < 128)%nat)
  ∧ (∀ z, head (rev d) = Some z → um z = false ∧ (nat_of_ascii z < 128)%nat).
Proof.
  intros Hu Hd.
  assert (∀ l, Forall (λ c, PyTxt.isdigit c = true) l →
               ∀ c, head l = Some c → um c = false ∧ (nat_of_ascii c < 128)%nat) as H.
  { intros l Hl c Hc. destruct Hl as [|x l Hx Hl]; [done|]. injection Hc as <-.
    split; [by apply Hu|]. by destruct (digito_ascii x Hx) as (_ & _ & ?). }
  split; apply H; [done|]. by apply Forall_rev.
Qed.

Lemma strip_l_digitos (d : list ascii) :
  Forall (λ c, PyTxt.isdigit c = true) d → Py.strip_l d = d.
Proof.
  intros Hd.
  destruct (digitos_extremos Py.isspace d) as [H1 H2]; [|done|].
  { intros c Hc. by destruct (digito_ascii c Hc). }
  by apply (strip_com_fica Py.isspace).
Qed.

Lemma float_strip_digitos (d : list ascii) :
  Forall (λ c, PyTxt.isdigit c = true) d → PyTxt.float_strip d = d.
Proof.
  intros Hd.
  destruct (digitos_extremos PyTxt.isspace_c d) as [H1 H2]; [|done|].
  { intros c Hc. by destruct (digito_ascii c Hc) as (_ & ? & _). }
  by apply (strip_com_fica PyTxt.isspace_c).
Qed.

Lemma map_lower_digitos (d : list ascii) :
  Forall (λ c, PyTxt.isdigit c = true) d → map PyTxt.lower_c d = d.
Proof.
  intros Hd. induction Hd as [|x d Hx Hd IH]; simpl; [done|].
  destruct (digito_props x Hx) as (_ & -> & _). by rewrite IH.
Qed.

Lemma map_replace_digitos (d : list ascii) :
  Forall (λ c, PyTxt.isdigit c = true) d →
  map (λ c, if Ascii.eqb c "," then "."%char else c) d = d.
Proof.
  intros Hd. induction Hd as [|x d Hx Hd IH]; simpl; [done|].
  destruct (digito_props x Hx) as (_ & _ & _ & _ & _ & -> & _). by rewrite IH.
Qed.

Lemma digitpart_cont_digitos (d : list ascii) :
  Forall (λ c, PyTxt.isdigit c = true) d → PyTxt.digitpart_cont d = (d, []).
Proof.
  intros Hd. induction Hd as [|x d Hx Hd IH]; simpl; [done|]. by rewrite Hx, IH.
Qed.

Lemma float_digitos (d : list ascii) (n : Z) :
  digitos d n →
  PyTxt.float (string_of_list_ascii d) = Retorna (Float64.of_decimal false n 0).
Proof.
  intros (Hne & Hd & Hv). unfold PyTxt.float.
  rewrite list_ascii_of_string_of_list_ascii, float_strip_digitos by done.
  destruct d as [|c d]; [done|].
  apply Forall_cons in Hd as [Hc Hd].
  destruct (digito_props c Hc) as (_ & Hl & _ & _ & _ & _ & Hm & Hp & Hi & Hn).
  unfold PyTxt.sign. rewrite Hm, Hp. cbn [map string_of_list_ascii]. rewrite Hl.
  cbn [String.eqb]. rewrite Hi, Hn. cbn [orb].
  unfold PyTxt.digitpart. rewrite Hc, digitpart_cont_digitos by done.
  cbn [app PyTxt.exponent List.length]. rewrite app_nil_r.
  by rewrite Hv.
Qed.

Lemma of_decimal_inteiro (n : Z) :
  0 < n < 2 ^ 53 → Float64.of_decimal false n 0 = canon n.
Proof.
  intros Hn. rewrite <- of_int_canon by done. unfold Float64.of_decimal, Float64.of_int.
  destruct n as [|p|p]; [lia| |lia].
  cbn [Z.leb Z.compare cond_Zopp]. by rewrite Z.pow_0_r, Z.mul_1_r.
Qed.

Lemma round_of_decimal (n : Z) :
  0 ≤ n < 2 ^ 53 → Float64.round (Float64.of_decimal false n 0) = Retorna n.
Proof.
  intros Hn. destruct (decide (n = 0)) as [->|Hne]; [done|].
  rewrite of_decimal_inteiro by lia. apply round_canon. lia.
Qed.

Lemma round_horas (h : Z) :
  0 ≤ h → 60 * h < 2 ^ 53 →
  Float64.round (Float64.mul (Float64.of_decimal false h 0) sessenta) = Retorna (60 * h).
Proof.
  intros Hh Hb. assert (sessenta = canon 60) as -> by (by vm_compute).
  destruct (decide (h = 0)) as [->|Hne]; [done|].
  rewrite of_decimal_inteiro by lia. rewrite mul_canon by lia.
  rewrite round_canon by lia. f_equal. lia.
Qed.

(** The two searches on [d1 ++ "h" :: d2 ++ ["m"]]. *)
Lemma re_match_h_horas (d1 r : list ascii) :
  d1 ≠ [] → Forall (λ c, PyTxt.isdigit c = true) d1 →
  re_search re_match_h (d1 ++ "h"%char :: r) = Some d1.
Proof.
  intros Hne Hd.
  assert (re_match_h (d1 ++ "h"%char :: r) = Some d1) as H.
  { unfold re_match_h. rewrite span_digits_run by done.
    destruct d1 as [|c d1]; [done|]. cbn -[Py.lstrip_l].
    by rewrite lstrip_l_letra by (done || by apply Nat.ltb_lt). }
  destruct d1 as [|c d1]; [done|]. cbn [app re_search] in *. by rewrite H.
Qed.

Lemma re_match_m_minutos (d1 d2 : list ascii) :
  Forall (λ c, PyTxt.isdigit c = true) d1 →
  d2 ≠ [] → Forall (λ c, PyTxt.isdigit c = true) d2 →
  re_search re_match_m (d1 ++ "h"%char :: d2 ++ ["m"%char]) = Some d2.
Proof.
  intros Hd1 Hne Hd2.
  assert (re_search re_match_m (d2 ++ ["m"%char]) = Some d2) as H2.
  { assert (re_match_m (d2 ++ ["m"%char]) = Some d2) as H.
    { unfold re_match_m. rewrite span_digits_run by done.
      rewrite lstrip_l_letra by (done || by apply Nat.ltb_lt). by destruct d2. }
    destruct d2 as [|c d2]; [done|]. cbn [app re_search] in *. by rewrite H. }
  induction Hd1 as [|c d1 Hc Hd1 IH].
  - cbn [app re_search]. unfold re_match_m at 1. cbn [PyTxt.span_digits].
    change (PyTxt.isdigit "h") with false. cbn iota. exact H2.
  - cbn [app re_search].
    assert (re_match_m (c :: d1 ++ "h"%char :: d2 ++ ["m"%char]) = None) as ->.
    { unfold re_match_m.
      change (c :: d1 ++ "h"%char :: d2 ++ ["m"%char])
        with ((c :: d1) ++ "h"%char :: d2 ++ ["m"%char]).
      rewrite span_digits_run by (by constructor || done).
      by rewrite lstrip_l_letra by (done || by apply Nat.ltb_lt). }
    exact IH.
Qed.

(** The parser on a text [<h>h<mm>m] of two runs of digits. *)
Lemma parse_horas_minutos (d1 d2 : list ascii) (h m : Z) :
  digitos d1 h → digitos d2 m → 0 ≤ h → 0 ≤ m → 60 * h < 2 ^ 53 →
  _parse_duracao_para_minutos
    (Some (string_of_list_ascii (d1 ++ "h"%char :: d2 ++ ["m"%char])))
  = Retorna (60 * h + m).
Proof.
  intros (Hne1 & Hd1 & Hv1) (Hne2 & Hd2 & Hv2) Hh Hm Hb.
  unfold _parse_duracao_para_minutos.
  assert (Py.strip (string_of_list_ascii (d1 ++ "h"%char :: d2 ++ ["m"%char]))
          = string_of_list_ascii (d1 ++ "h"%char :: d2 ++ ["m"%char])) as ->.
  { unfold Py.strip. rewrite list_ascii_of_string_of_list_ascii. f_equal.
    destruct d1 as [|c d1]; [done|]. apply Forall_cons in Hd1 as [Hc Hd1].
    apply (strip_l_sem_brancos _ c "m"%char (d1 ++ "h"%char :: d2)).
    - cbn [app]. by rewrite <- app_assoc.
    - by destruct (digito_ascii c Hc) as (-> & _).
    - by destruct (digito_ascii c Hc) as (_ & _ & ?).
    - done.
    - by apply Nat.ltb_lt. }
  assert (Py.truthy (string_of_list_ascii (d1 ++ "h"%char :: d2 ++ ["m"%char])) = true) as ->.
  { by destruct d1. }
  cbn [negb].
  assert (list_ascii_of_string
            (PyTxt.lower (string_of_list_ascii (d1 ++ "h"%char :: d2 ++ ["m"%char])))
          = d1 ++ "h"%char :: d2 ++ ["m"%char]) as ->.
  { unfold PyTxt.lower. rewrite !list_ascii_of_string_of_list_ascii.
    rewrite map_app. cbn [map]. rewrite map_app. cbn [map].
    by rewrite !map_lower_digitos. }
  rewrite re_match_h_horas, re_match_m_minutos by done.
  assert (PyTxt.replace_c "," "." (string_of_list_ascii d1) = string_of_list_ascii d1) as ->.
  { unfold PyTxt.replace_c. rewrite list_ascii_of_string_of_list_ascii.
    by rewrite map_replace_digitos. }
  rewrite (float_digitos d1 h) by done. cbn [except_ValueError mbind Resultado_bind].
  rewrite round_horas by done. rewrite Hv2. cbn [mbind Resultado_bind]. f_equal. lia.
Qed.

(** A stored integer is read back from its text. *)
Lemma ler_inteiro (n : Z) :
  0 ≤ n < 2 ^ 53 → _parse_duracao_para_minutos (Some (str_int n)) = Retorna n.
Proof.
  intros Hn. destruct (str_int_digitos n (proj1 Hn)) as (Hne & Hd & Hv).
  rewrite <- (string_of_list_ascii_of_string (str_int n)).
  set (d := list_ascii_of_string (str_int n)) in *.
  unfold _parse_duracao_para_minutos.
  assert (Py.strip (string_of_list_ascii d) = string_of_list_ascii d) as ->.
  { unfold Py.strip. by rewrite list_ascii_of_string_of_list_ascii, strip_l_digitos. }
  assert (Py.truthy (string_of_list_ascii d) = true) as -> by (by destruct d).
  cbn [negb].
  assert (list_ascii_of_string (PyTxt.lower (string_of_list_ascii d)) = d) as ->.
  { unfold PyTxt.lower. rewrite !list_ascii_of_string_of_list_ascii.
    by rewrite map_lower_digitos. }
  assert (∀ (f : list ascii → option (list ascii)),
            (∀ l, l ≠ [] → Forall (λ c, PyTxt.isdigit c = true) l → f l = None) →
            f [] = None → re_search f d = None) as Hs.
  { intros f Hf H0. clear Hv Hne. induction Hd as [|c l Hc Hl IH]; simpl.
    - by rewrite H0.
    - rewrite Hf by (done || by constructor). exact IH. }
  rewrite !Hs.
  - assert (PyTxt.replace_c "," "." (string_of_list_ascii d) = string_of_list_ascii d) as ->.
    { unfold PyTxt.replace_c. rewrite list_ascii_of_string_of_list_ascii.
      by rewrite map_replace_digitos. }
    assert (PyTxt.contains_c "." (string_of_list_ascii d) = false) as ->.
    { unfold PyTxt.contains_c. rewrite list_ascii_of_string_of_list_ascii.
      clear Hv Hne Hs. induction Hd as [|c l Hc Hl IH]; cbn [existsb]; [done|].
      destruct (digito_props c Hc) as (_ & _ & _ & _ & Hp & _).
      rewrite Ascii.eqb_sym, Hp. exact IH. }
    rewrite (float_digitos d n) by done. cbn [mbind Resultado_bind].
    rewrite round_of_decimal by done. cbn [except_ValueError mbind Resultado_bind].
    f_equal. lia.
  - intros l Hl Hf. unfold re_match_m. rewrite span_digits_all by done. by destruct l.
  - done.
  - intros l Hl Hf. unfold re_match_h. rewrite span_digits_all by done. by destruct l.
  - done.
Qed.

(** X17. Round trip of the duration text: for a number of minutes [n]
    with [0 <= n < 2^53], [_parse_duracao_para_minutos] applied to the text
    [_format_minutos(n)] (such as [2h05m]) returns [n] itself: the hours
    pass through [float] and [round] without loss, and the two digits after
    the [h] are read as the minutes. *)
Theorem formatar_e_ler (n : Z) :
  0 ≤ n < 2 ^ 53 → _parse_duracao_para_minutos (Some (_format_minutos n)) = Retorna n.
Proof.
  intros Hn. unfold _format_minutos. cbn zeta.
  assert (0 ≤ n / 60) as Hh by (apply Z.div_pos; lia).
  assert (0 ≤ n mod 60 < 60) as Hm by (apply Z.mod_pos_bound; lia).
  assert (n = 60 * (n / 60) + n mod 60) as Hdiv by (apply Z.div_mod; lia).
  pose proof (str_int_digitos (n / 60) Hh) as H1.
  pose proof (dois_digitos_digitos (n mod 60) (proj1 Hm)) as H2.
  rewrite <- (string_of_list_ascii_of_string (str_int (n / 60) ++ "h" ++ dois_digitos (n mod 60) ++ "m")).
  rewrite !list_ascii_of_string_app. cbn [list_ascii_of_string app].
  rewrite (parse_horas_minutos _ _ (n / 60) (n mod 60)) by (done || lia).
  by rewrite <- Hdiv.
Qed.

(** ** The total of a ledger *)

Lemma total_de_tempos_soma (tempos : Tempos) :
  tempos_exatos tempos → total_de_tempos tempos = Retorna (soma_dos_tempos tempos).
Proof.
  unfold tempos_exatos, total_de_tempos, soma_dos_tempos.
  induction tempos as [|k v m Hk Hf IH] using map_first_key_ind.
  - intros _. by rewrite !map_fold_empty.
  - intros [Hv Hm]%map_Forall_insert; [|done].
    rewrite !map_fold_insert_first_key by done.
    rewrite (IH Hm). cbn [mbind Resultado_bind]. by rewrite ler_inteiro.
Qed.

Lemma total_de_ano_soma (ano_val : AnoDict) (t : Z) :
  Forall (λ e : string * RegistoEmpresa, tempos_exatos (meses e.2)) ano_val →
  foldl (λ acc e,
           total ← acc;
           n ← total_de_tempos (meses (snd e));
           Retorna (total + n + _extra_mes (snd e) * 12))
        (Retorna t) ano_val
  = Retorna (t + soma_do_ano ano_val).
Proof.
  intros H. revert t. induction H as [|e l He Hl IH]; intros t; simpl.
  - f_equal. lia.
  - rewrite (total_de_tempos_soma _ He). cbn [mbind Resultado_bind].
    rewrite IH. f_equal. unfold _extra_mes. lia.
Qed.

(** X18. The total of a ledger is exact: when every month of every company
    holds a number of minutes in [0, 2^53), [_total_minutos_timings] raises
    nothing and returns the sum, over the years and the companies, of the
    months plus twelve times the monthly extra, although every month value
    goes through its text, [float] and [round]. *)
Theorem _total_minutos_timings_soma (data : Ledger) :
  meses_exatos data → _total_minutos_timings data = Retorna (soma_do_ledger data).
Proof.
  unfold meses_exatos, _total_minutos_timings, soma_do_ledger.
  induction data as [|k a m Hk Hf IH] using map_first_key_ind.
  - intros _. by rewrite !map_fold_empty.
  - intros [Ha Hm]%map_Forall_insert; [|done].
    rewrite !map_fold_insert_first_key by done.
    rewrite (IH Hm). cbn [mbind Resultado_bind]. unfold total_de_ano.
    rewrite (total_de_ano_soma a 0 Ha). cbn [mbind Resultado_bind]. f_equal; lia.
Qed.

(** ** Lines of totals are not companies *)

Lemma pd_acumular_nomes (k : string) (n : Z) (d : list (string * Z)) :
  nome_aceite k → Forall nome_aceite d.*1 → Forall nome_aceite (pd_acumular k n d).*1.
Proof.
  intros Hk Hd. rewrite pd_acumular_keys. destruct (decide _); [done|].
  apply Forall_app. split; [done|]. by constructor.
Qed.

Lemma pd_upsert_nomes {V : Type} (k : string) (dflt : V) (f : V → V)
    (d : list (string * V)) :
  nome_aceite k → Forall nome_aceite d.*1 → Forall nome_aceite (pd_upsert k dflt f d).*1.
Proof.
  intros Hk Hd. rewrite pd_upsert_keys. destruct (decide _); [done|].
  apply Forall_app. split; [done|]. by constructor.
Qed.

Lemma pd_pop_nomes {V : Type} (k : string) (d : list (string * V)) :
  Forall nome_aceite d.*1 → Forall nome_aceite (pd_pop k d).*1.
Proof.
  rewrite !Forall_forall. intros Hd x Hx. apply Hd. by apply pd_pop_keys in Hx as [Hx _].
Qed.

Lemma finalizar_empresa_nomes (st : EstadoWorkload) :
  nomes_workload st → nomes_workload (finalizar_empresa st).
Proof.
  intros H. pose proof H as (H1 & H2 & H3 & H4). unfold finalizar_empresa.
  destruct (w_empresa_atual st) as [e|] eqn:Ee; [|exact H].
  destruct (negb (Py.truthy e)); [exact H|].
  destruct (w_registos_empresa st) as [|x l] eqn:E; unfold nomes_workload; simpl.
  - split_and!; [done|done| |done].
    destruct (0 <? _); [|done]. apply pd_acumular_nomes; [by apply H4|done].
  - split_and!; [|done|done|done]. apply Forall_app. by split.
Qed.

Lemma linha_workload_nomes (st st' : EstadoWorkload) (row : Linha) :
  nomes_workload st → linha_workload st row = Retorna st' → nomes_workload st'.
Proof.
  intros H Hl. unfold linha_workload in Hl.
  destruct row as [|[texto|] cauda]; [by injection Hl as <- | | by injection Hl as <-].
  destruct (Py.truthy (Py.strip texto)) eqn:Et; [|by injection Hl as <-].
  cbn [negb] in Hl.
  destruct (existsb _ _ || _is_linha_total (Py.strip texto)) eqn:El;
    [by injection Hl as <-|].
  apply orb_false_iff in El as [_ El].
  destruct (PyTxt.contains _ _); [by injection Hl as <-|].
  destruct (PyTxt.startswith _ _).
  - destruct (w_empresa_atual st) as [e|] eqn:Ee; [|by injection Hl as <-].
    destruct (negb (Py.truthy e)); [by injection Hl as <-|].
    destruct (_parse_tempo_para_minutos _) as [m|]; simpl in Hl; [|done].
    destruct (m <=? 0); [by injection Hl as <-|].
    destruct (_resolver_tecnico (Some (Py.strip texto))) as [t c].
    destruct H as (H1 & H2 & H3 & H4).
    assert (nome_aceite e) as He by (by apply H4).
    destruct (String.eqb t "desconhecido"); injection Hl as <-;
      unfold nomes_workload; simpl.
    + split_and!; [done|done|done|]. by intros e0 [= <-].
    + split_and!; [done| |done|by intros e0 [= <-]].
      apply Forall_app. split; [done|]. by constructor.
  - destruct (finalizar_empresa_nomes st H) as (H1 & H2 & H3 & H4).
    destruct (_parse_tempo_para_minutos _) as [m|]; simpl in Hl; [|done].
    injection Hl as <-. unfold nomes_workload. simpl. split_and!; [done|done|done|].
    by intros e [= <-].
Qed.

Lemma _processar_sheet_workload_nomes (sheet : Folha) (d d' : Diag)
    (rs : list Detalhe) (ts : list (string * Z)) :
  _processar_sheet_workload sheet d = Retorna (rs, ts, d') →
  Forall (λ x : Detalhe, nome_aceite x.1.1.1) rs ∧ Forall nome_aceite ts.*1.
Proof.
  unfold _processar_sheet_workload.
  destruct (para_cada linha_workload _ sheet) as [st|] eqn:E; simpl; [|done].
  intros [= <- <- <-].
  apply (para_cada_inv nomes_workload) in E.
  - by destruct (finalizar_empresa_nomes st E) as (H1 & _ & H3 & _).
  - intros s x s' Hs Hx. by eapply linha_workload_nomes.
  - unfold nomes_workload. simpl. split_and!; [done|done|done|]. by intros e.
Qed.

Lemma linha_colunas_nomes (ie it im : nat) (st st' : EstadoColunas) (row : Linha) :
  Forall nome_aceite (c_registos_por_empresa st).*1
  ∧ Forall nome_aceite (c_resumos_por_empresa st).*1 →
  linha_colunas ie it im st row = Retorna st' →
  Forall nome_aceite (c_registos_por_empresa st').*1
  ∧ Forall nome_aceite (c_resumos_por_empresa st').*1.
Proof.
  intros H Hl. unfold linha_colunas in Hl.
  destruct (row !! ie) as [ev|]; [|by injection Hl as <-].
  destruct (row !! it) as [tv|]; [|by injection Hl as <-].
  destruct (row !! im) as [mv|]; [|by injection Hl as <-].
  destruct ev as [ev|]; [|by injection Hl as <-].
  destruct (Py.truthy (Py.strip ev)) eqn:Ee; [|by injection Hl as <-].
  cbn [negb] in Hl.
  destruct (_is_linha_total (Py.strip ev)) eqn:Et; [by injection Hl as <-|].
  assert (nome_aceite (Py.strip ev)) as Hn by done.
  destruct (_parse_tempo_para_minutos _) as [m|]; simpl in Hl; [|done].
  destruct (m <=? 0); [by injection Hl as <-|].
  destruct H as [H1 H2].
  destruct (negb (Py.truthy _)).
  { injection Hl as <-. simpl. split; [done|]. by apply pd_acumular_nomes. }
  destruct (_resolver_tecnico _) as [t c].
  destruct (String.eqb t "desconhecido").
  { destruct (negb _); by injection Hl as <-. }
  injection Hl as <-. simpl. split; [|done]. by apply pd_upsert_nomes.
Qed.

Lemma fechar_empresa_nomes (st : EstadoFecho)
    (e : string * list (string * option string * Z)) :
  nome_aceite e.1 → nomes_fecho st → nomes_fecho (fechar_empresa st e).
Proof.
  destruct e as [empresa detalhes]. simpl. intros He (H1 & H2 & H3).
  unfold fechar_empresa, nomes_fecho.
  destruct (existsb _ detalhes); simpl; (split_and!; [|  |by apply pd_pop_nomes]).
  - apply Forall_app. split; [done|]. apply Forall_forall. intros x Hx.
    apply list_elem_of_omap in Hx as ([[t c] m] & Hin & Hx).
    destruct (_ && _); [|done]. by injection Hx as <-.
  - done.
  - done.
  - destruct (0 <? _); [|done]. by apply pd_acumular_nomes.
Qed.

Lemma _processar_sheet_colunas_nomes (sheet : Folha) (d d' : Diag)
    (rs : list Detalhe) (ts : list (string * Z)) :
  _processar_sheet_colunas sheet d = Retorna (Some (rs, ts, d')) →
  Forall (λ x : Detalhe, nome_aceite x.1.1.1) rs ∧ Forall nome_aceite ts.*1.
Proof.
  unfold _processar_sheet_colunas.
  destruct (procurar_cabecalho sheet _) as [[[[ie it] im] dados]|]; [|done].
  destruct (para_cada _ _ dados) as [st|] eqn:E; simpl; [|done].
  intros [= <- <- <-].
  apply (para_cada_inv
           (λ st, Forall nome_aceite (c_registos_por_empresa st).*1
                  ∧ Forall nome_aceite (c_resumos_por_empresa st).*1)) in E as [Hg Hr].
  - set (fe0 := {| f_resultados := []; f_totais_fallback := [];
                   f_resumos_por_empresa := c_resumos_por_empresa st;
                   f_diag := c_diag st |}).
    assert (nomes_fecho fe0) as H0 by (by unfold nomes_fecho).
    assert (nomes_fecho (foldl fechar_empresa fe0 (c_registos_por_empresa st)))
      as (F1 & F2 & F3).
    { clearbody fe0. revert fe0 H0.
      induction (c_registos_por_empresa st) as [|e g IH]; intros fe0 H0; simpl; [done|].
      apply Forall_cons in Hg as [He Hg]. apply IH; [done|].
      by apply fechar_empresa_nomes. }
    split; [done|]. apply Forall_forall. intros k Hk.
    apply totais_dos_resumos in Hk as [Hk|Hk].
    + rewrite Forall_forall in F2. by apply F2.
    + rewrite Forall_forall in F3. by apply F3.
  - intros s x s' Hs Hx. by eapply linha_colunas_nomes.
  - by split.
Qed.

Lemma registos_da_folha_nomes (rs : list Detalhe) (ts : list (string * Z)) :
  Forall (λ x : Detalhe, nome_aceite x.1.1.1) rs → Forall nome_aceite ts.*1 →
  Forall (λ r, nome_aceite (empresa r)) (registos_da_folha rs ts).
Proof.
  intros Hrs Hts. unfold registos_da_folha. apply Forall_app. split; apply Forall_forall.
  - intros r Hr. apply list_elem_of_omap in Hr as ([[[e t] c] m] & Hin & Hr).
    rewrite Forall_forall in Hrs. pose proof (Hrs _ Hin) as He. simpl in He.
    destruct (m <=? 0); [done|]. destruct (negb _); [done|]. by injection Hr as <-.
  - intros r Hr. apply list_elem_of_omap in Hr as ([e m] & Hin & Hr).
    rewrite Forall_forall in Hts.
    pose proof (Hts e (list_elem_of_fmap_2 fst _ _ Hin)) as He.
    destruct (m <=? 0); [done|]. destruct (negb _); [done|]. by injection Hr as <-.
Qed.

(** X19. Lines of totals are never imported as companies: every fact that
    [_importar_excel_timings] reads from a workbook, in either layout and
    whether it comes from a row of a technician or from a total without
    technician, carries a company name that is not empty and that
    [_is_linha_total] does not take for a line of totals (a text whose
    normalised form contains "total", "subtotal", "soma" or "sum"). *)
Theorem totais_nao_sao_empresas (folhas : list Folha) (rs : list Registo) (d : Diag) :
  _importar_excel_timings folhas = Retorna (rs, d) →
  ∀ r, r ∈ rs → empresa r ≠ "" ∧ _is_linha_total (empresa r) = false.
Proof.
  intros H.
  assert (Forall (λ r, nome_aceite (empresa r)) rs) as Hrs.
  { revert H. unfold _importar_excel_timings.
    apply (para_cada_inv
             (λ st : list Registo * Diag, Forall (λ r, nome_aceite (empresa r)) st.1));
      [|done].
    intros [rv d0] sh [rv' d1] H0 Hs. unfold folha_excel in Hs.
    destruct (_processar_sheet_colunas sh d0) as [[[[r1 t1] e1]|]|] eqn:E1; simpl in Hs.
    - injection Hs as <- <-. apply Forall_app. split; [done|].
      apply _processar_sheet_colunas_nomes in E1 as [? ?].
      by apply registos_da_folha_nomes.
    - destruct (_processar_sheet_workload sh d0) as [[[r2 t2] e2]|] eqn:E2; simpl in Hs;
        [|done].
      injection Hs as <- <-. apply Forall_app. split; [done|].
      apply _processar_sheet_workload_nomes in E2 as [? ?].
      by apply registos_da_folha_nomes.
    - done. }
  intros r Hr. rewrite Forall_forall in Hrs. destruct (Hrs r Hr) as [Ht Hl].
  split; [by apply truthy_true|done].
Qed.

(** ** The guard of the save in binary64 *)










(** ** The guarded save *)




End Programa.

(** * Worked examples

    The properties above at concrete inputs, with the normalisers rendered
    on Latin-1 text and [difflib]'s ratio computed. *)

(** C1 at a workbook of two sheets imported into a ledger that holds one
    deleted company. *)
Lemma importar_timings_idempotente_exemplo :
  Latin1._norm_empresa_forte "" = "" ∧
  (∀ ad : AnoDict, Exemplos.td0 !! str_int 2025 = Some ad → NoDup ad.*1) ∧
  ∃ importar r1,
    importar = importar_timings Latin1._norm_empresa_forte Latin1._norm_nome_forte
                 Latin1._normalize_header Exemplos.clientes 2025 3 Exemplos.ficheiros ∧
    r1 = importar Exemplos.td0 ∧
    importar (ledger_apos r1 Exemplos.td0) =
    match r1 with
    | Retorna (_, houve_alteracoes, relatorio) =>
        Retorna (ledger_apos r1 Exemplos.td0, houve_alteracoes, relatorio)
    | Levanta e => Levanta e
    end.
Proof.
  assert (∀ ad : AnoDict, Exemplos.td0 !! str_int 2025 = Some ad → NoDup ad.*1) as H.
  { intros ad. vm_compute. intros [= <-]. apply NoDup_singleton. }
  split; [reflexivity|]. split; [exact H|].
  eexists. eexists. split; [reflexivity|]. split; [reflexivity|].
  exact (importar_timings_idempotente Latin1._norm_empresa_forte eq_refl
           Latin1._norm_nome_forte Latin1._normalize_header Exemplos.clientes
           2025 3 Exemplos.ficheiros Exemplos.td0 H).
Defined.


(** The claim C2 as it was stated fails above [2^53]: the file totals
    [2^53 + 1] minutes and the ledger in memory [2^52], less than half of
    it, yet the guard, which halves the float [2^53], lets the save through
    and the file is overwritten. *)
Lemma guarda_acima_de_2_53 :
  TIMINGS_FILE Exemplos.p_grande = Some (JsonDe Exemplos.antigo_grande) ∧
  _total_minutos_timings Exemplos.antigo_grande = Retorna (2 ^ 53 + 1) ∧
  _total_minutos_timings (timings_dados Exemplos.p_grande) = Retorna (2 ^ 52) ∧
  0 < 2 ^ 53 + 1 ∧ 2 * 2 ^ 52 < 2 ^ 53 + 1 ∧
  _guardar_timings_para_ficheiro Exemplos.amb0 Exemplos.p_grande
  = (os_replace (escrever_tmp Exemplos.p_grande), Retorna true) ∧
  TIMINGS_FILE (os_replace (escrever_tmp Exemplos.p_grande))
  = Some (JsonDe Exemplos.novo_grande).
Proof.
  split_and!; [reflexivity|vm_compute; reflexivity|vm_compute; reflexivity|
               reflexivity|reflexivity|vm_compute; reflexivity|reflexivity].
Qed.


(** The claim C10 as it was stated fails for a total that no float holds:
    the file totals [12 * 2^1021] minutes (an extra of [2^1021]), the guard
    raises OverflowError while it halves it, and the request does not end
    with a refused save. *)
Lemma limpar_com_total_enorme :
  TIMINGS_FILE Exemplos.p_enorme = Some (JsonDe Exemplos.antigo_enorme) ∧
  _total_minutos_timings Exemplos.antigo_enorme = Retorna (12 * 2 ^ 1021) ∧
  0 < 12 * 2 ^ 1021 ∧
  (limpar_timings Exemplos.amb0 "APAGAR" Exemplos.p_enorme).2 = Levanta OverflowError.
Proof.
  split_and!; [reflexivity|vm_compute; reflexivity|reflexivity|vm_compute; reflexivity].
Qed.

(** C9 on the deleted company of the example ledger: thirty minutes bring
    it back. *)
Lemma reativacao_ao_importar_exemplo :
  Latin1._norm_empresa_forte "" = "" ∧
  ∃ ad rec,
    _adicionar_tempo_empresa Latin1._norm_nome_forte 2025 3 "Acme Lda" 30 None Exemplos.td0
      !! str_int 2025 = Some ad ∧
    pd_get "Acme Lda" ad = Some rec ∧ apagado rec = false ∧
    meses rec !! inl 3 = Some 75.
Proof.
  split; [reflexivity|].
  destruct (reativacao_ao_importar Latin1._norm_empresa_forte eq_refl
              Latin1._norm_nome_forte Latin1._normalize_header Exemplos.clientes)
    as (_ & H & _).
  destruct (H 2025 3 "Acme Lda" 30 None Exemplos.td0 ltac:(lia))
    as (ad & rec & H1 & H2 & H3 & H4).
  exists ad, rec. split; [exact H1|]. split; [exact H2|]. split; [exact H3|].
  rewrite H4. vm_compute. reflexivity.
Defined.
(** C8 (as the code has it) on a block whose inline total is 100 minutes,
    with a row of a known technician and a row of an unknown one: the known
    row is the only fact and the total goes to the ignored summaries. *)
Lemma bloco_do_layout_legacy_exemplo :
  let st :=
    {| w_registos := []; w_totais_fallback := []; w_empresa_atual := None;
       w_resumo_atual_min := 0; w_registos_empresa := []; w_diag := diag_vazio |} in
  let row_c := [Some "Acme Lda"; Some "100"] in
  let det := [[Some "    Pedro Fernandes"; Some "60"]; [Some "    Zed"; Some "30"]] in
  let ler := para_cada (linha_workload Latin1._norm_nome_forte Latin1._normalize_header) in
  ∃ st1,
    w_registos_empresa (finalizar_empresa st) = [] ∧
    linha_de_empresa Latin1._normalize_header row_c = Some ("Acme Lda", Some "100") ∧
    Forall (λ row, linha_de_empresa Latin1._normalize_header row = None) det ∧
    ler st (row_c :: det) = Retorna st1 ∧
    w_registos (finalizar_empresa st1) = [("Acme Lda", "canonico", Some "Pedro Fernandes", 60)] ∧
    w_totais_fallback (finalizar_empresa st1) = [] ∧
    resumos_ignorados_por_empresa (w_diag (finalizar_empresa st1)) = {[ "Acme Lda" := 100 ]}.
Proof.
  intros st row_c det ler.
  set (st1 := match ler st (row_c :: det) with
              | Retorna s => s
              | Levanta _ => st
              end).
  exists st1.
  assert (ler st (row_c :: det) = Retorna st1) as E by (vm_compute; reflexivity).
  assert (linha_de_empresa Latin1._normalize_header row_c = Some ("Acme Lda", Some "100")) as H2
    by (vm_compute; reflexivity).
  assert (Forall (λ row, linha_de_empresa Latin1._normalize_header row = None) det) as H3
    by (repeat (constructor; [vm_compute; reflexivity|]); constructor).
  split; [reflexivity|]. split; [exact H2|]. split; [exact H3|]. split; [exact E|].
  pose proof (bloco_do_layout_legacy Latin1._norm_nome_forte Latin1._normalize_header
                st st1 row_c det "Acme Lda" (Some "100") eq_refl H2 H3 E) as H.
  cbv zeta in H. destruct H as (resumo & R1 & R2 & R3).
  assert (resumo = 100) as -> by (vm_compute in R1; congruence).
  split; [rewrite R2; vm_compute; reflexivity|].
  vm_compute in R3. vm_compute. exact R3.
Defined.

(** C8, against the claim as stated: below the company Acme, whose inline
    total is 100 minutes, there is an indented row, of a name that is not a
    known technician.  The row gives no fact and goes to the invalid names;
    the inline total is not reported as an ignored summary, it becomes the
    fallback total of the company. *)
Lemma bloco_com_tecnico_desconhecido :
  _processar_sheet_workload Latin1._norm_nome_forte Latin1._normalize_header
    [[Some "Acme"; Some "100"]; [Some "    Zed"; Some "60"]] diag_vazio
  = Retorna ([], [("Acme", 100)],
             {| invalidos := {[ "Zed" := 60 ]};
                ignorados_por_empresa := {[ "Acme" := 60 ]};
                resumos_ignorados_por_empresa := ∅ |}).
Proof. vm_compute. reflexivity. Qed.

(** C5, against the claim as stated.  The name "AA B" has the relevant
    tokens AA and B; the keys "AA" and "AA ME" both have the single relevant
    token AA (ME is a stop token), so both are candidates with overlap 1,
    and their ratios are the same float.  The code chooses "AA ME", the
    longer key, and answers with its ledger entry.  Moreover the key
    "SOCIEDADE LDA" has no relevant token: its empty token set is included
    in that of any name, yet it is no candidate. *)
Lemma inclusao_prefere_chave_longa :
  ∃ idx idx' r,
    idx = _construir_indice_timings Latin1.normalizar_nome Exemplos.ano_inclusao ∧
    idx' = _construir_indice_timings Latin1.normalizar_nome Exemplos.ano_so_sufixos ∧
    candidatos_inclusao Difflib.ratio "AA B" idx = [("AA", r, 1%nat); ("AA ME", r, 1%nat)] ∧
    (String.length "AA" < String.length "AA ME")%nat ∧
    chave_escolhida (candidatos_inclusao Difflib.ratio "AA B" idx) = Some "AA ME" ∧
    match_timings Latin1.normalizar_nome Difflib.ratio PyTxt.upper "AA B" Exemplos.ano_inclusao
    = (Some (Exemplos.registo_de 2 false), "inclusao", Some "Aa, Me", []) ∧
    norm_keys idx' = ["SOCIEDADE LDA"; "BETA"] ∧
    tokens_relevantes "SOCIEDADE LDA" = [] ∧
    tokens_relevantes "ACME LDA" = ["ACME"] ∧
    candidatos_inclusao Difflib.ratio "ACME LDA" idx' = [].
Proof.
  eexists _, _, (S754_finite false 6004799503160661 (-53)).
  split; [reflexivity|]. split; [reflexivity|].
  split; [vm_compute; reflexivity|]. split; [vm_compute; lia|].
  split; [vm_compute; reflexivity|]. split; [vm_compute; reflexivity|].
  split; [vm_compute; reflexivity|]. split; [vm_compute; reflexivity|].
  split; vm_compute; reflexivity.
Qed.

(** C5 (as the code has it) at the same name and ledger. *)
Lemma inclusao_por_tokens_exemplo :
  ∃ idx,
    idx = _construir_indice_timings Latin1.normalizar_nome Exemplos.ano_inclusao ∧
    Latin1.normalizar_nome "" = "" ∧
    Forall (λ k, Float64.isnan (Difflib.ratio "AA B" k) = false) (norm_keys idx) ∧
    ∃ rec chosen,
      inclusao Difflib.ratio PyTxt.upper "AA B" "AA B" idx
      = Some (Some rec, "inclusao", Some chosen, []) ∧
      Latin1.normalizar_nome chosen = "AA ME" ∧
      (chosen, rec) ∈ Exemplos.ano_inclusao ∧ apagado rec = false.
Proof.
  eexists. split; [reflexivity|]. split; [vm_compute; reflexivity|].
  assert (Forall (λ k, Float64.isnan (Difflib.ratio "AA B" k) = false)
                 (norm_keys (_construir_indice_timings Latin1.normalizar_nome
                               Exemplos.ano_inclusao))) as H.
  { replace (norm_keys _) with ["AA"; "AA ME"] by (vm_compute; reflexivity).
    repeat (constructor; [vm_compute; reflexivity|]). constructor. }
  split; [exact H|].
  pose proof (inclusao_por_tokens Latin1.normalizar_nome eq_refl Difflib.ratio PyTxt.upper
                "AA B" "AA B" Exemplos.ano_inclusao H) as T.
  cbv zeta in T. destruct T as [_ T].
  destruct (chave_escolhida _) as [w|] eqn:E in T; [|by vm_compute in E].
  vm_compute in E. injection E as <-. exact (proj2 T).
Defined.

(** C6 at a name one letter away from the only close key: the key is
    accepted. *)
Lemma fuzzy_limitado_exemplo :
  ∃ idx,
    idx = _construir_indice_timings Latin1.normalizar_nome Exemplos.ano_fuzzy ∧
    Latin1.normalizar_nome "" = "" ∧
    Forall (λ k, Float64.isnan (Difflib.ratio "TRANSPORTES SILVA" k) = false) (norm_keys idx) ∧
    ∃ rec chosen,
      fuzzy Difflib.ratio PyTxt.upper "Transportes Silva" "TRANSPORTES SILVA" idx
      = (Some rec, "fuzzy", Some chosen, []) ∧
      Latin1.normalizar_nome chosen = "TRANSPORTES SILVO" ∧
      (chosen, rec) ∈ Exemplos.ano_fuzzy ∧ apagado rec = false.
Proof.
  eexists. split; [reflexivity|]. split; [vm_compute; reflexivity|].
  assert (Forall (λ k, Float64.isnan (Difflib.ratio "TRANSPORTES SILVA" k) = false)
                 (norm_keys (_construir_indice_timings Latin1.normalizar_nome
                               Exemplos.ano_fuzzy))) as H.
  { replace (norm_keys _) with ["TRANSPORTES SILVO"; "BETA"] by (vm_compute; reflexivity).
    repeat (constructor; [vm_compute; reflexivity|]). constructor. }
  split; [exact H|].
  pose proof (fuzzy_limitado Latin1.normalizar_nome eq_refl Difflib.ratio PyTxt.upper
                "Transportes Silva" "TRANSPORTES SILVA" Exemplos.ano_fuzzy H) as T.
  cbv zeta in T. destruct T as (_ & _ & _ & T).
  assert (ratios_fuzzy Difflib.ratio "TRANSPORTES SILVA"
            (_construir_indice_timings Latin1.normalizar_nome Exemplos.ano_fuzzy)
          = [("TRANSPORTES SILVO", S754_finite false 8477364004462110 (-53))]) as E
    by (vm_compute; reflexivity).
  rewrite E in T.
  assert (Float64.leb limiar_092 (S754_finite false 8477364004462110 (-53)) = true) as Eb
    by (vm_compute; reflexivity).
  rewrite Eb in T. exact T.
Defined.

(** Two keys at the same distance from the name: no match, and both are
    suggested with their scores. *)
Lemma fuzzy_empate_exemplo :
  match_timings Latin1.normalizar_nome Difflib.ratio PyTxt.upper "Transportes Silva"
                Exemplos.ano_empate
  = (None, "none", None,
     [("Transportes Silvo", S754_finite false 8477364004462110 (-53));
      ("Transportes Silve", S754_finite false 8477364004462110 (-53))]).
Proof. vm_compute. reflexivity. Qed.

(** ** The further properties at concrete inputs *)

(** X2 at a name that differs from the ledger name in case and blanks. *)
Lemma match_timings_exato_exemplo :
  ∃ rec' chosen,
    match_timings Latin1.normalizar_nome Difflib.ratio PyTxt.upper " beta " Exemplos.ano_fuzzy
    = (Some rec', "exact", Some chosen, []) ∧
    Latin1.normalizar_nome chosen = Latin1.normalizar_nome (Py.strip " beta ") ∧
    (chosen, rec') ∈ Exemplos.ano_fuzzy ∧ apagado rec' = false.
Proof.
  apply (match_timings_exato Latin1.normalizar_nome eq_refl Difflib.ratio PyTxt.upper
           " beta " Exemplos.ano_fuzzy "Beta" (Exemplos.registo_de 1 false)).
  - apply list_elem_of_further, list_elem_of_here.
  - reflexivity.
  - vm_compute. reflexivity.
  - vm_compute. reflexivity.
Defined.

(** X4 at the first fact read from the two sheets of the example
    workbook. *)
Lemma factos_lidos_bem_formados_exemplo :
  ∃ rs d r,
    _importar_excel_timings Latin1._norm_empresa_forte Latin1._norm_nome_forte
      Latin1._normalize_header [Exemplos.folha1; Exemplos.folha2] = Retorna (rs, d) ∧
    r ∈ rs ∧
    empresa r = "Acme Lda" ∧ minutos r = 60 ∧
    0 < minutos r ∧ empresa_norm r = Latin1._norm_empresa_forte (empresa r) ∧
    empresa_norm r ≠ "" ∧
    ((tipo r = "canonico"
      ∧ ∃ c, canonico r = Some c ∧ c ≠ "" ∧ c ∈ registos_de_aliases.*1)
     ∨ (tipo r = "armando" ∧ canonico r = None)
     ∨ (tipo r = "resumo" ∧ canonico r = None)) ∧
    is_Some (identidade Latin1._norm_nome_forte 3 r).
Proof.
  set (res := _importar_excel_timings Latin1._norm_empresa_forte Latin1._norm_nome_forte
                Latin1._normalize_header [Exemplos.folha1; Exemplos.folha2]).
  set (rs := match res with Retorna (rs, _) => rs | Levanta _ => [] end).
  set (d := match res with Retorna (_, d) => d | Levanta _ => diag_vazio end).
  set (r := {| empresa := "Acme Lda"; empresa_norm := "acme"; tipo := "canonico";
               canonico := Some "Pedro Fernandes"; minutos := 60 |}).
  assert (res = Retorna (rs, d)) as E by (vm_compute; reflexivity).
  assert (r ∈ rs) as Hr.
  { replace rs with (r :: tail rs) by (vm_compute; reflexivity). apply list_elem_of_here. }
  exists rs, d, r. split; [exact E|]. split; [exact Hr|].
  split; [reflexivity|]. split; [reflexivity|].
  exact (factos_lidos_bem_formados Latin1._norm_empresa_forte Latin1._norm_nome_forte
           Latin1._normalize_header 3 _ rs d E r Hr).
Defined.

(** X5 at two uploads of the same sheet: the sixty minutes of the second
    are the deduplicated total. *)
Lemma deduplicacao_conserva_minutos_exemplo :
  ∃ lt ag,
    para_cada (ler_ficheiro Latin1._norm_empresa_forte Latin1._norm_nome_forte
                 Latin1._normalize_header 3)
              (lote_vazio, diag_vazio) ExemplosFormularios.ficheiros2 = Retorna (lt, ag) ∧
    total_minutos_deduplicados lt = 60 ∧
    ∃ rss : list (list Registo),
      Forall2 (λ folhas rs,
                 ∃ d, _importar_excel_timings Latin1._norm_empresa_forte
                        Latin1._norm_nome_forte Latin1._normalize_header folhas
                      = Retorna (rs, d))
              ExemplosFormularios.ficheiros2 rss
      ∧ minutos_de (List.concat rss)
        = minutos_de (registos_unicos lt) + total_minutos_deduplicados lt
      ∧ soma_de (duplicados_por_empresa lt) = total_minutos_deduplicados lt.
Proof.
  set (res := para_cada (ler_ficheiro Latin1._norm_empresa_forte Latin1._norm_nome_forte
                           Latin1._normalize_header 3)
                        (lote_vazio, diag_vazio) ExemplosFormularios.ficheiros2).
  set (lt := match res with Retorna (lt, _) => lt | Levanta _ => lote_vazio end).
  set (ag := match res with Retorna (_, ag) => ag | Levanta _ => diag_vazio end).
  assert (res = Retorna (lt, ag)) as E by (vm_compute; reflexivity).
  exists lt, ag. split; [exact E|]. split; [vm_compute; reflexivity|].
  exact (deduplicacao_conserva_minutos Latin1._norm_empresa_forte Latin1._norm_nome_forte
           Latin1._normalize_header 3 ExemplosFormularios.ficheiros2 lt ag E).
Defined.

(** X6 at the example workbook, imported for March 2025 into the ledger
    whose only company is deleted and holds 45 minutes in March. *)
Lemma importar_substitui_o_mes_exemplo :
  Latin1._norm_empresa_forte "" = "" ∧
  ∃ td' houve_alteracoes relatorio,
    importar_timings Latin1._norm_empresa_forte Latin1._norm_nome_forte
      Latin1._normalize_header Exemplos.clientes 2025 3 Exemplos.ficheiros Exemplos.td0
    = Retorna (td', houve_alteracoes, relatorio) ∧
    ∃ lt ag,
      para_cada (ler_ficheiro Latin1._norm_empresa_forte Latin1._norm_nome_forte
                   Latin1._normalize_header 3)
                (lote_vazio, diag_vazio) Exemplos.ficheiros = Retorna (lt, ag)
      ∧ (∀ y, y ≠ str_int 2025 → td' !! y = Exemplos.td0 !! y)
      ∧ ∀ k : string,
          let ad := default [] (Exemplos.td0 !! str_int 2025) in
          let ad' := default [] (td' !! str_int 2025) in
          match filter (λ r, nome_de (empresa_nome_para_inserir
                                        Latin1._norm_empresa_forte ad lt) r = k)
                       (registos_unicos lt) with
          | [] => pd_get k ad' = pd_get k ad
          | factos =>
              ∃ rec', pd_get k ad' = Some rec'
                ∧ minutos_do_mes 3 rec' = minutos_de factos
                ∧ apagado rec' = false
                ∧ meses rec' !! inr (str_int 3) = None
                ∧ extra_mensal rec' = default 0 (extra_mensal <$> pd_get k ad)
                ∧ ∀ key, key ≠ inl 3 → key ≠ inr (str_int 3) →
                         meses rec' !! key = (pd_get k ad ≫= λ rec, meses rec !! key)
          end.
Proof.
  split; [reflexivity|].
  set (res := importar_timings Latin1._norm_empresa_forte Latin1._norm_nome_forte
                Latin1._normalize_header Exemplos.clientes 2025 3 Exemplos.ficheiros
                Exemplos.td0).
  set (td' := match res with Retorna (td', _, _) => td' | Levanta _ => ∅ end).
  set (h := match res with Retorna (_, h, _) => h | Levanta _ => false end).
  set (rel := match res with Retorna (_, _, rel) => rel | Levanta _ => None end).
  assert (res = Retorna (td', h, rel)) as E by (vm_compute; reflexivity).
  exists td', h, rel. split; [exact E|].
  exact (importar_substitui_o_mes Latin1._norm_empresa_forte eq_refl Latin1._norm_nome_forte
           Latin1._normalize_header Exemplos.clientes 2025 3 Exemplos.ficheiros
           Exemplos.td0 td' h rel E).
Defined.

(** X7 at the same import. *)
Lemma importar_detalhe_por_tecnico_exemplo :
  Latin1._norm_empresa_forte "" = "" ∧
  ∃ td' relatorio,
    importar_timings Latin1._norm_empresa_forte Latin1._norm_nome_forte
      Latin1._normalize_header Exemplos.clientes 2025 3 Exemplos.ficheiros Exemplos.td0
    = Retorna (td', true, relatorio) ∧
    ∃ lt ag,
      para_cada (ler_ficheiro Latin1._norm_empresa_forte Latin1._norm_nome_forte
                   Latin1._normalize_header 3)
                (lote_vazio, diag_vazio) Exemplos.ficheiros = Retorna (lt, ag)
      ∧ ∀ (k : string) (r : Registo),
          let ad := default [] (Exemplos.td0 !! str_int 2025) in
          let ad' := default [] (td' !! str_int 2025) in
          let factos := filter (λ r, nome_de (empresa_nome_para_inserir
                                                Latin1._norm_empresa_forte ad lt) r = k)
                               (registos_unicos lt) in
          r ∈ factos →
          ∃ rec', pd_get k ad' = Some rec'
            ∧ ∀ T : string,
                minutos_do_tecnico 3 T rec'
                = minutos_de
                    (filter (λ r, falsy (tecnico_final_de Latin1._norm_empresa_forte
                                           Latin1._norm_nome_forte Exemplos.clientes r).1
                                  = false
                                  ∧ _canonical_tecnico_nome Latin1._norm_nome_forte
                                      (tecnico_final_de Latin1._norm_empresa_forte
                                         Latin1._norm_nome_forte Exemplos.clientes r).1 = T)
                            factos).
Proof.
  split; [reflexivity|].
  set (res := importar_timings Latin1._norm_empresa_forte Latin1._norm_nome_forte
                Latin1._normalize_header Exemplos.clientes 2025 3 Exemplos.ficheiros
                Exemplos.td0).
  set (td' := match res with Retorna (td', _, _) => td' | Levanta _ => ∅ end).
  set (rel := match res with Retorna (_, _, rel) => rel | Levanta _ => None end).
  assert (res = Retorna (td', true, rel)) as E by (vm_compute; reflexivity).
  exists td', rel. split; [exact E|].
  exact (importar_detalhe_por_tecnico Latin1._norm_empresa_forte eq_refl
           Latin1._norm_nome_forte Latin1._normalize_header Exemplos.clientes 2025 3
           Exemplos.ficheiros Exemplos.td0 td' rel E).
Defined.

(** X12 at a form that names Acme Lda twice: the field of its last row,
    two hours, is the extra. *)
Lemma guardar_timings_extras_grava_exemplo :
  let p' := (guardar_timings_extras Exemplos.amb0 2025 ExemplosFormularios.nomes
               ExemplosFormularios.campos ExemplosFormularios.p1).1 in
  (∃ td', guardar_timings_extras Exemplos.amb0 2025 ExemplosFormularios.nomes
            ExemplosFormularios.campos ExemplosFormularios.p1
          = _persistir_timings Exemplos.amb0 (com_dados ExemplosFormularios.p1 td'))
  ∧ ∃ rec', pd_get "Acme Lda" (default [] (timings_dados p' !! str_int 2025)) = Some rec'
            ∧ extra_mensal rec' = 120.
Proof.
  apply (guardar_timings_extras_grava Exemplos.amb0 2025 ExemplosFormularios.nomes
           ExemplosFormularios.campos ExemplosFormularios.p1 3 "Acme Lda" 120).
  - intros i x Hi _. destruct i as [|[|[|[|i]]]]; [eexists; vm_compute; reflexivity..|].
    discriminate Hi.
  - reflexivity.
  - reflexivity.
  - intros j Hj. destruct j as [|[|[|[|j]]]]; [lia..|]. discriminate.
  - vm_compute. reflexivity.
Defined.

(** X14 at the same form read as averages: Acme Lda, deleted and with an
    extra of 7 minutes, ends with 120 minutes in every month, the same
    extra, and is active again. *)
Lemma guardar_timings_media_grava_exemplo :
  let ad := default [] (timings_dados ExemplosFormularios.p1 !! str_int 2025) in
  let p' := (guardar_timings_media Exemplos.amb0 2025 ExemplosFormularios.nomes
               ExemplosFormularios.campos ExemplosFormularios.p1).1 in
  (∃ td', guardar_timings_media Exemplos.amb0 2025 ExemplosFormularios.nomes
            ExemplosFormularios.campos ExemplosFormularios.p1
          = _persistir_timings Exemplos.amb0 (com_dados ExemplosFormularios.p1 td'))
  ∧ pd_get "Acme Lda" (default [] (timings_dados p' !! str_int 2025))
    = Some {| meses := meses_todos 120;
              extra_mensal := default 0 (extra_mensal <$> pd_get "Acme Lda" ad);
              apagado := false; por_tecnico := Some ∅ |}.
Proof.
  apply (guardar_timings_media_grava Exemplos.amb0 2025 ExemplosFormularios.nomes
           ExemplosFormularios.campos ExemplosFormularios.p1 3 "Acme Lda" 120).
  - intros i x Hi _. destruct i as [|[|[|[|i]]]]; [eexists; vm_compute; reflexivity..|].
    discriminate Hi.
  - reflexivity.
  - reflexivity.
  - intros j Hj. destruct j as [|[|[|[|j]]]]; [lia..|]. discriminate.
  - vm_compute. reflexivity.
  - lia.
Defined.


(** X17 at two hours and five minutes. *)
Lemma formatar_e_ler_exemplo :
  _format_minutos 125 = "2h05m" ∧
  _parse_duracao_para_minutos (Some (_format_minutos 125)) = Retorna 125.
Proof.
  split; [vm_compute; reflexivity|]. apply (formatar_e_ler 125). lia.
Defined.

(** X18 at a ledger of one company: forty minutes in March and seven
    minutes of monthly extra. *)
Lemma _total_minutos_timings_soma_exemplo :
  meses_exatos ExemplosFormularios.td1 ∧
  soma_do_ledger ExemplosFormularios.td1 = 124 ∧
  _total_minutos_timings ExemplosFormularios.td1
  = Retorna (soma_do_ledger ExemplosFormularios.td1).
Proof.
  assert (meses_exatos ExemplosFormularios.td1) as H.
  { apply map_Forall_singleton. constructor; [|constructor].
    apply map_Forall_singleton. lia. }
  split; [exact H|]. split; [vm_compute; reflexivity|].
  exact (_total_minutos_timings_soma ExemplosFormularios.td1 H).
Defined.

(** X19 at a sheet that ends with a line of totals: only the row of Acme
    becomes a fact. *)
Lemma totais_nao_sao_empresas_exemplo :
  ∃ rs d,
    _importar_excel_timings Latin1._norm_empresa_forte Latin1._norm_nome_forte
      Latin1._normalize_header [ExemplosFormularios.folha5] = Retorna (rs, d) ∧
    empresa <$> rs = ["Acme"] ∧
    ∀ r, r ∈ rs →
      empresa r ≠ "" ∧ _is_linha_total Latin1._normalize_header (empresa r) = false.
Proof.
  set (res := _importar_excel_timings Latin1._norm_empresa_forte Latin1._norm_nome_forte
                Latin1._normalize_header [ExemplosFormularios.folha5]).
  set (rs := match res with Retorna (rs, _) => rs | Levanta _ => [] end).
  set (d := match res with Retorna (_, d) => d | Levanta _ => diag_vazio end).
  assert (res = Retorna (rs, d)) as E by (vm_compute; reflexivity).
  exists rs, d. split; [exact E|]. split; [vm_compute; reflexivity|].
  exact (totais_nao_sao_empresas Latin1._norm_empresa_forte Latin1._norm_nome_forte
           Latin1._normalize_header [ExemplosFormularios.folha5] rs d E).
Defined.
